(** * The quiz bot (src/main.py)

    A shallow embedding of the tolerant answer parsers
    ([normalize_choice], [parse_matching_input], [parse_tf_list_input],
    [parse_ordering_input]), of the scoring functions
    ([question_max_points], [grade_answers]), of the result sheet
    ([ensure_sheet_header], [ensure_header_and_get_indices],
    [save_result_to_sheet]) and of the conversation ([cmd_start],
    [callback_query_handler], [handle_text_message],
    [send_question_to_user], [finish_test]), followed by the properties
    the specification states about the grading core and by further
    properties of the code.

    Modelling conventions.
    - A Python [str] is a list of Unicode code points ([N]).
    - Python's Unicode tables for non-ASCII code points (case mappings,
      decimal digits) are not part of the repository: they are a
      parameter, [UnicodeData].  On ASCII everything is written out.
      The set of white-space code points is small and is written out in
      full.
    - Python floats are modelled by exact rationals ([Q]); [round(x, 2)]
      is rounding half to even on hundredths.  Binary representation
      error is therefore outside the model.  An unrounded score in a
      statement is the expression the code evaluates; what needs exact
      arithmetic to hold (a product of a quotient giving back the
      maximum) is stated of the rounded score, for maxima with at most
      two decimals, where the rounding of the code absorbs the error.
    - A [dict] is an association list in insertion order; assigning to an
      existing key keeps the position of the key, as in Python.
    - Exceptions are explicit: [result A] is either a value or the
      exception raised.  Division raises on a zero divisor; reading the
      [answer] field raises when its shape has not the method the
      branch calls.
    - The fields of a test have the types of the data model: [points]
      is a number, the elements and keys of an [answer] field are
      strings and the values of a matching key are integers.  The
      exceptions the code raises on values of other types ([upper] of a
      boolean, [int] of a word, the sum of a number and a string) are
      therefore outside the model, and a statement on when grading
      raises is a statement over such tests.
    - [upper] maps code point by code point and so does [lower], but
      for the capital sigma, whose lower-case form depends on the
      letters around it as in the interpreter.  The limit of the
      interpreter on the number of digits [int] accepts is out of reach
      of a chat message and is not modelled. *)

From Stdlib Require Import ZArith NArith QArith Qround Qminmax List Bool String Ascii.
From Stdlib Require Import DecimalString Lia Lqa.
Import ListNotations.

Local Open Scope N_scope.

(** ** Strings *)

Definition char := N.
Definition str := list char.

(** An ASCII literal as a Python string. *)
Definition u (s : string) : str := map N_of_ascii (list_ascii_of_string s).

Definition char_eqb (a b : char) : bool := N.eqb a b.

Fixpoint str_eqb (a b : str) : bool :=
  match a, b with
  | [], [] => true
  | x :: a', y :: b' => char_eqb x y && str_eqb a' b'
  | _, _ => false
  end.

(** The non-ASCII part of the interpreter's Unicode database. *)
Record UnicodeData := {
  ucd_lower : char -> list char;
  ucd_upper : char -> list char;
  ucd_decimal : char -> option Z;
  ucd_cased : char -> bool;
  ucd_case_ignorable : char -> bool
}.

Definition between (lo hi c : char) : bool := (lo <=? c) && (c <=? hi).

Definition is_ascii (c : char) : bool := c <? 128.
Definition is_upper_AZ (c : char) : bool := between 65 90 c.
Definition is_lower_az (c : char) : bool := between 97 122 c.
Definition is_ascii_letter (c : char) : bool := is_upper_AZ c || is_lower_az c.

(** [str.isspace] on one code point; also the class [\s] of [re] and the
    separators of [str.split()] and [str.strip()]. *)
Definition isspace (c : char) : bool :=
  between 9 13 c || between 28 31 c || (c =? 32) || (c =? 133) || (c =? 160)
  || (c =? 5760) || between 8192 8202 c || (c =? 8232) || (c =? 8233)
  || (c =? 8239) || (c =? 8287) || (c =? 12288).

Section Parsers.

Variable ucd : UnicodeData.

Definition lower_cp (c : char) : list char :=
  if is_ascii c then [if is_upper_AZ c then c + 32 else c] else ucd_lower ucd c.

Definition upper_cp (c : char) : list char :=
  if is_ascii c then [if is_lower_az c then c - 32 else c] else ucd_upper ucd c.

(** Value of a decimal digit (the class [\d] of [re], the digits [int]
    accepts). *)
Definition decimal_cp (c : char) : option Z :=
  if is_ascii c then (if between 48 57 c then Some (Z.of_N (c - 48)) else None)
  else ucd_decimal ucd c.

(** The properties Cased and Case_Ignorable of a code point. *)
Definition cased_cp (c : char) : bool :=
  if is_ascii c then is_ascii_letter c else ucd_cased ucd c.

Definition case_ignorable_cp (c : char) : bool :=
  if is_ascii c
  then (c =? 39) || (c =? 46) || (c =? 58) || (c =? 94) || (c =? 96)
  else ucd_case_ignorable ucd c.

(** The first code point of [s] that is not case-ignorable is cased. *)
Fixpoint cased_next (s : str) : bool :=
  match s with
  | [] => false
  | c :: r => if case_ignorable_cp c then cased_next r else cased_cp c
  end.

(** [str.lower()]: code point by code point, except for the capital
    sigma (U+03A3), which becomes the final small sigma (U+03C2) when a
    cased letter precedes it and none follows, case-ignorable code points
    skipped, and the small sigma (U+03C3) otherwise.  [before] holds the
    code points already read, the last one first. *)
Fixpoint lower_from (before : list char) (s : str) : str :=
  match s with
  | [] => []
  | c :: r =>
      (if c =? 931
       then [if cased_next before && negb (cased_next r) then 962 else 963]
       else lower_cp c)
      ++ lower_from (c :: before) r
  end.

Definition lower (s : str) : str := lower_from [] s.

(** [str.upper()] *)
Definition upper (s : str) : str := flat_map upper_cp s.

Fixpoint lstrip (s : str) : str :=
  match s with
  | c :: r => if isspace c then lstrip r else s
  | [] => []
  end.

Definition rstrip (s : str) : str := rev (lstrip (rev s)).
Definition strip (s : str) : str := rstrip (lstrip s).

(** [s.replace(a, b)] for one-character [a] and [b]. *)
Definition replace (a b : char) (s : str) : str :=
  map (fun c => if char_eqb c a then b else c) s.

(** [s.split(sep)] for a one-character separator: empty pieces are kept. *)
Fixpoint split_on (sep : char) (s : str) : list str :=
  match s with
  | [] => [[]]
  | c :: r =>
      if char_eqb c sep then [] :: split_on sep r
      else match split_on sep r with
           | p :: ps => (c :: p) :: ps
           | [] => [[c]]
           end
  end.

(** [s.split()]: pieces between runs of white space, no empty piece. *)
Fixpoint split_ws_aux (cur : str) (s : str) : list str :=
  match s with
  | [] => match cur with [] => [] | _ => [rev cur] end
  | c :: r =>
      if isspace c
      then match cur with [] => split_ws_aux [] r | _ => rev cur :: split_ws_aux [] r end
      else split_ws_aux (c :: cur) r
  end.

Definition split_ws (s : str) : list str := split_ws_aux [] s.

(** [a in b] on strings. *)
Fixpoint starts_with (p s : str) : bool :=
  match p, s with
  | [], _ => true
  | x :: p', y :: s' => char_eqb x y && starts_with p' s'
  | _ :: _, [] => false
  end.

Fixpoint contains (p s : str) : bool :=
  starts_with p s || match s with [] => false | _ :: r => contains p r end.

Definition normalize_choice (s : str) : str := lower (strip s).

(** *** The pair pattern of [parse_matching_input] *)

Definition is_joiner (c : char) : bool := (c =? 45) || (c =? 61) || (c =? 58).

Fixpoint take_digits (s : str) : list Z * str :=
  match s with
  | c :: r =>
      match decimal_cp c with
      | Some d => let (ds, rest) := take_digits r in (d :: ds, rest)
      | None => ([], s)
      end
  | [] => ([], [])
  end.

(** [([A-Za-z])\s*[-=:]?\s*(\d+)] matched at the start of [s]: the letter,
    the digits and the unread rest.  The classes of the pattern are
    pairwise disjoint, so the greedy reading is the only one. *)
Definition re_pair (s : str) : option (char * list Z * str) :=
  match s with
  | c :: r =>
      if is_ascii_letter c then
        let r1 := lstrip r in
        let r2 := match r1 with
                  | j :: r' => if is_joiner j then r' else r1
                  | [] => r1
                  end in
        match take_digits (lstrip r2) with
        | ([], _) => None
        | (ds, rest) => Some (c, ds, rest)
        end
      else None
  | [] => None
  end.

(** [$] matches at the end of the string and before a final newline. *)
Definition at_dollar (s : str) : bool :=
  match s with
  | [] => true
  | [c] => c =? 10
  | _ => false
  end.

(** [re.match(r"^([A-Za-z])\s*[-=:]?\s*(\d+)$", p)] *)
Definition re_pair_full (p : str) : option (char * list Z) :=
  match re_pair p with
  | Some (c, ds, rest) => if at_dollar rest then Some (c, ds) else None
  | None => None
  end.

(** [re.finditer(r"([A-Za-z])\s*[-=:]?\s*(\d+)", p)]: non-overlapping
    matches from left to right; [skip] counts the characters of [s] still
    covered by the previous match. *)
Fixpoint re_pair_finditer (skip : nat) (s : str) : list (char * list Z) :=
  match s with
  | [] => []
  | _ :: r =>
      match skip with
      | S k => re_pair_finditer k r
      | O =>
          match re_pair s with
          | Some (c, ds, rest) =>
              (c, ds) :: re_pair_finditer (List.length r - List.length rest) r
          | None => re_pair_finditer 0 r
          end
      end
  end.

(** [int] of a run of decimal digits. *)
Definition int_of_digits (ds : list Z) : Z :=
  fold_left (fun acc d => 10 * acc + d)%Z ds 0%Z.

(** ** Dictionaries *)

Definition dict (V : Type) := list (str * V).

Fixpoint dict_get {V} (d : dict V) (k : str) : option V :=
  match d with
  | [] => None
  | (k', v) :: r => if str_eqb k' k then Some v else dict_get r k
  end.

Fixpoint dict_set {V} (d : dict V) (k : str) (v : V) : dict V :=
  match d with
  | [] => [(k, v)]
  | (k', v') :: r => if str_eqb k' k then (k', v) :: r else (k', v') :: dict_set r k v
  end.

Definition dict_keys {V} (d : dict V) : list str := map fst d.
Definition dict_values {V} (d : dict V) : list V := map snd d.

(** ** The parsers *)

Definition set_pair (res : dict Z) (m : char * list Z) : dict Z :=
  dict_set res (lower [fst m]) (int_of_digits (snd m)).

Definition parse_matching_input (s : str) : dict Z :=
  match s with
  | [] => []
  | _ =>
      let s2 := strip (replace 58 32 (replace 44 32 (replace 59 32 s))) in
      let parts := split_ws s2 in
      fold_left
        (fun res p =>
           match re_pair_full p with
           | Some m => set_pair res m
           | None => fold_left set_pair (re_pair_finditer 0 p) res
           end)
        parts []
  end.

Definition str_T : str := [84].
Definition str_F : str := [70].
Definition str_TRUE : str := [84; 82; 85; 69].
Definition str_FALSE : str := [70; 65; 76; 83; 69].

Definition parse_tf_list_input (s : str) : list str :=
  match s with
  | [] => []
  | _ =>
      let s2 := upper s in
      let s2 := map (fun c => if (c =? 44) || (c =? 46) || (c =? 59) then 32 else c) s2 in
      if existsb isspace s2 then
        let parts :=
          filter (fun p => str_eqb p str_T || str_eqb p str_F
                           || str_eqb p str_TRUE || str_eqb p str_FALSE)
                 (split_ws s2) in
        map (fun p => if str_eqb p str_T || str_eqb p str_TRUE then str_T else str_F) parts
      else
        map (fun c => [c]) (filter (fun c => (c =? 84) || (c =? 70)) s2)
  end.

(** [re.match(r"^[a-z]$", p)] *)
Definition re_az (p : str) : bool :=
  match p with
  | c :: rest => is_lower_az c && at_dollar rest
  | [] => false
  end.

Definition is_nonempty (s : str) : bool :=
  match s with [] => false | _ => true end.

Definition parse_ordering_input (s : str) : list str :=
  match s with
  | [] => []
  | _ =>
      let s2 := strip s in
      let parts :=
        if existsb (fun c => c =? 44) s2 then
          map (fun p => lower (strip p))
              (filter (fun p => is_nonempty (strip p)) (split_on 44 s2))
        else if existsb isspace s2 then
          map (fun p => lower (strip p))
              (filter (fun p => is_nonempty (strip p)) (split_ws s2))
        else map (fun c => [c]) (lower s2) in
      filter re_az parts
  end.

End Parsers.

(** A table for tests: Basic Cyrillic (U+0400 to U+045F) with its case
    pairs, LATIN CAPITAL LETTER I WITH DOT ABOVE, KELVIN SIGN and the
    three sigmas; every other non-ASCII code point is left as it is. *)
Definition sample_ucd : UnicodeData := {|
  ucd_lower := fun c =>
    if between 1040 1071 c then [c + 32]
    else if between 1024 1039 c then [c + 80]
    else if c =? 304 then [105; 775]
    else if c =? 8490 then [107]
    else [c];
  ucd_upper := fun c =>
    if between 1072 1103 c then [c - 32]
    else if between 1104 1119 c then [c - 80]
    else [c];
  ucd_decimal := fun c =>
    if between 1632 1641 c then Some (Z.of_N (c - 1632)) else None;
  ucd_cased := fun c =>
    between 1024 1119 c || (c =? 304) || (c =? 8490) || (c =? 931)
    || (c =? 962) || (c =? 963);
  ucd_case_ignorable := fun c => c =? 775
|}.

(** ** Numbers *)

Local Open Scope Q_scope.

(** Rounding half to even to an integer. *)
Definition round_half_even (x : Q) : Z :=
  let f := Qfloor x in
  match Qcompare (x - inject_Z f) (1 # 2) with
  | Lt => f
  | Gt => (f + 1)%Z
  | Eq => if Z.even f then f else (f + 1)%Z
  end.

(** [round(x, 2)] *)
Definition round2 (x : Q) : Q := round_half_even (x * 100) # 100.

(** ** Exceptions *)

Inductive exn := ZeroDivisionError | AttributeError.

Inductive result (A : Type) : Type :=
| Ok (a : A)
| Raise (e : exn).
Arguments Ok {A} a.
Arguments Raise {A} e.

Definition bind {A B} (r : result A) (k : A -> result B) : result B :=
  match r with
  | Ok a => k a
  | Raise e => Raise e
  end.

Notation "x <- r ;; k" := (bind r (fun x => k))
  (at level 61, r at next level, right associativity).

(** [x / y] *)
Definition py_div (x y : Q) : result Q :=
  if Qeq_bool y 0 then Raise ZeroDivisionError else Ok (x / y).

Definition len {A} (l : list A) : Z := Z.of_nat (List.length l).

(** ** Tests and questions *)

(** The [answer] field of a question is read in three ways, depending on
    the type tag: as a letter, as a dict and as a sequence. *)
Inductive answer_field :=
| AnsAbsent
| AnsStr (s : str)
| AnsMap (m : dict Z)
| AnsList (l : list str).

Record Question := {
  q_id : str;
  q_type : str;
  q_points : option Q;
  q_answer : answer_field;
  q_items : option (list str);
  q_options : option (list str);
  q_keywords : option (list str);
  q_left : option (list str);
  q_right : option (list str)
}.

Record Test := {
  t_id : str;
  t_title : str;
  t_questions : list Question
}.

Inductive detail :=
| DSingle (student correct : str) (score : Q)
| DMatching (student_map correct_map : dict Z) (matched_pairs total_pairs : Z) (score : Q)
| DTfList (student correct : list str) (matched total : Z) (score : Q)
| DOrdering (student correct : list str) (matched total : Z) (score : Q)
| DFreeText (type student : str) (keywords_found keywords_total : Z) (auto_score : Q)
| DOther (type student : str) (score : Q).

Record GradingResult := {
  score : Q;
  max_score : Q;
  auto_score : Q;
  manual_needed : bool;
  per_q_scores : dict Q;
  details : dict detail
}.

Definition ty_single : str := u "single".
Definition ty_matching : str := u "matching".
Definition ty_tf_list : str := u "tf_list".
Definition ty_ordering : str := u "ordering".
Definition ty_free_text : str := u "free_text".

Definition opt_list {A} (o : option (list A)) : list A :=
  match o with Some l => l | None => [] end.

(** [len(q.get("answer", {}))] *)
Definition answer_len (a : answer_field) : Z :=
  match a with
  | AnsAbsent => 0
  | AnsStr s => len s
  | AnsMap m => len m
  | AnsList l => len l
  end.

Definition question_max_points (q : Question) : Q :=
  match q_points q with
  | Some p => p
  | None =>
      let t := q_type q in
      if str_eqb t ty_single then 1
      else if str_eqb t ty_matching then inject_Z (answer_len (q_answer q))
      else if str_eqb t ty_tf_list then inject_Z (len (opt_list (q_items q)))
      else if str_eqb t ty_ordering then inject_Z (len (opt_list (q_options q)))
      else if starts_with ty_free_text t then 2
      else 1
  end.

Section Grading.

Variable ucd : UnicodeData.

(** [normalize_choice] of the [answer] field, the empty string by
    default: an empty dict or list is
    falsy and becomes the empty string; a non-empty one has no [strip]. *)
Definition answer_choice (a : answer_field) : result str :=
  match a with
  | AnsAbsent => Ok (normalize_choice ucd [])
  | AnsStr s => Ok (normalize_choice ucd s)
  | AnsMap [] | AnsList [] => Ok (normalize_choice ucd [])
  | AnsMap _ | AnsList _ => Raise AttributeError
  end.

(** [q.get("answer", {}).items()] *)
Definition answer_items (a : answer_field) : result (list (str * Z)) :=
  match a with
  | AnsAbsent => Ok []
  | AnsMap m => Ok m
  | AnsStr _ | AnsList _ => Raise AttributeError
  end.

(** [for c in q.get("answer", [])]: a list gives its elements, a string
    its characters, a dict its keys. *)
Definition answer_seq (a : answer_field) : list str :=
  match a with
  | AnsAbsent => []
  | AnsList l => l
  | AnsStr s => map (fun c => [c]) s
  | AnsMap m => dict_keys m
  end.

(** [{k.lower(): int(v) for k, v in items}] *)
Definition correct_map_of (items : list (str * Z)) : dict Z :=
  fold_left (fun d kv => dict_set d (lower ucd (fst kv)) (snd kv)) items [].

Definition opt_Z_eqb (o : option Z) (z : Z) : bool :=
  match o with Some x => Z.eqb x z | None => false end.

(** The loop over [correct_map.items()]. *)
Fixpoint count_pairs (s_map : dict Z) (correct_map : list (str * Z)) (matched : Z) : Z :=
  match correct_map with
  | [] => matched
  | (left_key, corr) :: r =>
      count_pairs s_map r
        (if opt_Z_eqb (dict_get s_map left_key) corr then matched + 1 else matched)%Z
  end.

(** The loop over [enumerate(correct)]. *)
Fixpoint count_positions (parts : list str) (i : nat) (correct : list str) (matched : Z) : Z :=
  match correct with
  | [] => matched
  | exp :: r =>
      count_positions parts (S i) r
        (if (i <? List.length parts)%nat && str_eqb (nth i parts []) exp
         then matched + 1 else matched)%Z
  end.

Definition partial_score (matched : Z) (pts : Q) (n : Z) : result Q :=
  d <- py_div pts (inject_Z (Z.max 1 n)) ;;
  Ok (inject_Z matched * d).

(** The body of the loop of [grade_answers] up to the accumulation:
    the score before the final rounding, the detail entry and whether the
    manual flag is set. *)
Definition grade_question (q : Question) (student_ans : str) (pts : Q)
  : result (Q * detail * bool) :=
  let qtype := q_type q in
  if str_eqb qtype ty_single then
    correct <- answer_choice (q_answer q) ;;
    let got := normalize_choice ucd student_ans in
    let score := if str_eqb got correct then pts else 0 in
    Ok (score, DSingle got correct score, false)
  else if str_eqb qtype ty_matching then
    items <- answer_items (q_answer q) ;;
    let correct_map := correct_map_of items in
    let s_map := parse_matching_input ucd student_ans in
    let matched := count_pairs s_map correct_map 0 in
    score <- partial_score matched pts (len correct_map) ;;
    Ok (score, DMatching s_map correct_map matched (len correct_map) (round2 score), false)
  else if str_eqb qtype ty_tf_list then
    let correct := map (upper ucd) (answer_seq (q_answer q)) in
    let parts := parse_tf_list_input ucd student_ans in
    let matched := count_positions parts 0 correct 0 in
    score <- partial_score matched pts (len correct) ;;
    Ok (score, DTfList parts correct matched (len correct) (round2 score), false)
  else if str_eqb qtype ty_ordering then
    let correct := map (lower ucd) (answer_seq (q_answer q)) in
    let parts := parse_ordering_input ucd student_ans in
    let matched := count_positions parts 0 correct 0 in
    score <- partial_score matched pts (len correct) ;;
    Ok (score, DOrdering parts correct matched (len correct) (round2 score), false)
  else if starts_with ty_free_text qtype then
    let keywords :=
      match opt_list (q_keywords q) with
      | [] => []
      | kws => map (lower ucd) kws
      end in
    if is_nonempty (strip student_ans) && negb (Nat.eqb (List.length keywords) 0) then
      let low := lower ucd student_ans in
      let found :=
        fold_left (fun found kw => if contains kw low then found + 1 else found)%Z
                  keywords 0%Z in
      ratio <- py_div (inject_Z found) (inject_Z (len keywords)) ;;
      let score := round2 (Qmin pts (pts * ratio)) in
      Ok (score, DFreeText qtype student_ans found (len keywords) score, true)
    else
      Ok (0, DFreeText qtype student_ans 0 (len keywords) 0, true)
  else
    Ok (0, DOther qtype student_ans 0, false).

(** The local variables of [grade_answers]. *)
Record acc := {
  a_total : Q;
  a_max_total : Q;
  a_auto_score : Q;
  a_manual_needed : bool;
  a_per_q_scores : dict Q;
  a_details : dict detail
}.

Definition acc0 : acc :=
  {| a_total := 0; a_max_total := 0; a_auto_score := 0; a_manual_needed := false;
     a_per_q_scores := []; a_details := [] |}.

Definition answers_get (answers : dict str) (qid : str) : str :=
  match dict_get answers qid with Some s => s | None => [] end.

(** One iteration of the loop. *)
Definition grade_step (answers : dict str) (st : acc) (q : Question) : result acc :=
  let qid := q_id q in
  let pts := question_max_points q in
  let max_total := a_max_total st + pts in
  let student_ans := answers_get answers qid in
  g <- grade_question q student_ans pts ;;
  let '(raw, d, manual) := g in
  let score := round2 raw in
  Ok {| a_total := a_total st + score;
        a_max_total := max_total;
        a_auto_score := a_auto_score st + score;
        a_manual_needed := a_manual_needed st || manual;
        a_per_q_scores := dict_set (a_per_q_scores st) qid score;
        a_details := dict_set (a_details st) qid d |}.

Fixpoint grade_loop (answers : dict str) (st : acc) (qs : list Question) : result acc :=
  match qs with
  | [] => Ok st
  | q :: r => st' <- grade_step answers st q ;; grade_loop answers st' r
  end.

Definition grade_answers (test : Test) (answers : dict str) : result GradingResult :=
  st <- grade_loop answers acc0 (t_questions test) ;;
  Ok {| score := round2 (a_total st);
        max_score := round2 (a_max_total st);
        auto_score := round2 (a_auto_score st);
        manual_needed := a_manual_needed st;
        per_q_scores := a_per_q_scores st;
        details := a_details st |}.

End Grading.

(** [sep.join(l)] *)
Fixpoint join (sep : str) (l : list str) : str :=
  match l with
  | [] => []
  | [x] => x
  | x :: r => x ++ sep ++ join sep r
  end.

(** The one-character strings of a sequence of code points. *)
Definition letters (cs : list char) : list str := map (fun c => [c]) cs.

(** * The conversation state and the result sheet *)

(** A value of [user_states]: the state of one student taking a test.
    [student_name] and [group] are set during the conversation. *)
Inductive stage := GetName | GetGroup | Asking.

Record UserState := {
  us_test_id : str;
  us_test : Test;
  us_stage : stage;
  us_index : nat;
  us_answers : dict str;
  us_start_time : Q;
  us_attempt : Z;
  us_telegram_id : Z;
  us_student_username : str;
  us_student_name : option str;
  us_group : option str
}.

(** The worksheet, seen through the three calls the code makes: the
    values of the first row ([row_values(1)]), writing a row of values
    from cell A1 on ([update]) and [append_row].  A cell holds a string
    or a number. *)
Inductive cell :=
| CStr (s : str)
| CNum (x : Q).

Record Sheet := {
  sh_row1 : list str;
  sh_appended : list (list cell)
}.

Definition sheet_update_A1 (sh : Sheet) (values : list str) : Sheet :=
  {| sh_row1 := values ++ skipn (List.length values) (sh_row1 sh);
     sh_appended := sh_appended sh |}.

Definition sheet_append_row (sh : Sheet) (row : list cell) : Sheet :=
  {| sh_row1 := sh_row1 sh; sh_appended := sh_appended sh ++ [row] |}.

Definition BASE_HEADER : list str :=
  map u [ "timestamp"; "student_name"; "group"; "test_id"; "test_title";
          "score"; "max_score"; "auto_score"; "manual_needed";
          "manual_score_total"; "teacher_comment"; "all_answers_json";
          "q12_raw"; "q13_raw"; "manual_score_q12"; "manual_score_q13";
          "telegram_id"; "notified" ]%string.

Fixpoint strs_eqb (a b : list str) : bool :=
  match a, b with
  | [], [] => true
  | x :: a', y :: b' => str_eqb x y && strs_eqb a' b'
  | _, _ => false
  end.

(** The header the code writes when the first row does not start with
    [BASE_HEADER]; [None] when the row is left alone. *)
Definition new_header_for (current : list str) : option (list str) :=
  if negb (strs_eqb (firstn (List.length BASE_HEADER) current) BASE_HEADER) then
    let extra :=
      if (List.length BASE_HEADER <? List.length current)%nat
      then skipn (List.length BASE_HEADER) current else [] in
    Some (BASE_HEADER ++ extra)
  else None.

Definition ensure_sheet_header (sheet : option Sheet) : option Sheet :=
  match sheet with
  | None => None
  | Some sh =>
      match new_header_for (sh_row1 sh) with
      | Some new_header => Some (sheet_update_A1 sh new_header)
      | None => Some sh
      end
  end.

(** [{h: i+1 for i, h in enumerate(header)}] *)
Definition header_indices (header : list str) : dict nat :=
  fold_left (fun d ih => dict_set d (snd ih) (fst ih + 1)%nat)
            (combine (seq 0 (List.length header)) header) [].

Definition ensure_header_and_get_indices (sh : Sheet) : Sheet * (list str * dict nat) :=
  let header := sh_row1 sh in
  match new_header_for header with
  | Some new_header =>
      (sheet_update_A1 sh new_header, (new_header, header_indices new_header))
  | None => (sh, (header, header_indices header))
  end.

(** [str(n)] for an integer. *)
Definition str_of_int (n : Z) : str := u (NilEmpty.string_of_int (Z.to_int n)).

Definition opt_str (o : option str) : str :=
  match o with Some s => s | None => [] end.

Section SaveResult.

(** [json.dumps(..., ensure_ascii=False)] on an answer map: the
    serialisation is the library's. *)
Variable json_dumps : dict str -> str.

(** The row of [save_result_to_sheet] before it is put in the order of
    the header; [now] is the formatted time of the call. *)
Definition result_row_map (header : list str) (now : str) (test : Test)
    (state : UserState) (result : GradingResult) : dict cell :=
  let row_map := fold_left (fun d h => dict_set d h (CStr [])) header [] in
  let row_map := dict_set row_map (u "timestamp") (CStr now) in
  let row_map := dict_set row_map (u "student_name") (CStr (opt_str (us_student_name state))) in
  let row_map := dict_set row_map (u "group") (CStr (opt_str (us_group state))) in
  let row_map := dict_set row_map (u "test_id") (CStr (us_test_id state)) in
  let row_map := dict_set row_map (u "test_title") (CStr (t_title test)) in
  let row_map := dict_set row_map (u "score") (CNum (score result)) in
  let row_map := dict_set row_map (u "max_score") (CNum (max_score result)) in
  let row_map := dict_set row_map (u "auto_score") (CNum (auto_score result)) in
  let row_map := dict_set row_map (u "manual_needed")
                   (CStr (if manual_needed result then u "YES" else u "NO")) in
  let row_map := dict_set row_map (u "manual_score_total") (CStr []) in
  let row_map := dict_set row_map (u "teacher_comment") (CStr []) in
  let row_map := dict_set row_map (u "all_answers_json")
                   (CStr (json_dumps (us_answers state))) in
  let row_map := dict_set row_map (u "q12_raw")
                   (CStr (answers_get (us_answers state) (u "q12"))) in
  let row_map := dict_set row_map (u "q13_raw")
                   (CStr (answers_get (us_answers state) (u "q13"))) in
  let row_map := dict_set row_map (u "manual_score_q12") (CStr []) in
  let row_map := dict_set row_map (u "manual_score_q13") (CStr []) in
  let row_map := dict_set row_map (u "telegram_id")
                   (CStr (str_of_int (us_telegram_id state))) in
  dict_set row_map (u "notified") (CStr []).

Definition cell_get (row_map : dict cell) (h : str) : cell :=
  match dict_get row_map h with Some c => c | None => CStr [] end.

Definition save_result_to_sheet (sheet : option Sheet) (now : str) (test : Test)
    (state : UserState) (result : GradingResult) : option Sheet :=
  match sheet with
  | None => None
  | Some sh =>
      let '(sh1, (header, indices)) := ensure_header_and_get_indices sh in
      let row_map := result_row_map header now test state result in
      let row := map (cell_get row_map) header in
      Some (sheet_append_row sh1 row)
  end.

End SaveResult.

(** * The conversation *)

(** The handlers change [user_states] and the sheet and call the bot.
    A call of the bot is recorded as an action and is taken to return;
    a call of the sheet may fail.  The text of a message
    is represented by the place of the code that builds it and by the
    values it interpolates; its wording is not modelled.  The fields
    every question has ([id], [type] and [text]) and the [title] of a
    test are taken to be present; the fields that go with a type
    ([options], [items], [left], [right]) may be missing, and reading a
    missing one raises [KeyError]. *)

Inductive py_error :=
| IndexError
| KeyError
| TypeError
| ValueError
| GradingError (e : exn).

Inductive outcome (A : Type) : Type :=
| Done (a : A)
| Fail (e : py_error).
Arguments Done {A} a.
Arguments Fail {A} e.

(** *** Values of the detail entries *)

(** A value stored in a detail entry, as the report reads it. *)
Inductive pyval :=
| VStr (s : str)
| VStrs (l : list str)
| VNum (x : Q)
| VInt (z : Z)
| VMap (m : dict Z).

(** The dict a detail entry is in [grade_answers]. *)
Definition detail_fields (d : detail) : list (string * pyval) :=
  match d with
  | DSingle student correct sc =>
      [ ("type", VStr ty_single); ("student", VStr student);
        ("correct", VStr correct); ("score", VNum sc) ]
  | DMatching student_map correct_map matched_pairs total_pairs sc =>
      [ ("type", VStr ty_matching); ("student_map", VMap student_map);
        ("correct_map", VMap correct_map); ("matched_pairs", VInt matched_pairs);
        ("total_pairs", VInt total_pairs); ("score", VNum sc) ]
  | DTfList student correct matched total sc =>
      [ ("type", VStr ty_tf_list); ("student", VStrs student);
        ("correct", VStrs correct); ("matched", VInt matched);
        ("total", VInt total); ("score", VNum sc) ]
  | DOrdering student correct matched total sc =>
      [ ("type", VStr ty_ordering); ("student", VStrs student);
        ("correct", VStrs correct); ("matched", VInt matched);
        ("total", VInt total); ("score", VNum sc) ]
  | DFreeText type student keywords_found keywords_total auto =>
      [ ("type", VStr type); ("student", VStr student);
        ("keywords_found", VInt keywords_found);
        ("keywords_total", VInt keywords_total); ("auto_score", VNum auto) ]
  | DOther type student sc =>
      [ ("type", VStr type); ("student", VStr student); ("score", VNum sc) ]
  end%string.

Fixpoint field_get (fs : list (string * pyval)) (k : string) : option pyval :=
  match fs with
  | [] => None
  | (k', v) :: r => if String.eqb k' k then Some v else field_get r k
  end.

(** [info[k]] *)
Definition field (fs : list (string * pyval)) (k : string) : outcome pyval :=
  match field_get fs k with
  | Some v => Done v
  | None => Fail KeyError
  end.

(** [a == b] on mappings. *)
Definition dict_Z_eqb (a b : dict Z) : bool :=
  Nat.eqb (List.length a) (List.length b)
  && forallb (fun kv => opt_Z_eqb (dict_get b (fst kv)) (snd kv)) a.

(** [a == b] *)
Definition pyval_eqb (a b : pyval) : bool :=
  match a, b with
  | VStr x, VStr y => str_eqb x y
  | VStrs x, VStrs y => strs_eqb x y
  | VNum x, VNum y => Qeq_bool x y
  | VInt x, VInt y => Z.eqb x y
  | VNum x, VInt y | VInt y, VNum x => Qeq_bool x (inject_Z y)
  | VMap x, VMap y => dict_Z_eqb x y
  | _, _ => false
  end.

(** The truth value of a value. *)
Definition truthy (v : pyval) : bool :=
  match v with
  | VStr s => is_nonempty s
  | VStrs l => match l with [] => false | _ => true end
  | VNum x => negb (Qeq_bool x 0)
  | VInt z => negb (Z.eqb z 0)
  | VMap m => match m with [] => false | _ => true end
  end.

(** [' '.join(v)]: a list gives its elements, a string its characters,
    a dict its keys. *)
Definition join_blank (v : pyval) : outcome str :=
  match v with
  | VStrs l => Done (join [32%N] l)
  | VStr s => Done (join [32%N] (letters s))
  | VMap m => Done (join [32%N] (dict_keys m))
  | VNum _ | VInt _ => Fail TypeError
  end.

(** [round(v, 2)] *)
Definition round_value (v : pyval) : outcome Q :=
  match v with
  | VNum x => Done (round2 x)
  | VInt z => Done (inject_Z z)
  | _ => Fail TypeError
  end.

(** [v > 0] *)
Definition positive (v : pyval) : outcome bool :=
  match v with
  | VInt z => Done (0 <? z)%Z
  | VNum x => Done (negb (Qle_bool x 0))
  | _ => Fail TypeError
  end.

(** [int(x)]: truncation towards zero. *)
Definition py_int (x : Q) : Z := Z.quot (Qnum x) (Zpos (Qden x)).

(** *** The report *)

(** The lines of the report of [finish_test], one constructor for each
    f-string. *)
Inductive report_line :=
| RQuestion (q : Question)
| RSingle (student correct : pyval) (ok : bool) (shown : Z) (pts : Q)
| RMatching (matched_pairs total_pairs : pyval) (shown pts : Q)
| RPairs (student_map : pyval)
| RTfList (matched total : pyval) (shown pts : Q)
| RTfAnswer (student : option str)
| ROrdering (matched total : pyval) (shown pts : Q)
| RCorrectOrder (correct : str)
| RStudentOrder (student : option str)
| RKeywords (keywords_found keywords_total auto : pyval) (pts : Q)
| RManual (pts : Q)
| RFreeAnswer (student : option pyval)
| ROtherAnswer (answer : str).

Definition obind {A B} (r : outcome A) (k : A -> outcome B) : outcome B :=
  match r with
  | Done a => k a
  | Fail e => Fail e
  end.

(** [' '.join(v) if v else '(empty)'] *)
Definition join_or_empty (v : pyval) : outcome (option str) :=
  if truthy v then obind (join_blank v) (fun s => Done (Some s)) else Done None.

(** [details[qid]] *)
Definition detail_of (details : dict detail) (qid : str)
  : outcome (list (string * pyval)) :=
  match dict_get details qid with
  | Some d => Done (detail_fields d)
  | None => Fail KeyError
  end.

(** The lines of one question. *)
Definition question_lines (answers : dict str) (result : GradingResult) (q : Question)
  : outcome (list report_line) :=
  let qid := q_id q in
  let qtype := q_type q in
  let pts := question_max_points q in
  let sc := match dict_get (per_q_scores result) qid with Some x => x | None => 0 end in
  let details := details result in
  if str_eqb qtype ty_single then
    obind (detail_of details qid) (fun info =>
    obind (field info "student") (fun student =>
    obind (detail_of details qid) (fun info' =>
    obind (field info' "correct") (fun correct =>
    let ok := pyval_eqb student correct in
    Done [RQuestion q; RSingle student correct ok (py_int sc) pts]))))
  else if str_eqb qtype ty_matching then
    obind (detail_of details qid) (fun info =>
    obind (field info "matched_pairs") (fun matched_pairs =>
    obind (field info "total_pairs") (fun total_pairs =>
    obind (field info "score") (fun s0 =>
    obind (round_value s0) (fun shown =>
    obind (field info "student_map") (fun student_map =>
    Done [RQuestion q; RMatching matched_pairs total_pairs shown pts;
          RPairs student_map]))))))
  else if str_eqb qtype ty_tf_list then
    obind (detail_of details qid) (fun info =>
    obind (field info "matched") (fun matched =>
    obind (field info "total") (fun total =>
    obind (field info "score") (fun s0 =>
    obind (round_value s0) (fun shown =>
    obind (field info "student") (fun student =>
    obind (join_or_empty student) (fun shown_answer =>
    Done [RQuestion q; RTfList matched total shown pts; RTfAnswer shown_answer])))))))
  else if str_eqb qtype ty_ordering then
    obind (detail_of details qid) (fun info =>
    obind (field info "matched") (fun matched =>
    obind (field info "total") (fun total =>
    obind (field info "score") (fun s0 =>
    obind (round_value s0) (fun shown =>
    obind (field info "correct") (fun correct =>
    obind (join_blank correct) (fun shown_correct =>
    obind (field info "student") (fun student =>
    obind (join_or_empty student) (fun shown_answer =>
    Done [RQuestion q; ROrdering matched total shown pts;
          RCorrectOrder shown_correct; RStudentOrder shown_answer])))))))))
  else if starts_with ty_free_text qtype then
    obind (detail_of details qid) (fun info =>
    let total := match field_get info "keywords_total" with
                 | Some v => v | None => VInt 0 end in
    obind (positive total) (fun has_keywords =>
    obind (if has_keywords then
             obind (field info "keywords_found") (fun found =>
             obind (field info "keywords_total") (fun total' =>
             obind (field info "auto_score") (fun auto =>
             Done [RQuestion q; RKeywords found total' auto pts])))
           else Done [RQuestion q; RManual pts]) (fun lines =>
    Done (lines ++ [RFreeAnswer (field_get info "student")]))))
  else
    Done [RQuestion q; ROtherAnswer (answers_get answers qid)].

Fixpoint report_lines (answers : dict str) (result : GradingResult)
    (qs : list Question) : outcome (list report_line) :=
  match qs with
  | [] => Done []
  | q :: r =>
      obind (question_lines answers result q) (fun lines =>
      obind (report_lines answers result r) (fun rest => Done (lines ++ rest)))
  end.

(** *** Buttons *)

Record button := {
  b_text : str;
  b_callback_data : str
}.

(** [chr(n)] *)
Definition py_chr (n : N) : outcome char :=
  if (n <=? 1114111)%N then Done n else Fail ValueError.

Fixpoint option_buttons (i : nat) (options : list str) : outcome (list button) :=
  match options with
  | [] => Done []
  | opt :: r =>
      obind (py_chr (97 + N.of_nat i)) (fun c =>
      obind (py_chr (97 + N.of_nat i)) (fun c' =>
      obind (option_buttons (S i) r) (fun rest =>
      Done ({| b_text := [c] ++ u ". " ++ opt; b_callback_data := [c'] |} :: rest))))
  end.

Definition make_inline_keyboard_for_options (options : list str)
  : outcome (list button) :=
  option_buttons 0 options.

(** One button for each test, in the order of [TESTS]. *)
Definition make_inline_keyboard_for_testlist (tests : dict Test) : list button :=
  map (fun kv => {| b_text := t_title (snd kv);
                    b_callback_data := u "take::" ++ fst kv |}) tests.

(** *** Messages and actions *)

Inductive message_text :=
| MsgTestList
| MsgNoTests
| MsgAskName
| MsgAskGroup
| MsgBegin (title : str)
| MsgQuestion (q : Question)
| MsgNeedStart
| MsgSummary (report : list report_line) (auto max : Q) (manual saved : bool).

Inductive callback_text :=
| CbTestNotFound
| CbTestChosen (title : str)
| CbChosen (data : str)
| CbUnknownButton.

Inductive action :=
| SendMessage (chat : Z) (text : message_text) (markup : option (list button))
| AnswerCallback (call_id : str) (text : callback_text)
| DeleteMessage (chat : Z) (message_id : Z).

(** *** The state of the bot *)

Definition states := list (Z * UserState).

Fixpoint states_get (s : states) (chat : Z) : option UserState :=
  match s with
  | [] => None
  | (c, st) :: r => if Z.eqb c chat then Some st else states_get r chat
  end.

Fixpoint states_set (s : states) (chat : Z) (st : UserState) : states :=
  match s with
  | [] => [(chat, st)]
  | (c, st') :: r =>
      if Z.eqb c chat then (c, st) :: r else (c, st') :: states_set r chat st
  end.

Fixpoint states_del (s : states) (chat : Z) : states :=
  match s with
  | [] => []
  | (c, st) :: r => if Z.eqb c chat then r else (c, st) :: states_del r chat
  end.

Record TgUser := {
  tg_id : Z;
  tg_username : option str
}.

(** What a call finds outside the program: the loaded tests, the clock,
    the formatted time, and which of the three calls to the sheet
    succeed; a call that fails raises and writes nothing. *)
Record Env := {
  env_tests : dict Test;
  env_clock : Q;
  env_now : str;
  env_row_values_ok : bool;
  env_update_ok : bool;
  env_append_row_ok : bool
}.

Record World := {
  w_states : states;
  w_sheet : option Sheet
}.

(** The effect of a handler: the new state, the calls of the bot in
    order, and the exception it ended with, if any. *)
Record Reply := {
  rp_world : World;
  rp_actions : list action;
  rp_error : option py_error
}.

Definition with_states (w : World) (s : states) : World :=
  {| w_states := s; w_sheet := w_sheet w |}.

Definition start_test_for_user (env : Env) (s : states) (chat : Z) (test_id : str)
    (tg_user : TgUser) : outcome states :=
  match dict_get (env_tests env) test_id with
  | None => Fail KeyError
  | Some test =>
      Done (states_set s chat
              {| us_test_id := test_id;
                 us_test := test;
                 us_stage := GetName;
                 us_index := 0;
                 us_answers := [];
                 us_start_time := env_clock env;
                 us_attempt := 1;
                 us_telegram_id := tg_id tg_user;
                 us_student_username := opt_str (tg_username tg_user);
                 us_student_name := None;
                 us_group := None |})
  end.

(** [chr(ord('a') + i)] for every element of an enumerated list, from
    index [i] on. *)
Fixpoint letter_labels (i : nat) (l : list str) : outcome (list char) :=
  match l with
  | [] => Done []
  | _ :: r =>
      obind (py_chr (97 + N.of_nat i)) (fun c =>
      obind (letter_labels (S i) r) (fun rest => Done (c :: rest)))
  end.

(** What [format_question_text] reads and computes before it returns:
    the fields of the question and the letters of the enumerations. *)
Definition question_text_fields (q : Question) : outcome unit :=
  let t := q_type q in
  if str_eqb t ty_single then
    match q_options q with
    | Some options => obind (letter_labels 0 options) (fun _ => Done tt)
    | None => Fail KeyError
    end
  else if str_eqb t ty_matching then
    match q_left q with
    | Some items =>
        obind (letter_labels 0 items) (fun _ =>
        match q_right q with
        | Some _ => Done tt
        | None => Fail KeyError
        end)
    | None => Fail KeyError
    end
  else if str_eqb t ty_tf_list then
    match q_items q with Some _ => Done tt | None => Fail KeyError end
  else if str_eqb t ty_ordering then
    match q_options q with
    | Some options => obind (letter_labels 0 options) (fun _ => Done tt)
    | None => Fail KeyError
    end
  else Done tt.

Definition send_question_to_user (chat : Z) (q : Question) : outcome (list action) :=
  if str_eqb (q_type q) ty_single then
    match q_options q with
    | None => Fail KeyError
    | Some options =>
        obind (make_inline_keyboard_for_options options) (fun kb =>
        obind (question_text_fields q) (fun _ =>
        Done [SendMessage chat (MsgQuestion q) (Some kb)]))
    end
  else
    obind (question_text_fields q) (fun _ =>
    Done [SendMessage chat (MsgQuestion q) None]).

Section Handlers.

Variable ucd : UnicodeData.
Variable json_dumps : dict str -> str.

(** [save_result_to_sheet] inside the [try] of [finish_test]: the sheet
    as the call leaves it, and whether it returned.  The header is read,
    repaired if need be, and the row appended; the first call that fails
    ends it. *)
Definition try_save_result (env : Env) (sheet : option Sheet) (test : Test)
    (state : UserState) (result : GradingResult) : option Sheet * bool :=
  match sheet with
  | None => (None, true)
  | Some sh =>
      if env_row_values_ok env then
        let repaired :=
          match new_header_for (sh_row1 sh) with
          | Some new_header =>
              if env_update_ok env then Some (sheet_update_A1 sh new_header) else None
          | None => Some sh
          end in
        match repaired with
        | None => (Some sh, false)
        | Some sh1 =>
            if env_append_row_ok env
            then (save_result_to_sheet json_dumps sheet (env_now env) test state result,
                  true)
            else (Some sh1, false)
        end
      else (Some sh, false)
  end.

Definition finish_test (env : Env) (w : World) (chat : Z) : Reply :=
  match states_get (w_states w) chat with
  | None => {| rp_world := w; rp_actions := []; rp_error := None |}
  | Some state =>
      let test := us_test state in
      match grade_answers ucd test (us_answers state) with
      | Raise e => {| rp_world := w; rp_actions := []; rp_error := Some (GradingError e) |}
      | Ok result =>
          match report_lines (us_answers state) result (t_questions test) with
          | Fail e => {| rp_world := w; rp_actions := []; rp_error := Some e |}
          | Done lines =>
              let saving := try_save_result env (w_sheet w) test state result in
              let sheet' := fst saving in
              let saved := snd saving in
              let summary :=
                MsgSummary lines (auto_score result) (max_score result)
                  (manual_needed result) saved in
              {| rp_world := {| w_states := states_del (w_states w) chat;
                                w_sheet := sheet' |};
                 rp_actions := [SendMessage chat summary None];
                 rp_error := None |}
          end
      end
  end.

(** The end of both handlers: the next question, or [finish_test]. *)
Definition next_question (env : Env) (w : World) (chat : Z) (state : UserState)
    (before : list action) : Reply :=
  if (us_index state <? List.length (t_questions (us_test state)))%nat then
    match nth_error (t_questions (us_test state)) (us_index state) with
    | None => {| rp_world := w; rp_actions := before; rp_error := Some IndexError |}
    | Some q =>
        match send_question_to_user chat q with
        | Done sent => {| rp_world := w; rp_actions := before ++ sent; rp_error := None |}
        | Fail e => {| rp_world := w; rp_actions := before; rp_error := Some e |}
        end
    end
  else
    let r := finish_test env w chat in
    {| rp_world := rp_world r; rp_actions := before ++ rp_actions r;
       rp_error := rp_error r |}.

Definition handle_text_message (env : Env) (w : World) (chat : Z)
    (message_text : option str) : Reply :=
  let text := match message_text with
              | Some t => match t with [] => [] | _ => strip t end
              | None => []
              end in
  match states_get (w_states w) chat with
  | None =>
      {| rp_world := w; rp_actions := [SendMessage chat MsgNeedStart None];
         rp_error := None |}
  | Some state =>
      match us_stage state with
      | GetName =>
          let state' :=
            {| us_test_id := us_test_id state; us_test := us_test state;
               us_stage := GetGroup; us_index := us_index state;
               us_answers := us_answers state; us_start_time := us_start_time state;
               us_attempt := us_attempt state; us_telegram_id := us_telegram_id state;
               us_student_username := us_student_username state;
               us_student_name := Some text; us_group := us_group state |} in
          {| rp_world := with_states w (states_set (w_states w) chat state');
             rp_actions := [SendMessage chat MsgAskGroup None];
             rp_error := None |}
      | GetGroup =>
          let state' :=
            {| us_test_id := us_test_id state; us_test := us_test state;
               us_stage := Asking; us_index := 0;
               us_answers := us_answers state; us_start_time := us_start_time state;
               us_attempt := us_attempt state; us_telegram_id := us_telegram_id state;
               us_student_username := us_student_username state;
               us_student_name := us_student_name state; us_group := Some text |} in
          let w' := with_states w (states_set (w_states w) chat state') in
          let begin := [SendMessage chat (MsgBegin (t_title (us_test state))) None] in
          match nth_error (t_questions (us_test state)) 0 with
          | None => {| rp_world := w'; rp_actions := begin; rp_error := Some IndexError |}
          | Some q =>
              match send_question_to_user chat q with
              | Done sent =>
                  {| rp_world := w'; rp_actions := begin ++ sent; rp_error := None |}
              | Fail e => {| rp_world := w'; rp_actions := begin; rp_error := Some e |}
              end
          end
      | Asking =>
          match nth_error (t_questions (us_test state)) (us_index state) with
          | None => {| rp_world := w; rp_actions := []; rp_error := Some IndexError |}
          | Some q =>
              let state' :=
                {| us_test_id := us_test_id state; us_test := us_test state;
                   us_stage := us_stage state; us_index := S (us_index state);
                   us_answers := dict_set (us_answers state) (q_id q) text;
                   us_start_time := us_start_time state;
                   us_attempt := us_attempt state;
                   us_telegram_id := us_telegram_id state;
                   us_student_username := us_student_username state;
                   us_student_name := us_student_name state;
                   us_group := us_group state |} in
              next_question env (with_states w (states_set (w_states w) chat state'))
                chat state' []
          end
      end
  end.

(** [data.split("::", 1)]: the part after the first double colon, if
    there is one. *)
Fixpoint after_double_colon (s : str) : option str :=
  match s with
  | a :: r =>
      match r with
      | b :: r' =>
          if ((a =? 58) && (b =? 58))%N then Some r' else after_double_colon r
      | [] => None
      end
  | [] => None
  end.

Definition button_letters : list str :=
  map u ["a"; "b"; "c"; "d"; "e"; "f"; "g"; "h"]%string.

Definition callback_query_handler (env : Env) (w : World) (chat : Z) (call_id : str)
    (data : str) (from_user : TgUser) (message_id : Z) : Reply :=
  if starts_with (u "take::") data then
    match after_double_colon data with
    | None => {| rp_world := w; rp_actions := []; rp_error := Some IndexError |}
    | Some test_id =>
        match dict_get (env_tests env) test_id with
        | None =>
            {| rp_world := w; rp_actions := [AnswerCallback call_id CbTestNotFound];
               rp_error := None |}
        | Some test =>
            match start_test_for_user env (w_states w) chat test_id from_user with
            | Fail e => {| rp_world := w; rp_actions := []; rp_error := Some e |}
            | Done s' =>
                {| rp_world := with_states w s';
                   rp_actions := [AnswerCallback call_id (CbTestChosen (t_title test));
                                  SendMessage chat MsgAskName None];
                   rp_error := None |}
            end
        end
    end
  else
    let unknown :=
      {| rp_world := w; rp_actions := [AnswerCallback call_id CbUnknownButton];
         rp_error := None |} in
    match states_get (w_states w) chat with
    | None => unknown
    | Some state =>
        match nth_error (t_questions (us_test state)) (us_index state) with
        | None => unknown
        | Some q =>
            if str_eqb (q_type q) ty_single
               && existsb (str_eqb data) button_letters then
              let state' :=
                {| us_test_id := us_test_id state; us_test := us_test state;
                   us_stage := us_stage state; us_index := S (us_index state);
                   us_answers := dict_set (us_answers state) (q_id q) data;
                   us_start_time := us_start_time state;
                   us_attempt := us_attempt state;
                   us_telegram_id := us_telegram_id state;
                   us_student_username := us_student_username state;
                   us_student_name := us_student_name state;
                   us_group := us_group state |} in
              next_question env (with_states w (states_set (w_states w) chat state'))
                chat state'
                [AnswerCallback call_id (CbChosen data); DeleteMessage chat message_id]
            else unknown
        end
    end.

(** [/start] and [/help] *)
Definition cmd_start (env : Env) (w : World) (chat : Z) : Reply :=
  match env_tests env with
  | [] =>
      {| rp_world := w; rp_actions := [SendMessage chat MsgNoTests None];
         rp_error := None |}
  | _ =>
      {| rp_world := w;
         rp_actions := [SendMessage chat MsgTestList
                          (Some (make_inline_keyboard_for_testlist (env_tests env)))];
         rp_error := None |}
  end.

End Handlers.

(** * Notions used in the statements *)

(** A number with at most two decimals. *)
Definition two_decimals (x : Q) : Prop := exists z : Z, x == z # 100.

(** The free_text family: the tags the code recognises with
    [qtype.startswith("free_text")]. *)
Definition is_free_text (t : str) : bool := starts_with ty_free_text t.

(** A tag none of the branches of [grade_answers] recognises. *)
Definition is_unrecognized (t : str) : bool :=
  negb (str_eqb t ty_single) && negb (str_eqb t ty_matching)
  && negb (str_eqb t ty_tf_list) && negb (str_eqb t ty_ordering)
  && negb (is_free_text t).

(** [sum(per_q_scores.values())] *)
Definition sum_values (d : dict Q) : Q := fold_left Qplus (dict_values d) 0.

(** The [answer] field has a shape the branch of its type tag can read. *)
Definition answer_fits (q : Question) : bool :=
  if str_eqb (q_type q) ty_single then
    match q_answer q with
    | AnsMap (_ :: _) | AnsList (_ :: _) => false
    | _ => true
    end
  else if str_eqb (q_type q) ty_matching then
    match q_answer q with
    | AnsStr _ | AnsList _ => false
    | _ => true
    end
  else true.

Definition mkq (id ty : string) (pts : option Q) (ans : answer_field)
  (items opts kws : option (list str)) : Question :=
  {| q_id := u id; q_type := u ty; q_points := pts; q_answer := ans;
     q_items := items; q_options := opts; q_keywords := kws;
     q_left := None; q_right := None |}.

Definition sample_test : Test :=
  {| t_id := u "t1"; t_title := u "Biology";
     t_questions :=
       [ mkq "q1" "single" None (AnsStr (u "a")) None (Some [u "Paris"; u "London"]) None;
         mkq "q2" "matching" None
             (AnsMap [(u "a", 2%Z); (u "b", 1%Z); (u "c", 4%Z)]) None None None;
         mkq "q3" "tf_list" None (AnsList [u "T"; u "F"; u "T"])
             (Some [u "x"; u "y"; u "z"]) None None;
         mkq "q4" "ordering" None (AnsList [u "d"; u "c"; u "b"; u "a"; u "e"]) None
             (Some [u "v"; u "w"; u "x"; u "y"; u "z"]) None;
         mkq "q5" "free_text" None AnsAbsent None None (Some [u "mitosis"; u "cell"]);
         mkq "q6" "essay" None AnsAbsent None None None ] |}.

Definition sample_answers : dict str :=
  [ (u "q1", u "a"); (u "q2", u "a-2 b-3 c-4"); (u "q3", u "TFF");
    (u "q4", u "d c a b e"); (u "q5", u "the process of Mitosis splits the cell");
    (u "q6", u "whatever") ].

(** What [grade_answers] returns on the sample. *)
Definition sample_result : GradingResult :=
  Eval vm_compute in
    match grade_answers sample_ucd sample_test sample_answers with
    | Ok r => r
    | Raise _ =>
        {| score := 0; max_score := 0; auto_score := 0; manual_needed := false;
           per_q_scores := []; details := [] |}
    end.

(** A code point whose lowercase form contains no letter a to z: an
    ASCII character other than a letter, and a non-ASCII code point
    that the case table does not send to an ASCII letter. *)
Definition lowers_off_az (ucd : UnicodeData) (c : char) : bool :=
  forallb (fun d => negb (is_lower_az d)) (lower_cp ucd c).

(** The Cyrillic letters U+0433, U+0431, U+0432, U+0430 and the digits
    2 1. *)
Definition cyrillic_answer : str := [1075; 1073; 1074; 1072; 50; 49]%N.

Definition empty_key_test : Test :=
  {| t_id := u "t2"; t_title := u "Empty keys";
     t_questions :=
       [ mkq "m" "matching" (Some 3) (AnsMap []) None None None;
         mkq "t" "tf_list" (Some 2) (AnsList []) (Some [u "x"; u "y"]) None None;
         mkq "o" "ordering" None AnsAbsent None (Some [u "x"; u "y"]) None ] |}.

(** In the words of the specification: position [i] is a match
    when the student sequence has an [i]-th element and that element is
    the expected one; positions past the end of the student sequence
    are wrong. *)
Fixpoint positional_matches (expected parts : list str) : Z :=
  match expected, parts with
  | e :: es, p :: ps => ((if str_eqb p e then 1 else 0) + positional_matches es ps)%Z
  | _, _ => 0%Z
  end.







(** In the words of the specification: the number of keywords
    found by case-insensitive substring search, and the score
    [min(pts, pts * found / total)] rounded to two decimals. *)
Definition keywords_found (ucd : UnicodeData) (kws : list str) (ans : str) : Z :=
  len (filter (fun kw => contains (lower ucd kw) (lower ucd ans)) kws).

Definition keyword_score (ucd : UnicodeData) (pts : Q) (kws : list str) (ans : str) : Q :=
  round2 (Qmin pts (pts * (inject_Z (keywords_found ucd kws ans) / inject_Z (len kws)))).

(** A free-text question whose only keyword is the empty string. *)
Definition empty_keyword_question : Question :=
  mkq "q1" "free_text" None AnsAbsent None None (Some [[]]).

Definition empty_keyword_test : Test :=
  {| t_id := u "t6"; t_title := u "Keywords"; t_questions := [empty_keyword_question] |}.

(** The lower-case form of an ASCII character. *)
Definition ascii_lower (c : char) : char := if is_upper_AZ c then (c + 32)%N else c.

(** A truth value as the parser writes it. *)
Definition tf_str (b : bool) : str := if b then str_T else str_F.

(** A truth value as a student may type it: [T] or [F], in either
    case. *)
Definition tf_char (up b : bool) : char :=
  match up, b with
  | true, true => 84%N
  | true, false => 70%N
  | false, true => 116%N
  | false, false => 102%N
  end.

(** The keys of a mapping are distinct strings of one lower-case ASCII
    letter. *)
Definition letter_keys (d : dict Z) : Prop :=
  NoDup (dict_keys d) /\
  Forall (fun k => exists c, k = [c] /\ is_lower_az c = true) (dict_keys d).

(** The upper-case form of an ASCII character. *)
Definition ascii_upper (c : char) : char := if is_lower_az c then (c - 32)%N else c.

(** The separators [parse_tf_list_input] turns into blanks. *)
Definition tf_subst (c : char) : char :=
  if ((c =? 44) || (c =? 46) || (c =? 59))%N then 32%N else c.

(** The detail entry has the shape [grade_answers] gives to a question
    of type [t]. *)
Definition detail_matches (t : str) (d : detail) : bool :=
  if str_eqb t ty_single then match d with DSingle _ _ _ => true | _ => false end
  else if str_eqb t ty_matching then match d with DMatching _ _ _ _ _ => true | _ => false end
  else if str_eqb t ty_tf_list then match d with DTfList _ _ _ _ _ => true | _ => false end
  else if str_eqb t ty_ordering then match d with DOrdering _ _ _ _ _ => true | _ => false end
  else if starts_with ty_free_text t then
    match d with DFreeText _ _ _ _ _ => true | _ => false end
  else match d with DOther _ _ _ => true | _ => false end.

(** The number of report lines of a question of type [t]. *)
Definition lines_for (t : str) : nat :=
  if str_eqb t ty_single then 2
  else if str_eqb t ty_matching then 3
  else if str_eqb t ty_tf_list then 3
  else if str_eqb t ty_ordering then 4
  else if starts_with ty_free_text t then 3
  else 2.

(** [user_states] has one entry for a chat. *)
Definition states_ok (s : states) : Prop := NoDup (map fst s).

(** Every student is at a question of the test. *)
Definition indexes_ok (s : states) : Prop :=
  forall chat st, states_get s chat = Some st ->
    (us_index st < List.length (t_questions (us_test st)))%nat.

(** A test with a question of type single next to a free-text question
    with the same id. *)
Definition clashing_test : Test :=
  {| t_id := u "t7"; t_title := u "Clash";
     t_questions :=
       [ mkq "q1" "single" None (AnsStr (u "a")) None (Some [u "x"; u "y"]) None;
         mkq "q1" "free_text" None AnsAbsent None None None ] |}.

(** A state with the fields the handlers assign set anew. *)
Definition state_with (st : UserState) (sg : stage) (i : nat) (a : dict str)
    (name group : option str) : UserState :=
  {| us_test_id := us_test_id st; us_test := us_test st;
     us_stage := sg; us_index := i; us_answers := a;
     us_start_time := us_start_time st; us_attempt := us_attempt st;
     us_telegram_id := us_telegram_id st;
     us_student_username := us_student_username st;
     us_student_name := name; us_group := group |}.

(** What [send_question_to_user] sends for a question, and whether it
    returns. *)
Definition sent_for (chat : Z) (q : Question) : list action :=
  match send_question_to_user chat q with Done sent => sent | Fail _ => [] end.

Definition can_send (chat : Z) (q : Question) : bool :=
  match send_question_to_user chat q with Done _ => true | Fail _ => false end.

(** The answers after one text for each question, in order. *)
Definition record_answers (qs : list Question) (texts : list str) (a : dict str)
  : dict str :=
  fold_left (fun d qt => dict_set d (q_id (fst qt)) (strip (snd qt)))
            (combine qs texts) a.

(** The text messages of one student, one after another, up to the
    first exception. *)
Fixpoint feed_texts (ucd : UnicodeData) (json_dumps : dict str -> str) (env : Env)
    (w : World) (chat : Z) (texts : list str) : Reply :=
  match texts with
  | [] => {| rp_world := w; rp_actions := []; rp_error := None |}
  | t :: rest =>
      let r := handle_text_message ucd json_dumps env w chat (Some t) in
      match rp_error r with
      | Some _ => r
      | None =>
          let r' := feed_texts ucd json_dumps env (rp_world r) chat rest in
          {| rp_world := rp_world r';
             rp_actions := rp_actions r ++ rp_actions r';
             rp_error := rp_error r' |}
      end
  end.

(** Every loaded test has a question. *)
Definition tests_nonempty (tests : dict Test) : Prop :=
  forall tid t, dict_get tests tid = Some t -> t_questions t <> [].

(** A computation that does not end with an [IndexError]. *)
Definition no_index {A} (r : outcome A) : Prop := r <> Fail IndexError.

(** A handler that keeps the states in order. *)
Definition keeps_order (r : Reply) : Prop :=
  rp_error r <> Some IndexError /\
  states_ok (w_states (rp_world r)) /\
  (rp_error r = None -> indexes_ok (w_states (rp_world r))).

(** A test whose only question has a list where a letter is expected. *)
Definition misfit_test : Test :=
  {| t_id := u "t8"; t_title := u "Misfit";
     t_questions :=
       [ mkq "q1" "single" None (AnsList [u "a"]) None (Some [u "x"; u "y"]) None ] |}.

(** A student who has chosen the sample test, and the same student after
    the last answer. *)
Definition sample_state : UserState :=
  {| us_test_id := u "t1"; us_test := sample_test; us_stage := GetName;
     us_index := 0; us_answers := []; us_start_time := 0; us_attempt := 1;
     us_telegram_id := 42; us_student_username := u "ann";
     us_student_name := None; us_group := None |}.

Definition answered_state : UserState :=
  state_with sample_state Asking 6 sample_answers (Some (u "Ann Lee")) (Some (u "B-1")).

Definition sample_json_dumps (answers : dict str) : str := u "{}".

Definition sample_env : Env :=
  {| env_tests := [(u "t1", sample_test); (u "t8", misfit_test)];
     env_clock := 0; env_now := u "2024-01-01 00:00:00 UTC";
     env_row_values_ok := true; env_update_ok := true;
     env_append_row_ok := true |}.

Definition sample_world : World :=
  {| w_states := [(7%Z, sample_state)]; w_sheet := None |}.

Definition answered_world : World :=
  {| w_states := [(7%Z, answered_state)];
     w_sheet := Some {| sh_row1 := []; sh_appended := [] |} |}.

(** A student at the only question of [misfit_test]. *)
Definition misfit_state : UserState :=
  {| us_test_id := u "t8"; us_test := misfit_test; us_stage := Asking;
     us_index := 0; us_answers := []; us_start_time := 0;
     us_attempt := 1; us_telegram_id := 42;
     us_student_username := u "ann";
     us_student_name := Some (u "Ann Lee"); us_group := Some (u "B-1") |}.

Definition misfit_world : World :=
  {| w_states := [(7%Z, misfit_state)]; w_sheet := None |}.

(** The fields that go with the type of a question are there, and its
    enumerations have at most 1114015 entries, the last index for which
    [chr(ord('a') + i)] is defined. *)
Definition text_fields_present (q : Question) : Prop :=
  (q_type q = ty_single \/ q_type q = ty_ordering ->
   exists options,
     q_options q = Some options /\ (N.of_nat (List.length options) <= 1114015)%N) /\
  (q_type q = ty_matching ->
   exists items,
     q_left q = Some items /\ (N.of_nat (List.length items) <= 1114015)%N /\
     q_right q <> None) /\
  (q_type q = ty_tf_list -> q_items q <> None).

(** The sample test with the two lists of a matching question added to
    its questions, and a student who has chosen it. *)
Definition with_sides (lefts rights : list str) (q : Question) : Question :=
  {| q_id := q_id q; q_type := q_type q; q_points := q_points q;
     q_answer := q_answer q; q_items := q_items q; q_options := q_options q;
     q_keywords := q_keywords q;
     q_left := Some lefts; q_right := Some rights |}.

Definition shown_test : Test :=
  {| t_id := t_id sample_test; t_title := t_title sample_test;
     t_questions :=
       map (with_sides [u "x"; u "y"; u "z"] [u "p"; u "q"; u "r"; u "s"])
           (t_questions sample_test) |}.

Definition shown_state : UserState :=
  {| us_test_id := u "t1"; us_test := shown_test; us_stage := GetName;
     us_index := 0; us_answers := []; us_start_time := 0; us_attempt := 1;
     us_telegram_id := 42; us_student_username := u "ann";
     us_student_name := None; us_group := None |}.

Definition shown_world : World :=
  {| w_states := [(7%Z, shown_state)]; w_sheet := None |}.

(** A case table whose lower-case forms are never empty and bring in
    no line feed, as those of Unicode. *)
Definition plain_table (ucd : UnicodeData) : Prop :=
  forall c, lower_cp ucd c <> [] /\ (In 10%N (lower_cp ucd c) -> c = 10%N).

(** * Properties *)

(** ** The documented input forms *)

Example ex_match_1 :
  parse_matching_input sample_ucd (u "a-2 b-1 c-4") = [(u "a", 2%Z); (u "b", 1%Z); (u "c", 4%Z)].
Proof. reflexivity. Qed.
Example ex_match_2 :
  parse_matching_input sample_ucd (u "a=2,b=1;c=4") = [(u "a", 2%Z); (u "b", 1%Z); (u "c", 4%Z)].
Proof. reflexivity. Qed.
Example ex_match_3 :
  parse_matching_input sample_ucd (u "a2b1") = [(u "a", 2%Z); (u "b", 1%Z)].
Proof. reflexivity. Qed.
Example ex_tf_1 :
  parse_tf_list_input sample_ucd (u "T T F T") = [u "T"; u "T"; u "F"; u "T"].
Proof. reflexivity. Qed.
Example ex_tf_2 :
  parse_tf_list_input sample_ucd (u "t,t,f,t") = [u "T"; u "T"; u "F"; u "T"].
Proof. reflexivity. Qed.
Example ex_tf_3 :
  parse_tf_list_input sample_ucd (u "TTFT") = [u "T"; u "T"; u "F"; u "T"].
Proof. reflexivity. Qed.

(** ** Rounding *)

Lemma round_half_even_bounds (x : Q) :
  (Qfloor x <= round_half_even x <= Qfloor x + 1)%Z.
Proof.
  unfold round_half_even.
  destruct (Qcompare (x - inject_Z (Qfloor x)) (1 # 2)); try lia.
  destruct (Z.even (Qfloor x)); lia.
Qed.

Lemma round_half_even_inject (z : Z) : round_half_even (inject_Z z) = z.
Proof.
  unfold round_half_even. rewrite Qfloor_Z.
  destruct (Qcompare_spec (inject_Z z - inject_Z z) (1 # 2)) as [H | H | H];
    [exfalso; lra | reflexivity | exfalso; lra].
Qed.

Lemma round_half_even_mono (x y : Q) :
  x <= y -> (round_half_even x <= round_half_even y)%Z.
Proof.
  intros Hxy.
  pose proof (Qfloor_resp_le _ _ Hxy) as Hf.
  destruct (Z.eq_dec (Qfloor x) (Qfloor y)) as [E | NE].
  - unfold round_half_even. rewrite <- E.
    destruct (Qcompare_spec (x - inject_Z (Qfloor x)) (1 # 2)) as [Hx | Hx | Hx];
      destruct (Qcompare_spec (y - inject_Z (Qfloor x)) (1 # 2)) as [Hy | Hy | Hy];
      try destruct (Z.even (Qfloor x)); try lia; exfalso; lra.
  - pose proof (round_half_even_bounds x). pose proof (round_half_even_bounds y). lia.
Qed.


Lemma round2_two_decimals (x : Q) : two_decimals (round2 x).
Proof. exists (round_half_even (x * 100)). reflexivity. Qed.

Lemma hundredths_inject (z : Z) : (z # 100) * 100 == inject_Z z.
Proof. unfold Qeq; simpl. lia. Qed.

Lemma round_half_even_compat (x y : Q) : x == y -> round_half_even x = round_half_even y.
Proof.
  intros H. apply Z.le_antisymm; apply round_half_even_mono; lra.
Qed.

Lemma round2_compat (x y : Q) : x == y -> round2 x = round2 y.
Proof.
  intros H. unfold round2. f_equal. apply round_half_even_compat. lra.
Qed.






(** ** Strings and dictionaries *)

Lemma str_eqb_eq (a b : str) : str_eqb a b = true <-> a = b.
Proof.
  revert b. induction a as [| x a IH]; intros [| y b]; simpl; split; intros H;
    try reflexivity; try discriminate.
  - apply andb_true_iff in H as [Hc Hs]. apply N.eqb_eq in Hc. apply IH in Hs.
    now subst.
  - injection H as -> ->. apply andb_true_iff. split.
    + apply N.eqb_refl.
    + now apply IH.
Qed.

Lemma str_eqb_refl (a : str) : str_eqb a a = true.
Proof. now apply str_eqb_eq. Qed.

Lemma dict_set_fresh {V} (d : dict V) (k : str) (v : V) :
  ~ In k (dict_keys d) -> dict_set d k v = d ++ [(k, v)].
Proof.
  induction d as [| [k' v'] d IH]; simpl; intros H; [reflexivity |].
  destruct (str_eqb k' k) eqn:E.
  - apply str_eqb_eq in E. exfalso. apply H. now left.
  - rewrite IH; [reflexivity |]. intros Hin. apply H. now right.
Qed.

Lemma dict_keys_set {V} (d : dict V) (k : str) (v : V) (x : str) :
  In x (dict_keys (dict_set d k v)) <-> In x (dict_keys d) \/ x = k.
Proof.
  induction d as [| [k' v'] d IH]; simpl.
  - intuition.
  - destruct (str_eqb k' k) eqn:E; simpl.
    + apply str_eqb_eq in E. subst. intuition.
    + rewrite IH. intuition.
Qed.

Lemma dict_get_set_same {V} (d : dict V) (k : str) (v : V) :
  dict_get (dict_set d k v) k = Some v.
Proof.
  induction d as [| [k' v'] d IH]; simpl.
  - now rewrite str_eqb_refl.
  - destruct (str_eqb k' k) eqn:E; simpl; now rewrite E.
Qed.

Lemma dict_get_set_other {V} (d : dict V) (k k0 : str) (v : V) :
  k <> k0 -> dict_get (dict_set d k v) k0 = dict_get d k0.
Proof.
  intros Hne. induction d as [| [k' v'] d IH]; simpl.
  - destruct (str_eqb k k0) eqn:E; [apply str_eqb_eq in E; contradiction | reflexivity].
  - destruct (str_eqb k' k) eqn:E; simpl.
    + apply str_eqb_eq in E. subst k'.
      destruct (str_eqb k k0) eqn:E0; [apply str_eqb_eq in E0; contradiction | reflexivity].
    + now rewrite IH.
Qed.

(** ** The dispatch on the type tag *)

Lemma free_text_not_other (t : str) :
  is_free_text t = true ->
  str_eqb t ty_single = false /\ str_eqb t ty_matching = false /\
  str_eqb t ty_tf_list = false /\ str_eqb t ty_ordering = false.
Proof.
  intros H. repeat split.
  all: destruct (str_eqb t _) eqn:E; [| reflexivity].
  all: apply str_eqb_eq in E; subst t; discriminate H.
Qed.

Ltac case_result :=
  match goal with
  | H : bind ?r _ = Ok _ |- _ =>
      let E := fresh "E" in destruct r eqn:E; simpl in H; [| discriminate H]
  end.

Section GradingFacts.

Variable ucd : UnicodeData.

Lemma grade_question_manual q ans pts raw d m :
  grade_question ucd q ans pts = Ok (raw, d, m) -> m = is_free_text (q_type q).
Proof.
  unfold grade_question. intros H.
  destruct (str_eqb (q_type q) ty_single) eqn:E1.
  { apply str_eqb_eq in E1. rewrite E1. case_result. now inversion H. }
  destruct (str_eqb (q_type q) ty_matching) eqn:E2.
  { apply str_eqb_eq in E2. rewrite E2. repeat case_result. now inversion H. }
  destruct (str_eqb (q_type q) ty_tf_list) eqn:E3.
  { apply str_eqb_eq in E3. rewrite E3. repeat case_result. now inversion H. }
  destruct (str_eqb (q_type q) ty_ordering) eqn:E4.
  { apply str_eqb_eq in E4. rewrite E4. repeat case_result. now inversion H. }
  unfold is_free_text.
  destruct (starts_with ty_free_text (q_type q)).
  - destruct (_ && _); [case_result |]; now inversion H.
  - now inversion H.
Qed.

(** What one iteration does to the accumulator. *)
Lemma grade_step_inv answers st q st' :
  grade_step ucd answers st q = Ok st' ->
  exists raw d,
    grade_question ucd q (answers_get answers (q_id q)) (question_max_points q)
      = Ok (raw, d, is_free_text (q_type q)) /\
    a_total st' = a_total st + round2 raw /\
    a_auto_score st' = a_auto_score st + round2 raw /\
    a_max_total st' = a_max_total st + question_max_points q /\
    a_manual_needed st' = a_manual_needed st || is_free_text (q_type q) /\
    a_per_q_scores st' = dict_set (a_per_q_scores st) (q_id q) (round2 raw) /\
    a_details st' = dict_set (a_details st) (q_id q) d.
Proof.
  unfold grade_step. intros H. case_result.
  destruct a as [[raw d] m]. inversion H; subst; clear H. simpl.
  pose proof (grade_question_manual _ _ _ _ _ _ E) as ->.
  exists raw, d. repeat split; assumption || reflexivity.
Qed.

Lemma grade_loop_totals answers qs : forall st st',
  grade_loop ucd answers st qs = Ok st' ->
  a_total st = a_auto_score st -> a_total st' = a_auto_score st'.
Proof.
  induction qs as [| q qs IH]; simpl; intros st st' H Heq.
  - now inversion H; subst.
  - case_result. apply grade_step_inv in E as (raw & d & _ & Ht & Ha & _).
    apply (IH _ _ H). now rewrite Ht, Ha, Heq.
Qed.

Lemma grade_loop_manual answers qs : forall st st',
  grade_loop ucd answers st qs = Ok st' ->
  a_manual_needed st' =
  a_manual_needed st || existsb (fun q => is_free_text (q_type q)) qs.
Proof.
  induction qs as [| q qs IH]; simpl; intros st st' H.
  - inversion H; subst. now rewrite orb_false_r.
  - case_result. apply grade_step_inv in E as (raw & d & _ & _ & _ & _ & Hm & _).
    rewrite (IH _ _ H), Hm. now rewrite orb_assoc.
Qed.

Lemma grade_loop_two_decimals answers qs : forall st st',
  grade_loop ucd answers st qs = Ok st' ->
  Forall two_decimals (dict_values (a_per_q_scores st)) ->
  Forall two_decimals (dict_values (a_per_q_scores st')).
Proof.
  induction qs as [| q qs IH]; simpl; intros st st' H Hall.
  - now inversion H; subst.
  - case_result. apply grade_step_inv in E as (raw & d & _ & _ & _ & _ & _ & Hp & _).
    apply (IH _ _ H). rewrite Hp. clear - Hall.
    induction (a_per_q_scores st) as [| [k v] l IHl]; simpl in *.
    + constructor; [apply round2_two_decimals | constructor].
    + inversion Hall; subst.
      destruct (str_eqb k (q_id q)); simpl; constructor; auto.
      apply round2_two_decimals.
Qed.

Lemma grade_loop_sum answers qs : forall st st',
  grade_loop ucd answers st qs = Ok st' ->
  NoDup (map q_id qs) ->
  (forall q, In q qs -> ~ In (q_id q) (dict_keys (a_per_q_scores st))) ->
  a_total st = sum_values (a_per_q_scores st) ->
  a_total st' = sum_values (a_per_q_scores st').
Proof.
  induction qs as [| q qs IH]; simpl; intros st st' H Hnd Hfresh Hsum.
  - now inversion H; subst.
  - case_result. apply grade_step_inv in E as (raw & d & _ & Ht & _ & _ & _ & Hp & _).
    inversion Hnd as [| ? ? Hq Hnd']; subst.
    apply (IH _ _ H Hnd').
    + intros q' Hin Hk. rewrite Hp in Hk. apply dict_keys_set in Hk as [Hk | Hk].
      * apply (Hfresh q'); auto.
      * apply Hq. rewrite <- Hk. now apply in_map.
    + rewrite Ht, Hp, Hsum. rewrite dict_set_fresh by (apply Hfresh; now left).
      unfold sum_values, dict_values. rewrite map_app, fold_left_app. reflexivity.
Qed.

End GradingFacts.

(** ** Well-typed tests are graded without an exception *)

Lemma py_div_max (x : Q) (n : Z) :
  py_div x (inject_Z (Z.max 1 n)) = Ok (x / inject_Z (Z.max 1 n)).
Proof.
  unfold py_div.
  destruct (Qeq_bool (inject_Z (Z.max 1 n)) 0) eqn:E; [| reflexivity].
  apply Qeq_bool_iff in E. unfold Qeq in E. simpl in E. lia.
Qed.

Lemma py_div_pos (x : Q) (n : Z) :
  (0 < n)%Z -> py_div x (inject_Z n) = Ok (x / inject_Z n).
Proof.
  intros Hn. unfold py_div.
  destruct (Qeq_bool (inject_Z n) 0) eqn:E; [| reflexivity].
  apply Qeq_bool_iff in E. unfold Qeq in E. simpl in E. lia.
Qed.

Lemma partial_score_ok (matched : Z) (pts : Q) (n : Z) :
  partial_score matched pts n = Ok (inject_Z matched * (pts / inject_Z (Z.max 1 n))).
Proof. unfold partial_score. now rewrite py_div_max. Qed.

Lemma len_pos_of_nonempty {A} (l : list A) :
  negb (Nat.eqb (List.length l) 0) = true -> (0 < len l)%Z.
Proof. destruct l; simpl; [discriminate | unfold len; simpl; lia]. Qed.

Section Totality.

Variable ucd : UnicodeData.

Lemma grade_question_total q ans pts :
  answer_fits q = true -> exists g, grade_question ucd q ans pts = Ok g.
Proof.
  unfold answer_fits, grade_question. intros H.
  destruct (str_eqb (q_type q) ty_single).
  { destruct (q_answer q) as [| s | [| ? ?] | [| ? ?]]; try discriminate H;
      simpl; eexists; reflexivity. }
  destruct (str_eqb (q_type q) ty_matching).
  { destruct (q_answer q); try discriminate H; cbn [answer_items bind];
      rewrite partial_score_ok; cbn [bind]; eexists; reflexivity. }
  destruct (str_eqb (q_type q) ty_tf_list).
  { rewrite partial_score_ok; cbn [bind]; eexists; reflexivity. }
  destruct (str_eqb (q_type q) ty_ordering).
  { rewrite partial_score_ok; cbn [bind]; eexists; reflexivity. }
  destruct (starts_with ty_free_text (q_type q)); [| eexists; reflexivity].
  match goal with |- context [negb (Nat.eqb (List.length ?k) 0)] => set (kws := k) end.
  destruct (is_nonempty (strip ans)); simpl; [| eexists; reflexivity].
  destruct (negb (Nat.eqb (List.length kws) 0)) eqn:E; [| eexists; reflexivity].
  rewrite py_div_pos by now apply len_pos_of_nonempty.
  simpl. eexists; reflexivity.
Qed.

Lemma grade_loop_total answers qs : forall st,
  forallb answer_fits qs = true -> exists st', grade_loop ucd answers st qs = Ok st'.
Proof.
  induction qs as [| q qs IH]; simpl; intros st H.
  - eexists; reflexivity.
  - apply andb_true_iff in H as [Hq Hqs].
    unfold grade_step.
    destruct (grade_question_total q (answers_get answers (q_id q))
                (question_max_points q) Hq) as [[[raw d] m] ->].
    simpl. now apply IH.
Qed.

(** No student input makes the grading of a well-typed test raise. *)
Lemma grade_answers_total test answers :
  forallb answer_fits (t_questions test) = true ->
  exists r, grade_answers ucd test answers = Ok r.
Proof.
  intros H. unfold grade_answers.
  destruct (grade_loop_total answers (t_questions test) acc0 H) as [st ->].
  simpl. eexists; reflexivity.
Qed.

End Totality.

(** ** C1 *)

(** C1.  For every test (question ids are unique within a test, as the
    data model has it) and every raw answer map, the total score and
    [auto_score] of the grading result are equal, every entry of
    [per_q_scores] has at most two decimals, and the total is the sum of
    the entries of [per_q_scores], rounded to two decimals. *)
Theorem C1_total_auto_sum (ucd : UnicodeData) (test : Test) (answers : dict str)
    (r : GradingResult) :
  NoDup (map q_id (t_questions test)) ->
  grade_answers ucd test answers = Ok r ->
  score r = auto_score r /\
  auto_score r = round2 (sum_values (per_q_scores r)) /\
  Forall two_decimals (dict_values (per_q_scores r)).
Proof.
  unfold grade_answers. intros Hnd H. case_result. inversion H; subst; clear H. simpl.
  pose proof (grade_loop_totals ucd _ _ _ _ E eq_refl) as Hta.
  pose proof (grade_loop_sum ucd _ _ _ _ E Hnd (fun _ _ F => F) eq_refl) as Hsum.
  pose proof (grade_loop_two_decimals ucd _ _ _ _ E (Forall_nil _)) as H2.
  repeat split; [now rewrite Hta | now rewrite <- Hta, Hsum | exact H2].
Qed.

Lemma sample_test_ids_nodup : NoDup (map q_id (t_questions sample_test)).
Proof.
  repeat constructor; simpl; intros H;
    repeat (destruct H as [H | H]; [discriminate H |]); exact H.
Qed.

Lemma sample_graded :
  grade_answers sample_ucd sample_test sample_answers = Ok sample_result.
Proof. vm_compute. reflexivity. Qed.

Lemma C1_total_auto_sum_witness :
  score sample_result = auto_score sample_result /\
  auto_score sample_result = round2 (sum_values (per_q_scores sample_result)) /\
  Forall two_decimals (dict_values (per_q_scores sample_result)).
Proof.
  exact (C1_total_auto_sum sample_ucd sample_test sample_answers sample_result
           sample_test_ids_nodup sample_graded).
Defined.

(** ** C3 *)

(** C3.  The [manual_needed] flag of a grading result is true exactly
    when some question of the test has a type tag of the free_text
    family; keywords and student answers play no part, and a question of
    an unrecognised type does not set it. *)
Theorem C3_manual_needed_iff (ucd : UnicodeData) (test : Test) (answers : dict str)
    (r : GradingResult) :
  grade_answers ucd test answers = Ok r ->
  manual_needed r = existsb (fun q => is_free_text (q_type q)) (t_questions test) /\
  (manual_needed r = true <->
   exists q, In q (t_questions test) /\ is_free_text (q_type q) = true) /\
  (Forall (fun q => is_unrecognized (q_type q) = true) (t_questions test) ->
   manual_needed r = false).
Proof.
  unfold grade_answers. intros H. case_result. inversion H; subst; clear H. simpl.
  pose proof (grade_loop_manual ucd _ _ _ _ E) as Hm. simpl in Hm.
  split; [exact Hm |]. rewrite Hm. split.
  - apply existsb_exists.
  - intros Hall. destruct (existsb _ _) eqn:Ex; [| reflexivity].
    apply existsb_exists in Ex as (q & Hin & Hq).
    rewrite Forall_forall in Hall. specialize (Hall q Hin).
    unfold is_unrecognized in Hall. rewrite Hq in Hall. simpl in Hall.
    now rewrite andb_false_r in Hall.
Qed.

Lemma C3_manual_needed_iff_witness :
  manual_needed sample_result
  = existsb (fun q => is_free_text (q_type q)) (t_questions sample_test) /\
  (manual_needed sample_result = true <->
   exists q, In q (t_questions sample_test) /\ is_free_text (q_type q) = true) /\
  (Forall (fun q => is_unrecognized (q_type q) = true) (t_questions sample_test) ->
   manual_needed sample_result = false).
Proof.
  exact (C3_manual_needed_iff sample_ucd sample_test sample_answers sample_result
           sample_graded).
Defined.

(** ** C4: the colon in a matching answer *)

Lemma replace_colon_twice (s : str) :
  replace 58%N 32%N (replace 44%N 32%N (replace 59%N 32%N (replace 58%N 32%N s)))
  = replace 58%N 32%N (replace 44%N 32%N (replace 59%N 32%N s)).
Proof.
  unfold replace. rewrite !map_map. apply map_ext. intros c.
  unfold char_eqb.
  destruct (N.eqb_spec c 58%N) as [-> | H58]; [reflexivity |].
  reflexivity.
Qed.

(** C4.  The colon is turned into a blank before the input is split, so
    it never reaches the pattern as a joiner: every input is read as the
    same input with blanks for colons.  [a:2 b:1] yields the empty
    mapping, where [a-2 b-1] and [a=2 b=1] yield a to 2 and b to 1. *)
Theorem C4_colon_is_a_separator (ucd : UnicodeData) :
  (forall s, parse_matching_input ucd s = parse_matching_input ucd (replace 58%N 32%N s)) /\
  parse_matching_input ucd (u "a:2 b:1") = [] /\
  parse_matching_input ucd (u "a-2 b-1") = [(u "a", 2%Z); (u "b", 1%Z)] /\
  parse_matching_input ucd (u "a=2 b=1") = [(u "a", 2%Z); (u "b", 1%Z)].
Proof.
  split; [| repeat split; reflexivity].
  intros [| c s]; [reflexivity |].
  unfold parse_matching_input.
  change (replace 58%N 32%N (c :: s)) with
    ((if char_eqb c 58%N then 32%N else c) :: replace 58%N 32%N s).
  cbv iota. change ((if char_eqb c 58%N then 32%N else c) :: replace 58%N 32%N s)
    with (replace 58%N 32%N (c :: s)).
  now rewrite replace_colon_twice.
Qed.

(** ** C10: inputs without ASCII letters *)

Lemma lstrip_incl (s : str) : incl (lstrip s) s.
Proof.
  induction s as [| c s IH]; simpl; [apply incl_refl |].
  destruct (isspace c); [now apply incl_tl | apply incl_refl].
Qed.

Lemma strip_incl (s : str) : incl (strip s) s.
Proof.
  unfold strip, rstrip. intros c H.
  apply in_rev in H. apply lstrip_incl in H. apply in_rev in H.
  now apply lstrip_incl.
Qed.

Lemma split_on_incl (sep : char) (s p : str) : In p (split_on sep s) -> incl p s.
Proof.
  revert p. induction s as [| c s IH]; simpl; intros p H.
  - destruct H as [<- | []]. apply incl_refl.
  - destruct (char_eqb c sep).
    + destruct H as [<- | H]; [intros x [] | apply incl_tl; now apply IH].
    + destruct (split_on sep s) as [| p0 ps] eqn:E.
      * destruct H as [<- | []]. intros x [-> | []]. now left.
      * destruct H as [<- | H].
        -- intros x [-> | Hx]; [now left | right; apply (IH p0); [now left | exact Hx]].
        -- apply incl_tl. apply IH. now right.
Qed.

Lemma split_ws_aux_incl (s : str) : forall cur p,
  In p (split_ws_aux cur s) -> incl p (rev cur ++ s).
Proof.
  induction s as [| c s IH]; simpl; intros cur p H.
  - destruct cur; [destruct H |]. destruct H as [<- | []].
    rewrite app_nil_r. apply incl_refl.
  - destruct (isspace c).
    + destruct cur as [| x cur].
      * apply IH in H. simpl in *. now apply incl_tl.
      * destruct H as [<- | H].
        -- apply incl_appl, incl_refl.
        -- apply IH in H. simpl in H. apply incl_appr. now apply incl_tl.
    + apply IH in H. simpl in H. now rewrite <- app_assoc in H.
Qed.

Lemma split_ws_incl (s p : str) : In p (split_ws s) -> incl p s.
Proof. intros H. now apply split_ws_aux_incl in H. Qed.

Lemma filter_none {A} (f : A -> bool) (l : list A) :
  (forall x, In x l -> f x = false) -> filter f l = [].
Proof.
  induction l as [| a l IH]; simpl; intros H; [reflexivity |].
  rewrite (H a) by now left. apply IH. intros x Hx. apply H. now right.
Qed.

Lemma count_positions_no_parts (correct : list str) : forall i matched,
  count_positions [] i correct matched = matched.
Proof.
  induction correct as [| e r IH]; simpl; intros i matched; [reflexivity |].
  now rewrite IH.
Qed.

Section NoLetters.

Variable ucd : UnicodeData.

(** A code point of [lower s] is in the lower-case form of a code point
    of [s], or is one of the small sigmas. *)
Lemma lower_from_in (s : str) : forall before d,
  In d (lower_from ucd before s) ->
  (exists c, In c s /\ In d (lower_cp ucd c)) \/ d = 962%N \/ d = 963%N.
Proof.
  induction s as [| c s IH]; intros before d H; [destruct H |].
  cbn [lower_from] in H. apply in_app_or in H as [H | H].
  - destruct (c =? 931)%N.
    + right. destruct (cased_next ucd before && negb (cased_next ucd s));
        destruct H as [<- | []]; auto.
    + left. exists c. split; [now left | exact H].
  - destruct (IH _ _ H) as [(c' & Hc' & Hd) | Hd]; [| now right].
    left. exists c'. split; [now right | exact Hd].
Qed.

Lemma lower_off_az (s : str) :
  Forall (fun c => lowers_off_az ucd c = true) s ->
  forall d, In d (lower ucd s) -> is_lower_az d = false.
Proof.
  intros Hs d Hd. unfold lower in Hd.
  apply lower_from_in in Hd as [(c & Hc & Hd) | [-> | ->]];
    [| reflexivity | reflexivity].
  rewrite Forall_forall in Hs. specialize (Hs c Hc).
  unfold lowers_off_az in Hs. rewrite forallb_forall in Hs.
  specialize (Hs d Hd). now apply negb_true_iff in Hs.
Qed.

Lemma re_az_off (s p : str) :
  Forall (fun c => lowers_off_az ucd c = true) s ->
  incl p s -> re_az (lower ucd p) = false.
Proof.
  intros Hs Hp. destruct (lower ucd p) as [| d rest] eqn:E; [reflexivity |].
  simpl. rewrite (lower_off_az p); [reflexivity | | rewrite E; now left].
  rewrite Forall_forall in *. intros c Hc. apply Hs. now apply Hp.
Qed.

Lemma parse_ordering_input_off_az (s : str) :
  Forall (fun c => lowers_off_az ucd c = true) s -> parse_ordering_input ucd s = [].
Proof.
  intros Hs. unfold parse_ordering_input. destruct s as [| c0 s0]; [reflexivity |].
  set (s := c0 :: s0) in *. apply filter_none. intros p Hp.
  destruct (existsb (fun c => c =? 44)%N (strip s)).
  - apply in_map_iff in Hp as (t & <- & Ht). apply filter_In in Ht as [Ht _].
    apply (re_az_off s); [exact Hs |].
    eapply incl_tran; [apply strip_incl |].
    eapply incl_tran; [apply (split_on_incl _ _ _ Ht) | apply strip_incl].
  - destruct (existsb isspace (strip s)).
    + apply in_map_iff in Hp as (t & <- & Ht). apply filter_In in Ht as [Ht _].
      apply (re_az_off s); [exact Hs |].
      eapply incl_tran; [apply strip_incl |].
      eapply incl_tran; [apply (split_ws_incl _ _ Ht) | apply strip_incl].
    + apply in_map_iff in Hp as (d & <- & Hd). simpl.
      rewrite (lower_off_az (strip s)); [reflexivity | | exact Hd].
      rewrite Forall_forall in *. intros c Hc. apply Hs. now apply strip_incl.
Qed.

End NoLetters.

Ltac split_leb :=
  repeat match goal with
         | |- context [N.leb ?a ?b] => destruct (N.leb_spec a b)
         | |- context [N.ltb ?a ?b] => destruct (N.ltb_spec a b)
         | |- context [N.eqb ?a ?b] => destruct (N.eqb_spec a b)
         end.

(** On ASCII the code points in question are those that are not
    letters. *)
Lemma lowers_off_az_ascii (ucd : UnicodeData) (c : char) :
  is_ascii c = true -> lowers_off_az ucd c = negb (is_ascii_letter c).
Proof.
  unfold lowers_off_az, lower_cp. intros ->.
  unfold is_ascii_letter, is_upper_AZ, is_lower_az, between. cbn [forallb].
  destruct (N.leb_spec 65 c); destruct (N.leb_spec c 90); cbn [andb orb negb];
    split_leb; cbn [andb orb negb]; try reflexivity; exfalso; lia.
Qed.

(** Under a table with the Cyrillic case pairs, so are the Cyrillic
    letters U+0400 to U+045F. *)
Lemma lowers_off_az_cyrillic (c : char) :
  between 1024%N 1119%N c = true -> lowers_off_az sample_ucd c = true.
Proof.
  unfold lowers_off_az, lower_cp, is_ascii, between. intros H.
  apply andb_true_iff in H as [H1 H2]. apply N.leb_le in H1, H2.
  destruct (N.ltb_spec c 128); [exfalso; lia |].
  unfold sample_ucd, ucd_lower, between, is_lower_az, between.
  repeat (split_leb; cbn [andb orb negb forallb]);
    try reflexivity; exfalso; lia.
Qed.

(** What the pattern for one letter a to z accepts: the letter, with a
    line feed after it or not. *)
Lemma re_az_shape (p : str) :
  re_az p = true ->
  exists c, is_lower_az c = true /\ (p = [c] \/ p = [c; 10%N]).
Proof.
  destruct p as [| c [| d [| e r]]]; cbn [re_az at_dollar]; intros H;
    try discriminate H.
  - exists c. rewrite andb_true_r in H. split; [exact H | now left].
  - apply andb_true_iff in H as [Hc Hd]. apply N.eqb_eq in Hd. subst d.
    exists c. split; [exact Hc | now right].
  - rewrite andb_false_r in H. discriminate H.
Qed.

Lemma lstrip_head (s : str) (c : char) (r : str) :
  lstrip s = c :: r -> isspace c = false.
Proof.
  induction s as [| x s IH]; cbn [lstrip]; intros H; [discriminate H |].
  destruct (isspace x) eqn:E; [now apply IH |]. now inversion H; subst.
Qed.

Lemma strip_last (s m : str) (b : char) :
  strip s = m ++ [b] -> isspace b = false.
Proof.
  unfold strip, rstrip. intros H.
  apply (f_equal (@rev char)) in H. rewrite rev_involutive, rev_app_distr in H.
  cbn [rev app] in H. exact (lstrip_head _ _ _ H).
Qed.

Lemma lower_from_last (ucd : UnicodeData) (m : str) (b : char) : forall before,
  exists x,
    lower_from ucd before (m ++ [b])
    = x ++ (if (b =? 931)%N
            then [if cased_next ucd (rev m ++ before) && negb (cased_next ucd [])
                  then 962%N else 963%N]
            else lower_cp ucd b).
Proof.
  induction m as [| c m IH]; intros before.
  - exists []. cbn [app lower_from rev]. now rewrite app_nil_r.
  - destruct (IH (c :: before)) as [x Hx]. cbn [app lower_from rev].
    rewrite Hx, <- app_assoc. cbn [app]. eexists. rewrite app_assoc. reflexivity.
Qed.

Lemma lower_last (ucd : UnicodeData) (m l : str) (b : char) :
  plain_table ucd -> lower ucd (m ++ [b]) = l ++ [10%N] -> b = 10%N.
Proof.
  intros Hp H. unfold lower in H.
  destruct (lower_from_last ucd m b []) as [x Hx]. rewrite Hx in H. clear Hx.
  destruct (b =? 931)%N.
  - exfalso. apply app_inj_tail in H as [_ H].
    destruct (cased_next ucd (rev m ++ []) && negb (cased_next ucd []));
      discriminate H.
  - destruct (Hp b) as [Hne H10].
    destruct (exists_last Hne) as (l' & z & E). rewrite E, app_assoc in H.
    apply app_inj_tail in H as [_ ->]. apply H10. rewrite E.
    apply in_or_app. right. now left.
Qed.

Lemma stripped_token_no_feed (ucd : UnicodeData) (t : str) (c : char) :
  plain_table ucd -> is_nonempty (strip t) = true ->
  lower ucd (strip t) <> [c; 10%N].
Proof.
  intros Hp Hne F.
  destruct (strip t) as [| x r] eqn:E; [discriminate Hne |].
  destruct (@exists_last _ (x :: r) ltac:(discriminate)) as (m & b & Em).
  rewrite Em in F, E.
  assert (Hb : b = 10%N) by (apply (lower_last ucd m [c] b Hp); exact F).
  pose proof (strip_last t m b E) as Hs. rewrite Hb in Hs. discriminate Hs.
Qed.

Lemma parse_ordering_tokens (ucd : UnicodeData) (s : str) :
  Forall (fun p => re_az p = true) (parse_ordering_input ucd s).
Proof.
  apply Forall_forall. intros p Hp. unfold parse_ordering_input in Hp.
  destruct s; [destruct Hp |]. now apply filter_In in Hp.
Qed.

Lemma parse_ordering_single_letters (ucd : UnicodeData) (s : str) :
  plain_table ucd ->
  Forall (fun p => exists c, p = [c] /\ is_lower_az c = true)
         (parse_ordering_input ucd s).
Proof.
  intros Hplain. apply Forall_forall. intros p Hp.
  unfold parse_ordering_input in Hp. destruct s as [| c0 s0]; [destruct Hp |].
  apply filter_In in Hp as [Hin Hre].
  destruct (re_az_shape p Hre) as (c & Hc & [-> | ->]); [now exists c |].
  exfalso.
  destruct (existsb (fun c => c =? 44)%N (strip (c0 :: s0))).
  - apply in_map_iff in Hin as (t & Ht & Hf). apply filter_In in Hf as [_ Hne].
    exact (stripped_token_no_feed ucd t c Hplain Hne Ht).
  - destruct (existsb isspace (strip (c0 :: s0))).
    + apply in_map_iff in Hin as (t & Ht & Hf). apply filter_In in Hf as [_ Hne].
      exact (stripped_token_no_feed ucd t c Hplain Hne Ht).
    + apply in_map_iff in Hin as (d & Hd & _). discriminate Hd.
Qed.

Lemma sample_table_plain : plain_table sample_ucd.
Proof.
  intros c. unfold lower_cp, is_ascii.
  destruct (N.ltb_spec c 128) as [Hlt | Hge].
  - split; [discriminate |].
    intros [H | []]. destruct (is_upper_AZ c) eqn:E; [| now symmetry].
    unfold is_upper_AZ, between in E. apply andb_true_iff in E as [E1 E2].
    apply N.leb_le in E1, E2. lia.
  - unfold sample_ucd, ucd_lower, between.
    repeat match goal with
           | |- context [if ?b then _ else _] => destruct b eqn:?
           end;
      (split; [discriminate |]); cbn [In]; intros H;
      repeat match goal with
             | H : _ \/ _ |- _ => destruct H as [H | H]
             | H : False |- _ => destruct H
             end; try lia;
      repeat match goal with
             | E : (_ && _)%bool = true |- _ => apply andb_true_iff in E as [? ?]
             | E : (_ <=? _)%N = true |- _ => apply N.leb_le in E
             | E : (_ =? _)%N = true |- _ => apply N.eqb_eq in E
             end; lia.
Qed.

(** C10.  For every input, every token [parse_ordering_input] returns
    matches the pattern for one letter a to z; under a case table whose
    lower-case forms are never empty and have no line feed, as Unicode's
    are, every token is exactly one letter a to z.  An input made only of
    code points whose lowercase form has no ASCII letter (digits,
    Cyrillic and other non-Latin letters) is read as the empty sequence,
    and an ordering question answered that way is graded without an
    exception, with no position matched and the score 0. *)
Theorem C10_ordering_without_ascii_letters (ucd : UnicodeData) (s : str) :
  Forall (fun p => re_az p = true) (parse_ordering_input ucd s) /\
  (plain_table ucd ->
   Forall (fun p => exists c, p = [c] /\ is_lower_az c = true)
          (parse_ordering_input ucd s)) /\
  (Forall (fun c => lowers_off_az ucd c = true) s ->
   parse_ordering_input ucd s = [] /\
   forall q pts, q_type q = ty_ordering ->
     exists raw correct,
       grade_question ucd q s pts
         = Ok (raw, DOrdering [] correct 0 (len correct) (round2 raw), false) /\
       round2 raw == 0).
Proof.
  split; [apply parse_ordering_tokens |].
  split; [apply parse_ordering_single_letters |].
  intros Hs. pose proof (parse_ordering_input_off_az ucd s Hs) as Hp.
  split; [exact Hp |].
  intros q pts Hq. unfold grade_question. rewrite Hq. cbn [str_eqb].
  change (str_eqb ty_ordering ty_single) with false.
  change (str_eqb ty_ordering ty_matching) with false.
  change (str_eqb ty_ordering ty_tf_list) with false.
  change (str_eqb ty_ordering ty_ordering) with true.
  cbv iota. rewrite Hp, count_positions_no_parts, partial_score_ok. cbn [bind].
  eexists. eexists. split; [reflexivity |].
  rewrite (round2_compat _ 0) by apply Qmult_0_l. reflexivity.
Qed.

(** A Cyrillic answer with digits, and an answer of which only the
    letters a to z remain. *)
Lemma C10_ordering_without_ascii_letters_witness :
  Forall (fun c => lowers_off_az sample_ucd c = true) cyrillic_answer /\
  parse_ordering_input sample_ucd cyrillic_answer = [] /\
  Forall (fun p => exists c, p = [c] /\ is_lower_az c = true)
         (parse_ordering_input sample_ucd (u "b, 1, ab, C, d2")).
Proof.
  assert (H : Forall (fun c => lowers_off_az sample_ucd c = true) cyrillic_answer)
    by (repeat constructor).
  split; [exact H |]. split.
  - exact (proj1 (proj2 (proj2
             (C10_ordering_without_ascii_letters sample_ucd cyrillic_answer)) H)).
  - exact (proj1 (proj2
             (C10_ordering_without_ascii_letters sample_ucd (u "b, 1, ab, C, d2")))
             sample_table_plain).
Defined.

(** ** C7: empty answer keys *)

(** C7.  A matching, tf_list or ordering question whose answer key has
    no expected item is graded without an exception: the divisor is
    [max(1, 0) = 1], nothing is matched, and the score is 0 whatever
    the student wrote and whatever the maximum of the question is. *)
Theorem C7_empty_answer_key (ucd : UnicodeData) (q : Question) (ans : str) (pts : Q) :
  (q_type q = ty_matching /\ answer_items (q_answer q) = Ok []) \/
  ((q_type q = ty_tf_list \/ q_type q = ty_ordering) /\ answer_seq (q_answer q) = []) ->
  py_div pts (inject_Z (Z.max 1 0)) = Ok (pts / 1) /\
  exists raw d,
    grade_question ucd q ans pts = Ok (raw, d, false) /\
    raw = inject_Z 0 * (pts / 1) /\ round2 raw == 0.
Proof.
  intros H. split; [reflexivity |].
  assert (Hz : round2 (inject_Z 0 * (pts / 1)) == 0)
    by (rewrite (round2_compat _ 0) by apply Qmult_0_l; reflexivity).
  unfold grade_question.
  destruct H as [[Ht Ha] | [[Ht | Ht] Ha]]; rewrite Ht.
  - change (str_eqb ty_matching ty_single) with false.
    change (str_eqb ty_matching ty_matching) with true.
    cbv iota. rewrite Ha. cbn [bind correct_map_of fold_left count_pairs].
    rewrite partial_score_ok. cbn [bind].
    eexists. eexists. split; [reflexivity |]. split; [reflexivity | exact Hz].
  - change (str_eqb ty_tf_list ty_single) with false.
    change (str_eqb ty_tf_list ty_matching) with false.
    change (str_eqb ty_tf_list ty_tf_list) with true.
    cbv iota. rewrite Ha. cbn [map count_positions].
    rewrite partial_score_ok. cbn [bind].
    eexists. eexists. split; [reflexivity |]. split; [reflexivity | exact Hz].
  - change (str_eqb ty_ordering ty_single) with false.
    change (str_eqb ty_ordering ty_matching) with false.
    change (str_eqb ty_ordering ty_tf_list) with false.
    change (str_eqb ty_ordering ty_ordering) with true.
    cbv iota. rewrite Ha. cbn [map count_positions].
    rewrite partial_score_ok. cbn [bind].
    eexists. eexists. split; [reflexivity |]. split; [reflexivity | exact Hz].
Qed.

Lemma C7_empty_answer_key_witness :
  (exists raw d,
     grade_question sample_ucd (mkq "m" "matching" (Some 3) (AnsMap []) None None None)
       (u "a-1 b-2") 3 = Ok (raw, d, false) /\
     raw = inject_Z 0 * (3 / 1) /\ round2 raw == 0) /\
  exists r, grade_answers sample_ucd empty_key_test
              [(u "m", u "a-1 b-2"); (u "t", u "TF"); (u "o", u "ab")] = Ok r /\
            per_q_scores r = [(u "m", 0 # 100); (u "t", 0 # 100); (u "o", 0 # 100)].
Proof.
  split.
  - apply (C7_empty_answer_key sample_ucd
             (mkq "m" "matching" (Some 3) (AnsMap []) None None None) (u "a-1 b-2") 3).
    left. split; reflexivity.
  - eexists. split; vm_compute; reflexivity.
Defined.

(** ** C6: positional comparison *)

Lemma nth_skipn_head (parts : list str) (i : nat) :
  (i < List.length parts)%nat ->
  skipn i parts = nth i parts [] :: skipn (S i) parts.
Proof.
  revert i. induction parts as [| p ps IH]; intros i H; simpl in H; [lia |].
  destruct i as [| i]; [reflexivity |].
  simpl. apply IH. lia.
Qed.

Lemma count_positions_spec (parts correct : list str) : forall i matched,
  count_positions parts i correct matched
  = (matched + positional_matches correct (skipn i parts))%Z.
Proof.
  induction correct as [| e es IH]; intros i matched; simpl.
  - lia.
  - rewrite IH. destruct (Nat.ltb_spec i (List.length parts)) as [Hlt | Hge].
    + rewrite (nth_skipn_head parts i Hlt). simpl.
      destruct (str_eqb (nth i parts []) e); lia.
    + rewrite (skipn_all2 parts) by lia.
      rewrite (skipn_all2 parts) by lia. simpl.
      destruct es; simpl; lia.
Qed.

Lemma positional_matches_le_parts (expected parts : list str) :
  (positional_matches expected parts <= len parts)%Z.
Proof.
  unfold len. revert parts.
  induction expected as [| e es IH]; intros [| p ps]; simpl List.length;
    cbn [positional_matches]; try lia.
  specialize (IH ps). destruct (str_eqb p e); lia.
Qed.

(** C6.  A tf_list question is scored by positional comparison of the
    parsed student sequence with the expected one, upper-cased: the
    score before rounding is the number of positional matches times
    [pts / max(1, N)]; a student sequence shorter than [N] loses the
    missing positions, so there are no more matches than student
    values; the detail entry carries the rounded score.
    Expected T F T against the input TFF matches positions 0 and 1,
    hence [2 * (pts / 3)]. *)
Theorem C6_tf_list_positional (ucd : UnicodeData) (q : Question) (ans : str) (pts : Q) :
  q_type q = ty_tf_list ->
  let correct := map (upper ucd) (answer_seq (q_answer q)) in
  let parts := parse_tf_list_input ucd ans in
  let matched := positional_matches correct parts in
  let raw := inject_Z matched * (pts / inject_Z (Z.max 1 (len correct))) in
  grade_question ucd q ans pts
    = Ok (raw, DTfList parts correct matched (len correct) (round2 raw), false) /\
  (matched <= len parts)%Z /\
  (q_answer q = AnsList [u "T"; u "F"; u "T"] -> ans = u "TFF" ->
   matched = 2%Z /\ raw = inject_Z 2 * (pts / inject_Z 3)).
Proof.
  intros Ht correct parts matched raw. split; [| split].
  - unfold grade_question. rewrite Ht.
    change (str_eqb ty_tf_list ty_single) with false.
    change (str_eqb ty_tf_list ty_matching) with false.
    change (str_eqb ty_tf_list ty_tf_list) with true.
    cbv iota. rewrite partial_score_ok. cbn [bind].
    rewrite count_positions_spec. reflexivity.
  - apply positional_matches_le_parts.
  - intros Ha Hs. subst raw matched correct parts. rewrite Ha, Hs. split; reflexivity.
Qed.

Lemma C6_tf_list_positional_witness :
  grade_question sample_ucd
    (mkq "q3" "tf_list" None (AnsList [u "T"; u "F"; u "T"])
         (Some [u "x"; u "y"; u "z"]) None None) (u "TFF") 3
  = Ok (inject_Z 2 * (3 / inject_Z 3),
        DTfList [u "T"; u "F"; u "F"] [u "T"; u "F"; u "T"] 2 3 (200 # 100), false).
Proof.
  exact (proj1 (C6_tf_list_positional sample_ucd
    (mkq "q3" "tf_list" None (AnsList [u "T"; u "F"; u "T"])
         (Some [u "x"; u "y"; u "z"]) None None) (u "TFF") 3 eq_refl)).
Defined.

(** ** Bounds on the score of one question *)



Lemma count_found (f : str -> bool) (kws : list str) : forall m : Z,
  fold_left (fun found kw => if f kw then found + 1 else found)%Z kws m
  = (m + len (filter f kws))%Z.
Proof.
  unfold len. induction kws as [| k kws IH]; intros m; simpl.
  - lia.
  - rewrite IH. destruct (f k); simpl List.length; lia.
Qed.






Section Bounds.

Variable ucd : UnicodeData.


(** Later iterations leave the entries of other questions alone. *)
Lemma grade_loop_keeps answers qs : forall st st' k,
  grade_loop ucd answers st qs = Ok st' ->
  ~ In k (map q_id qs) ->
  dict_get (a_per_q_scores st') k = dict_get (a_per_q_scores st) k /\
  dict_get (a_details st') k = dict_get (a_details st) k.
Proof.
  induction qs as [| q qs IH]; simpl; intros st st' k H Hk.
  - now inversion H; subst.
  - case_result. apply grade_step_inv in E as (raw & d & _ & _ & _ & _ & _ & Hp & Hd).
    destruct (IH _ _ k H) as [IH1 IH2]; [tauto |].
    rewrite IH1, IH2, Hp, Hd.
    split; apply dict_get_set_other; intros F; apply Hk; now left.
Qed.

(** With unique ids, the entry of a question is what its own iteration
    stored. *)
Lemma grade_loop_lookup answers qs : forall st st' q,
  grade_loop ucd answers st qs = Ok st' ->
  NoDup (map q_id qs) -> In q qs ->
  exists raw d,
    grade_question ucd q (answers_get answers (q_id q)) (question_max_points q)
      = Ok (raw, d, is_free_text (q_type q)) /\
    dict_get (a_per_q_scores st') (q_id q) = Some (round2 raw) /\
    dict_get (a_details st') (q_id q) = Some d.
Proof.
  induction qs as [| q0 qs IH]; simpl; intros st st' q H Hnd Hin; [destruct Hin |].
  case_result. inversion Hnd as [| ? ? Hq0 Hnd']; subst.
  destruct Hin as [-> | Hin].
  - apply grade_step_inv in E as (raw & d & Hg & _ & _ & _ & _ & Hp & Hd).
    exists raw, d. split; [exact Hg |].
    destruct (grade_loop_keeps _ _ _ _ (q_id q) H Hq0) as [K1 K2].
    rewrite K1, K2, Hp, Hd. split; apply dict_get_set_same.
  - now apply (IH a st' q H Hnd').
Qed.

End Bounds.

(** ** C2 *)




(** ** C9: questions of an unrecognised type *)




Section Gap.

Variable ucd : UnicodeData.



End Gap.





(** ** C5: the keyword estimate of free-text questions *)

Lemma round2_idem (x : Q) : round2 (round2 x) = round2 x.
Proof.
  unfold round2 at 1 3. f_equal.
  rewrite (round_half_even_compat _ (inject_Z (round_half_even (x * 100)))).
  - apply round_half_even_inject.
  - apply hundredths_inject.
Qed.

Lemma len_filter_map {A B} (f : B -> bool) (g : A -> B) (l : list A) :
  len (filter f (map g l)) = len (filter (fun a => f (g a)) l).
Proof.
  unfold len. f_equal. induction l as [| a l IH]; simpl; [reflexivity |].
  destruct (f (g a)); simpl; now rewrite IH.
Qed.

Lemma len_map {A B} (g : A -> B) (l : list A) : len (map g l) = len l.
Proof. unfold len. now rewrite length_map. Qed.

Lemma is_nonempty_true (s : str) : is_nonempty s = true <-> s <> [].
Proof. destruct s; simpl; split; congruence. Qed.

(** C5, as stated, fails on a student answer that is not empty but
    blank: the answer is one space, the keyword list is not empty and
    its keyword is found in the answer, so the formula of the claim
    gives 2, and the code gives 0 with zero keywords found. *)
Lemma C5_blank_answer_scores_zero :
  exists r s d,
    grade_answers sample_ucd empty_keyword_test [(u "q1", u " ")] = Ok r /\
    is_free_text (q_type empty_keyword_question) = true /\
    opt_list (q_keywords empty_keyword_question) <> [] /\
    u " " <> [] /\
    dict_get (per_q_scores r) (u "q1") = Some s /\
    dict_get (details r) (u "q1") = Some d /\
    d = DFreeText (u "free_text") (u " ") 0 1 0 /\
    s == 0 /\
    keyword_score sample_ucd (question_max_points empty_keyword_question)
      [[]] (u " ") == 2 /\
    ~ (s == keyword_score sample_ucd (question_max_points empty_keyword_question)
              [[]] (u " ")).
Proof.
  eexists. eexists. eexists.
  split; [vm_compute; reflexivity |]. split; [reflexivity |].
  split; [discriminate |]. split; [discriminate |].
  split; [vm_compute; reflexivity |]. split; [vm_compute; reflexivity |].
  split; [reflexivity |]. split; [reflexivity |]. split; [reflexivity |].
  intros H. vm_compute in H. discriminate H.
Qed.

(** C5, amended.  For a question of the free_text family: if the
    keyword list is not empty and the student answer has a character
    that is not white space, the score is
    [min(pts, pts * found / total)] rounded to two decimals, where
    [found] counts the keywords found by case-insensitive substring
    search; if there is no keyword, or the answer is empty or all white
    space, the score is 0 and the detail entry records zero keywords
    found. *)
Theorem C5_free_text_keyword_score (ucd : UnicodeData) (q : Question) (ans : str)
    (pts : Q) :
  is_free_text (q_type q) = true ->
  let kws := opt_list (q_keywords q) in
  (kws <> [] -> strip ans <> [] ->
   grade_question ucd q ans pts
     = Ok (keyword_score ucd pts kws ans,
           DFreeText (q_type q) ans (keywords_found ucd kws ans) (len kws)
             (keyword_score ucd pts kws ans),
           true) /\
   round2 (keyword_score ucd pts kws ans) = keyword_score ucd pts kws ans) /\
  (kws = [] \/ strip ans = [] ->
   exists total,
     grade_question ucd q ans pts = Ok (0, DFreeText (q_type q) ans 0 total 0, true) /\
     round2 0 == 0).
Proof.
  intros Hf kws.
  destruct (free_text_not_other _ Hf) as (H1 & H2 & H3 & H4).
  unfold grade_question. rewrite H1, H2, H3, H4. unfold is_free_text in Hf. rewrite Hf.
  fold kws. split.
  - intros Hk Hs. split; [| apply round2_idem].
    apply is_nonempty_true in Hs. rewrite Hs.
    destruct kws as [| k ks] eqn:Ek; [contradiction |]. rewrite <- Ek in *.
    assert (Hl : negb (Nat.eqb (List.length (map (lower ucd) kws)) 0) = true)
      by (rewrite Ek; reflexivity).
    replace (match kws with [] => [] | _ :: _ => map (lower ucd) kws end)
      with (map (lower ucd) kws) by (rewrite Ek; reflexivity).
    rewrite Hl. cbn [andb].
    rewrite (py_div_pos _ _ (len_pos_of_nonempty _ Hl)). cbn [bind].
    rewrite count_found, Z.add_0_l, len_filter_map, len_map. reflexivity.
  - intros [Hk | Hs].
    + rewrite Hk. rewrite andb_false_r. eexists. split; reflexivity.
    + assert (E : is_nonempty (strip ans) = false) by now rewrite Hs.
      rewrite E. cbn [andb]. eexists. split; reflexivity.
Qed.

Lemma C5_free_text_keyword_score_witness :
  grade_question sample_ucd
    (mkq "q5" "free_text" None AnsAbsent None None (Some [u "mitosis"; u "cell"]))
    (u "the process of Mitosis splits the cell") 2
  = Ok (200 # 100,
        DFreeText (u "free_text") (u "the process of Mitosis splits the cell") 2 2
          (200 # 100),
        true).
Proof.
  exact (proj1 (proj1 (C5_free_text_keyword_score sample_ucd
    (mkq "q5" "free_text" None AnsAbsent None None (Some [u "mitosis"; u "cell"]))
    (u "the process of Mitosis splits the cell") 2 eq_refl)
    ltac:(discriminate) ltac:(vm_compute; discriminate))).
Defined.

(** * Further properties of the grading core *)

(** ** The maximum of a test *)

Lemma grade_loop_max (ucd : UnicodeData) answers qs : forall st st',
  grade_loop ucd answers st qs = Ok st' ->
  a_max_total st' = fold_left Qplus (map question_max_points qs) (a_max_total st).
Proof.
  induction qs as [| q qs IH]; simpl; intros st st' H.
  - now inversion H; subst.
  - case_result. apply grade_step_inv in E as (raw & d & _ & _ & _ & Hm & _).
    rewrite (IH _ _ H). now rewrite Hm.
Qed.

(** X1.  The [max_score] of a grading result is the sum of the maxima of
    the questions, in the order of the test, rounded to two decimals;
    the student answers play no part in it. *)
Theorem X1_max_score_is_sum_of_maxima (ucd : UnicodeData) (test : Test)
    (answers : dict str) (r : GradingResult) :
  grade_answers ucd test answers = Ok r ->
  max_score r = round2 (fold_left Qplus (map question_max_points (t_questions test)) 0).
Proof.
  unfold grade_answers. intros H. case_result. inversion H; subst; clear H. simpl.
  now rewrite (grade_loop_max ucd _ _ _ _ E).
Qed.

Lemma X1_max_score_is_sum_of_maxima_witness :
  max_score sample_result
  = round2 (fold_left Qplus (map question_max_points (t_questions sample_test)) 0).
Proof.
  exact (X1_max_score_is_sum_of_maxima sample_ucd sample_test sample_answers
           sample_result sample_graded).
Defined.

(** ** When grading raises *)





(** ** The entries of the result maps *)

Lemma dict_get_in_keys {V} (d : dict V) (k : str) :
  In k (dict_keys d) <-> exists v, dict_get d k = Some v.
Proof.
  induction d as [| [k' v'] d IH]; simpl.
  - split; [intros [] | intros [v H]; discriminate H].
  - destruct (str_eqb k' k) eqn:E.
    + apply str_eqb_eq in E. subst. split; [intros _; now exists v' | intros _; now left].
    + rewrite <- IH. split; [intros [-> | H]; [| exact H] | intros H; now right].
      now rewrite str_eqb_refl in E.
Qed.

Lemma grade_loop_keys (ucd : UnicodeData) answers qs : forall st st' k,
  grade_loop ucd answers st qs = Ok st' ->
  (In k (dict_keys (a_per_q_scores st')) <->
   In k (dict_keys (a_per_q_scores st)) \/ In k (map q_id qs)) /\
  (In k (dict_keys (a_details st')) <->
   In k (dict_keys (a_details st)) \/ In k (map q_id qs)).
Proof.
  induction qs as [| q qs IH]; simpl; intros st st' k H.
  - inversion H; subst. tauto.
  - case_result. apply grade_step_inv in E as (raw & d & _ & _ & _ & _ & _ & Hp & Hd).
    destruct (IH _ _ k H) as [I1 I2]. rewrite I1, I2, Hp, Hd, !dict_keys_set.
    split; intuition congruence.
Qed.

(** X3.  Whatever the answer map contains, the [per_q_scores] and the
    [details] of a grading result have an entry for every question of
    the test and for nothing else. *)
Theorem X3_result_entries_are_the_questions (ucd : UnicodeData) (test : Test)
    (answers : dict str) (r : GradingResult) :
  grade_answers ucd test answers = Ok r ->
  forall k,
    ((exists s, dict_get (per_q_scores r) k = Some s) <->
     In k (map q_id (t_questions test))) /\
    ((exists d, dict_get (details r) k = Some d) <->
     In k (map q_id (t_questions test))).
Proof.
  unfold grade_answers. intros H k. case_result. inversion H; subst; clear H. simpl.
  destruct (grade_loop_keys ucd _ _ _ _ k E) as [I1 I2]. simpl in I1, I2.
  rewrite <- !dict_get_in_keys. tauto.
Qed.

Lemma X3_result_entries_are_the_questions_witness :
  (exists s, dict_get (per_q_scores sample_result) (u "q6") = Some s) /\
  ~ (exists d, dict_get (details sample_result) (u "q7") = Some d).
Proof.
  pose proof (X3_result_entries_are_the_questions sample_ucd sample_test
                sample_answers sample_result sample_graded) as H.
  split.
  - apply (proj1 (H (u "q6"))). simpl. tauto.
  - intros F. apply (proj2 (H (u "q7"))) in F. simpl in F.
    repeat (destruct F as [F | F]; [discriminate F |]). exact F.
Defined.

(** ** What the parsers return *)

(** X4.  Whatever the input, [parse_tf_list_input] returns nothing but
    the strings [T] and [F]. *)
Theorem X4_parse_tf_list_values (ucd : UnicodeData) (s : str) :
  Forall (fun p => p = str_T \/ p = str_F) (parse_tf_list_input ucd s).
Proof.
  unfold parse_tf_list_input. destruct s as [| c0 s0]; [constructor |].
  destruct (existsb isspace _).
  - apply Forall_forall. intros p Hp. apply in_map_iff in Hp as (t & <- & _).
    destruct (_ || _); [now left | now right].
  - apply Forall_forall. intros p Hp. apply in_map_iff in Hp as (c & <- & Hc).
    apply filter_In in Hc as [_ Hc]. apply orb_true_iff in Hc as [Hc | Hc];
      apply N.eqb_eq in Hc; subst; [now left | now right].
Qed.

Lemma lower_from_ascii (ucd : UnicodeData) (c : char) (before s : str) :
  is_ascii c = true ->
  lower_from ucd before (c :: s) = lower_cp ucd c ++ lower_from ucd (c :: before) s.
Proof.
  intros H. cbn [lower_from].
  unfold is_ascii in H. apply N.ltb_lt in H.
  now rewrite (proj2 (N.eqb_neq c 931)) by lia.
Qed.

Lemma ascii_letter_is_ascii (c : char) : is_ascii_letter c = true -> is_ascii c = true.
Proof.
  unfold is_ascii_letter, is_upper_AZ, is_lower_az, is_ascii, between. intros H.
  apply N.ltb_lt. apply orb_true_iff in H as [H | H];
    apply andb_true_iff in H as [H1 H2]; apply N.leb_le in H1, H2; lia.
Qed.

Lemma lower_ascii_letter (ucd : UnicodeData) (c : char) :
  is_ascii_letter c = true ->
  lower ucd [c] = [ascii_lower c] /\ is_lower_az (ascii_lower c) = true.
Proof.
  intros H. unfold lower.
  rewrite (lower_from_ascii ucd c [] [] (ascii_letter_is_ascii c H)).
  cbn [lower_from]. rewrite app_nil_r. revert H.
  unfold lower_cp, ascii_lower, is_ascii_letter, is_upper_AZ, is_lower_az,
    is_ascii, between. intros H.
  destruct (N.ltb_spec c 128) as [Hlt | Hge].
  - split; [reflexivity |].
    destruct (N.leb_spec 65 c); destruct (N.leb_spec c 90); cbn [andb orb] in *;
      split_leb; cbn [andb] in *; try reflexivity; try discriminate H; exfalso; lia.
  - exfalso. revert H. split_leb; cbn [andb orb]; try discriminate; lia.
Qed.

Lemma re_pair_letter (ucd : UnicodeData) (s : str) c ds rest :
  re_pair ucd s = Some (c, ds, rest) -> is_ascii_letter c = true.
Proof.
  unfold re_pair. destruct s as [| c0 r]; [discriminate |].
  destruct (is_ascii_letter c0) eqn:E; [| discriminate].
  destruct (take_digits ucd _) as [[| d ds'] rest']; [discriminate |].
  intros H. inversion H; subst. exact E.
Qed.

Lemma re_pair_finditer_letters (ucd : UnicodeData) (s : str) : forall skip,
  Forall (fun m => is_ascii_letter (fst m) = true) (re_pair_finditer ucd skip s).
Proof.
  induction s as [| c r IH]; intros skip; cbn [re_pair_finditer]; [constructor |].
  destruct skip; [| apply IH].
  destruct (re_pair ucd (c :: r)) as [[[c' ds] rest] |] eqn:E; [| apply IH].
  constructor; [| apply IH]. simpl. exact (re_pair_letter ucd _ _ _ _ E).
Qed.

Lemma dict_set_nodup {V} (d : dict V) (k : str) (v : V) :
  NoDup (dict_keys d) -> NoDup (dict_keys (dict_set d k v)).
Proof.
  induction d as [| [k' v'] d IH]; simpl; intros H.
  - constructor; [intros [] | constructor].
  - inversion H as [| ? ? Hk Hd]; subst.
    destruct (str_eqb k' k) eqn:E; simpl; [constructor; assumption |].
    constructor; [| now apply IH].
    intros Hin. apply dict_keys_set in Hin as [Hin | ->]; [contradiction |].
    now rewrite str_eqb_refl in E.
Qed.

Section MatchingKeys.

Variable ucd : UnicodeData.

Lemma set_pair_letter_keys (res : dict Z) (m : char * list Z) :
  is_ascii_letter (fst m) = true -> letter_keys res -> letter_keys (set_pair ucd res m).
Proof.
  intros Hm [Hn Hf]. unfold set_pair. split; [now apply dict_set_nodup |].
  apply Forall_forall. intros k Hk. apply dict_keys_set in Hk as [Hk | ->].
  - rewrite Forall_forall in Hf. now apply Hf.
  - destruct (lower_ascii_letter ucd _ Hm) as [-> Hl]. eauto.
Qed.

Lemma fold_set_pair_letter_keys (ms : list (char * list Z)) : forall res,
  Forall (fun m => is_ascii_letter (fst m) = true) ms ->
  letter_keys res -> letter_keys (fold_left (set_pair ucd) ms res).
Proof.
  induction ms as [| m ms IH]; simpl; intros res Hms Hres; [exact Hres |].
  inversion Hms; subst. apply IH; [assumption |].
  now apply set_pair_letter_keys.
Qed.

Lemma parse_matching_input_letter_keys (s : str) :
  letter_keys (parse_matching_input ucd s).
Proof.
  assert (H0 : letter_keys []) by (split; constructor).
  unfold parse_matching_input. destruct s as [| c0 s0]; [exact H0 |].
  generalize (split_ws (strip (replace 58 32 (replace 44 32 (replace 59 32 (c0 :: s0)))))%N).
  intros parts. revert H0. generalize (@nil (str * Z)).
  induction parts as [| p parts IH]; simpl; intros res Hres; [exact Hres |].
  apply IH. unfold re_pair_full.
  destruct (re_pair ucd p) as [[[c ds] rest] |] eqn:E.
  - destruct (at_dollar rest).
    + apply set_pair_letter_keys; [| exact Hres]. exact (re_pair_letter ucd _ _ _ _ E).
    + apply fold_set_pair_letter_keys; [apply re_pair_finditer_letters | exact Hres].
  - apply fold_set_pair_letter_keys; [apply re_pair_finditer_letters | exact Hres].
Qed.

End MatchingKeys.

(** X5.  Whatever the input, the keys of the mapping
    [parse_matching_input] returns are pairwise distinct strings of one
    lower-case ASCII letter: letters typed in upper case are folded, a
    repeated letter keeps one entry. *)
Theorem X5_parse_matching_keys (ucd : UnicodeData) (s : str) :
  NoDup (dict_keys (parse_matching_input ucd s)) /\
  Forall (fun k => exists c, k = [c] /\ is_lower_az c = true)
         (dict_keys (parse_matching_input ucd s)).
Proof. exact (parse_matching_input_letter_keys ucd s). Qed.

(** ** Joined letters *)

Lemma join_letters_two (sep c c' : char) (cs : list char) :
  join [sep] (letters (c :: c' :: cs)) = c :: sep :: join [sep] (letters (c' :: cs)).
Proof. reflexivity. Qed.

Lemma join_letters_contiguous (cs : list char) : join [] (letters cs) = cs.
Proof.
  induction cs as [| c cs IH]; [reflexivity |].
  destruct cs as [| c' cs]; [reflexivity |].
  change (join [] (letters (c :: c' :: cs))) with (c :: join [] (letters (c' :: cs))).
  now rewrite IH.
Qed.

Lemma split_ws_join (sep : char) (cs : list char) :
  isspace sep = true ->
  Forall (fun c => isspace c = false) cs ->
  split_ws (join [sep] (letters cs)) = letters cs.
Proof.
  intros Hsep. unfold split_ws. induction cs as [| c cs IH]; intros H; [reflexivity |].
  inversion H as [| ? ? Hc Hcs]; subst.
  destruct cs as [| c' cs].
  - simpl. now rewrite Hc.
  - rewrite join_letters_two. cbn [split_ws_aux]. rewrite Hc.
    cbn [split_ws_aux]. rewrite Hsep.
    exact (f_equal (cons [c]) (IH Hcs)).
Qed.

Lemma split_on_join (sep : char) (cs : list char) :
  cs <> [] -> Forall (fun c => char_eqb c sep = false) cs ->
  split_on sep (join [sep] (letters cs)) = letters cs.
Proof.
  induction cs as [| c cs IH]; intros Hne H; [contradiction |].
  inversion H as [| ? ? Hc Hcs]; subst.
  destruct cs as [| c' cs].
  - simpl. now rewrite Hc.
  - rewrite join_letters_two. cbn [split_on]. rewrite Hc.
    unfold char_eqb at 1. rewrite N.eqb_refl.
    exact (f_equal (cons [c]) (IH ltac:(discriminate) Hcs)).
Qed.

Lemma existsb_join (p : char -> bool) (sep : char) (cs : list char) :
  existsb p (join [sep] (letters cs))
  = existsb p cs || (p sep && (2 <=? List.length cs)%nat).
Proof.
  induction cs as [| c cs IH]; [simpl; now rewrite andb_false_r |].
  destruct cs as [| c' cs].
  - simpl. now rewrite andb_false_r, !orb_false_r.
  - rewrite join_letters_two. cbn [existsb]. rewrite IH.
    cbn [existsb List.length Nat.leb]. rewrite andb_true_r.
    destruct (p c), (p sep), (p c'), (existsb p cs); reflexivity.
Qed.

Lemma map_join (f : char -> char) (sep : char) (cs : list char) :
  map f (join [sep] (letters cs)) = join [f sep] (letters (map f cs)).
Proof.
  induction cs as [| c cs IH]; [reflexivity |].
  destruct cs as [| c' cs]; [reflexivity |].
  rewrite join_letters_two. cbn [map]. rewrite IH. reflexivity.
Qed.

Lemma rstrip_snoc (m : str) (b : char) :
  isspace b = false -> rstrip (m ++ [b]) = m ++ [b].
Proof.
  intros Hb. unfold rstrip. rewrite rev_app_distr. cbn [rev app lstrip].
  rewrite Hb. cbn [rev]. now rewrite rev_involutive.
Qed.

Lemma join_letters_last (sep : char) (cs : list char) (b : char) :
  exists m, join [sep] (letters (cs ++ [b])) = m ++ [b].
Proof.
  induction cs as [| c cs [m IH]].
  - now exists [].
  - destruct cs as [| c' cs].
    + exists [c; sep]. reflexivity.
    + exists (c :: sep :: m). cbn [app]. rewrite join_letters_two.
      cbn [app] in IH. rewrite IH. reflexivity.
Qed.

Lemma strip_join (sep : char) (cs : list char) :
  cs <> [] -> Forall (fun c => isspace c = false) cs ->
  strip (join [sep] (letters cs)) = join [sep] (letters cs).
Proof.
  intros Hne H. unfold strip.
  assert (Hl : lstrip (join [sep] (letters cs)) = join [sep] (letters cs)).
  { destruct cs as [| c cs]; [contradiction |]. inversion H; subst.
    destruct cs as [| c' cs]; [simpl | rewrite join_letters_two; cbn [lstrip]];
      now match goal with Hc : isspace c = false |- _ => rewrite Hc end. }
  rewrite Hl.
  destruct (exists_last Hne) as (cs' & b & ->).
  destruct (join_letters_last sep cs' b) as [m ->].
  apply rstrip_snoc. rewrite Forall_forall in H. apply H.
  apply in_or_app. right. now left.
Qed.

Lemma strip_nonspace (cs : list char) :
  Forall (fun c => isspace c = false) cs -> strip cs = cs.
Proof.
  intros H. destruct cs as [| c cs]; [reflexivity |].
  unfold strip. inversion H as [| ? ? Hc Hcs]; subst.
  cbn [lstrip]. rewrite Hc.
  destruct (@exists_last _ (c :: cs) ltac:(discriminate)) as (m & b & E).
  rewrite E. apply rstrip_snoc. rewrite Forall_forall in H. apply H.
  rewrite E. apply in_or_app. right. now left.
Qed.

Lemma strip_single (c : char) : isspace c = false -> strip [c] = [c].
Proof.
  intros H. change [c] with (join [32%N] (letters [c])).
  apply strip_join; [discriminate | now constructor].
Qed.

Lemma short_list {A} (l : list A) :
  l <> [] -> (2 <=? List.length l)%nat = false -> exists a, l = [a].
Proof.
  destruct l as [| a [| b l]]; intros Hne H; [contradiction | now exists a | discriminate H].
Qed.

Ltac decide_cmp :=
  repeat match goal with
         | |- context [N.leb ?a ?b] =>
             first [ rewrite (proj2 (N.leb_le a b)) by lia
                   | rewrite (proj2 (N.leb_gt a b)) by lia ]
         | |- context [N.ltb ?a ?b] =>
             first [ rewrite (proj2 (N.ltb_lt a b)) by lia
                   | rewrite (proj2 (N.ltb_ge a b)) by lia ]
         | |- context [N.eqb ?a ?b] =>
             first [ rewrite (proj2 (N.eqb_eq a b)) by lia
                   | rewrite (proj2 (N.eqb_neq a b)) by lia ]
         end.

Lemma letter_range (c : char) : is_ascii_letter c = true -> (65 <= c <= 122)%N.
Proof.
  unfold is_ascii_letter, is_upper_AZ, is_lower_az, between. intros H.
  apply orb_true_iff in H as [H | H]; apply andb_true_iff in H as [H1 H2];
    apply N.leb_le in H1, H2; lia.
Qed.

Lemma letter_facts (c : char) :
  is_ascii_letter c = true ->
  isspace c = false /\ (c =? 44)%N = false /\ is_ascii c = true.
Proof.
  intros H. apply letter_range in H.
  unfold isspace, is_ascii, between. repeat split; decide_cmp; reflexivity.
Qed.

Section OrderingRoundTrip.

Variable ucd : UnicodeData.

Lemma lower_from_letters (cs : list char) : forall before,
  Forall (fun c => is_ascii_letter c = true) cs ->
  lower_from ucd before cs = map ascii_lower cs.
Proof.
  induction cs as [| c cs IH]; intros before H; [reflexivity |].
  inversion H as [| ? ? Hc Hcs]; subst.
  pose proof (proj1 (lower_ascii_letter ucd c Hc)) as Hl.
  unfold lower in Hl.
  rewrite (lower_from_ascii ucd c [] [] (ascii_letter_is_ascii c Hc)) in Hl.
  cbn [lower_from] in Hl. rewrite app_nil_r in Hl.
  rewrite (lower_from_ascii ucd c before cs (ascii_letter_is_ascii c Hc)).
  rewrite Hl, (IH _ Hcs). reflexivity.
Qed.

Lemma lower_letters (cs : list char) :
  Forall (fun c => is_ascii_letter c = true) cs -> lower ucd cs = map ascii_lower cs.
Proof. apply lower_from_letters. Qed.

Lemma ordering_tokens (cs : list char) :
  Forall (fun c => is_ascii_letter c = true) cs ->
  map (fun p => lower ucd (strip p))
      (filter (fun p => is_nonempty (strip p)) (letters cs))
  = letters (map ascii_lower cs).
Proof.
  induction cs as [| c cs IH]; intros H; [reflexivity |].
  inversion H as [| ? ? Hc Hcs]; subst.
  cbn [letters map filter]. rewrite (strip_single c (proj1 (letter_facts c Hc))).
  cbn [is_nonempty map]. rewrite (strip_single c (proj1 (letter_facts c Hc))).
  rewrite (proj1 (lower_ascii_letter ucd c Hc)).
  f_equal. apply (IH Hcs).
Qed.

Lemma filter_re_az_letters (cs : list char) :
  Forall (fun c => is_ascii_letter c = true) cs ->
  filter re_az (letters (map ascii_lower cs)) = letters (map ascii_lower cs).
Proof.
  induction cs as [| c cs IH]; intros H; [reflexivity |].
  inversion H as [| ? ? Hc Hcs]; subst.
  cbn [letters map filter re_az at_dollar].
  rewrite (proj2 (lower_ascii_letter ucd c Hc)). cbn [andb].
  f_equal. apply (IH Hcs).
Qed.

Lemma letters_forall (P : char -> bool) (cs : list char) :
  Forall (fun c => is_ascii_letter c = true) cs ->
  (forall c, is_ascii_letter c = true -> P c = false) ->
  existsb P cs = false /\ Forall (fun c => P c = false) cs.
Proof.
  intros H HP. induction H as [| c cs Hc Hcs [IH1 IH2]]; [split; [reflexivity | constructor] |].
  split; [simpl; now rewrite (HP c Hc) | constructor; auto].
Qed.

Lemma parse_ordering_joined (sep : char) (cs : list char) :
  sep = 32%N \/ sep = 44%N ->
  cs <> [] -> Forall (fun c => is_ascii_letter c = true) cs ->
  parse_ordering_input ucd (join [sep] (letters cs)) = letters (map ascii_lower cs).
Proof.
  intros Hsep Hne H.
  destruct (letters_forall isspace cs H (fun c Hc => proj1 (letter_facts c Hc)))
    as [Hsp Hsp'].
  destruct (letters_forall (fun c : N => c =? 44)%N cs H
              (fun c Hc => proj1 (proj2 (letter_facts c Hc)))) as [Hco Hco'].
  unfold parse_ordering_input.
  destruct (join [sep] (letters cs)) as [| c0 s0] eqn:Es.
  { destruct cs as [| c [| c' cs]]; [contradiction | discriminate Es | discriminate Es]. }
  rewrite <- Es. rewrite (strip_join sep cs Hne Hsp').
  rewrite !existsb_join, Hsp, Hco. cbn [orb].
  destruct (2 <=? List.length cs)%nat eqn:El.
  - destruct Hsep as [-> | ->].
    + change ((32 =? 44)%N && true) with false. change (isspace 32%N && true) with true.
      cbv iota. rewrite (split_ws_join 32%N cs eq_refl Hsp'), (ordering_tokens cs H).
      apply (filter_re_az_letters cs H).
    + change ((44 =? 44)%N && true) with true. cbv iota.
      rewrite (split_on_join 44%N cs Hne Hco'), (ordering_tokens cs H).
      apply (filter_re_az_letters cs H).
  - rewrite !andb_false_r. cbv iota.
    destruct (short_list cs Hne El) as [a ->]. cbn [letters map join].
    rewrite (lower_letters [a] H). apply (filter_re_az_letters [a] H).
Qed.

Lemma parse_ordering_ws_joined (sep : char) (cs : list char) :
  isspace sep = true ->
  cs <> [] -> Forall (fun c => is_ascii_letter c = true) cs ->
  parse_ordering_input ucd (join [sep] (letters cs)) = letters (map ascii_lower cs).
Proof.
  intros Hsep Hne H.
  destruct (letters_forall isspace cs H (fun c Hc => proj1 (letter_facts c Hc)))
    as [Hsp Hsp'].
  destruct (letters_forall (fun c : N => c =? 44)%N cs H
              (fun c Hc => proj1 (proj2 (letter_facts c Hc)))) as [Hco Hco'].
  assert (H44 : (sep =? 44)%N = false).
  { destruct (N.eqb_spec sep 44) as [-> | _]; [discriminate Hsep | reflexivity]. }
  unfold parse_ordering_input.
  destruct (join [sep] (letters cs)) as [| c0 s0] eqn:Es.
  { destruct cs as [| c [| c' cs]]; [contradiction | discriminate Es | discriminate Es]. }
  rewrite <- Es. rewrite (strip_join sep cs Hne Hsp').
  rewrite !existsb_join, Hsp, Hco. cbv beta. rewrite H44, Hsep. cbn [orb andb].
  destruct (2 <=? List.length cs)%nat eqn:El.
  - cbv iota. rewrite (split_ws_join sep cs Hsep Hsp'), (ordering_tokens cs H).
    apply (filter_re_az_letters cs H).
  - cbv iota.
    destruct (short_list cs Hne El) as [a ->]. cbn [letters map join].
    rewrite (lower_letters [a] H). apply (filter_re_az_letters [a] H).
Qed.

Lemma parse_ordering_input_nonempty (s : str) :
  s <> [] ->
  parse_ordering_input ucd s =
  filter re_az
    (if @existsb char (fun c : N => c =? 44)%N (strip s) then
       map (fun p => lower ucd (strip p))
           (filter (fun p => is_nonempty (strip p)) (split_on 44%N (strip s)))
     else if @existsb char isspace (strip s) then
       map (fun p => lower ucd (strip p))
           (filter (fun p => is_nonempty (strip p)) (split_ws (strip s)))
     else map (fun c => [c]) (lower ucd (strip s))).
Proof. destruct s; [contradiction | reflexivity]. Qed.

Lemma parse_ordering_contiguous (cs : list char) :
  cs <> [] -> Forall (fun c => is_ascii_letter c = true) cs ->
  parse_ordering_input ucd cs = letters (map ascii_lower cs).
Proof.
  intros Hne H.
  destruct (letters_forall isspace cs H (fun c Hc => proj1 (letter_facts c Hc)))
    as [Hsp Hsp'].
  destruct (letters_forall (fun c : N => c =? 44)%N cs H
              (fun c Hc => proj1 (proj2 (letter_facts c Hc)))) as [Hco Hco'].
  rewrite (parse_ordering_input_nonempty cs Hne).
  rewrite (strip_nonspace cs Hsp'), Hco, Hsp. rewrite (lower_letters cs H).
  apply (filter_re_az_letters cs H).
Qed.

End OrderingRoundTrip.

(** C8.  The comma-separated, the whitespace-separated and the
    contiguous form of one sequence of letters are read alike: for every
    non-empty sequence of ASCII letters, with any white-space character
    as the separator of the second form, the three forms give the same
    result, which is the sequence of the letters in lower case. *)
Theorem C8_parse_ordering_forms (ucd : UnicodeData) (cs : list char) (sep : char) :
  cs <> [] -> Forall (fun c => is_ascii_letter c = true) cs ->
  isspace sep = true ->
  parse_ordering_input ucd (join [44%N] (letters cs))
  = parse_ordering_input ucd (join [sep] (letters cs)) /\
  parse_ordering_input ucd (join [sep] (letters cs))
  = parse_ordering_input ucd (join [] (letters cs)) /\
  parse_ordering_input ucd (join [] (letters cs)) = letters (map ascii_lower cs).
Proof.
  intros Hne H Hsep.
  assert (Hc : parse_ordering_input ucd (join [44%N] (letters cs))
               = letters (map ascii_lower cs))
    by (apply parse_ordering_joined; auto).
  assert (Hw : parse_ordering_input ucd (join [sep] (letters cs))
               = letters (map ascii_lower cs))
    by (apply parse_ordering_ws_joined; auto).
  assert (Hj : parse_ordering_input ucd (join [] (letters cs))
               = letters (map ascii_lower cs))
    by (rewrite join_letters_contiguous; now apply parse_ordering_contiguous).
  rewrite Hc, Hw, Hj. repeat split.
Qed.

(** The three forms of d c b a e. *)
Lemma C8_parse_ordering_forms_witness :
  parse_ordering_input sample_ucd (u "d,c,b,a,e")
  = parse_ordering_input sample_ucd (u "d c b a e") /\
  parse_ordering_input sample_ucd (u "d c b a e")
  = parse_ordering_input sample_ucd (u "dcbae") /\
  parse_ordering_input sample_ucd (u "dcbae") = [u "d"; u "c"; u "b"; u "a"; u "e"].
Proof.
  apply (C8_parse_ordering_forms sample_ucd (u "dcbae") 32%N).
  - discriminate.
  - repeat constructor.
  - reflexivity.
Defined.

(** X6.  A non-empty sequence of ASCII letters typed contiguously,
    separated by single blanks or separated by commas is read by
    [parse_ordering_input] as that sequence of letters, in lower case:
    the three forms are interchangeable for every ordering. *)
Theorem X6_parse_ordering_round_trip (ucd : UnicodeData) (cs : list char) :
  cs <> [] -> Forall (fun c => is_ascii_letter c = true) cs ->
  parse_ordering_input ucd (join [] (letters cs)) = letters (map ascii_lower cs) /\
  parse_ordering_input ucd (join [32%N] (letters cs)) = letters (map ascii_lower cs) /\
  parse_ordering_input ucd (join [44%N] (letters cs)) = letters (map ascii_lower cs).
Proof.
  intros Hne H. rewrite join_letters_contiguous. repeat split.
  - now apply parse_ordering_contiguous.
  - apply parse_ordering_joined; auto.
  - apply parse_ordering_joined; auto.
Qed.

Lemma X6_parse_ordering_round_trip_witness :
  parse_ordering_input sample_ucd (u "B,a,C") = [u "b"; u "a"; u "c"].
Proof.
  apply (X6_parse_ordering_round_trip sample_ucd (u "BaC")); [discriminate |].
  repeat constructor.
Defined.

(** ** Truth values typed back *)

Lemma forall_join (P : char -> Prop) (sep : char) (cs : list char) :
  P sep -> Forall P cs -> Forall P (join [sep] (letters cs)).
Proof.
  intros Hs. induction cs as [| c cs IH]; intros H; [constructor |].
  inversion H as [| ? ? Hc Hcs]; subst.
  destruct cs as [| c' cs]; [now constructor |].
  rewrite join_letters_two. constructor; [exact Hc |]. constructor; [exact Hs |].
  exact (IH Hcs).
Qed.

Section TfRoundTrip.

Variable ucd : UnicodeData.

Lemma upper_ascii (s : str) :
  Forall (fun c => is_ascii c = true) s -> upper ucd s = map ascii_upper s.
Proof.
  induction s as [| c s IH]; intros H; [reflexivity |].
  inversion H as [| ? ? Hc Hs]; subst.
  unfold upper in *. cbn [flat_map map]. rewrite (IH Hs).
  unfold upper_cp. rewrite Hc. reflexivity.
Qed.

Lemma parse_tf_list_input_nonempty (s : str) :
  s <> [] ->
  parse_tf_list_input ucd s =
  if @existsb char isspace (map tf_subst (upper ucd s)) then
    map (fun p => if str_eqb p str_T || str_eqb p str_TRUE then str_T else str_F)
        (filter (fun p => str_eqb p str_T || str_eqb p str_F
                          || str_eqb p str_TRUE || str_eqb p str_FALSE)
                (split_ws (map tf_subst (upper ucd s))))
  else
    map (fun c => [c])
        (filter (fun c : N => (c =? 84) || (c =? 70))%N (map tf_subst (upper ucd s))).
Proof. destruct s; [contradiction | reflexivity]. Qed.

Lemma tf_char_normal (k : bool * bool) :
  tf_subst (ascii_upper (tf_char (fst k) (snd k))) = tf_char true (snd k) /\
  is_ascii (tf_char (fst k) (snd k)) = true /\
  isspace (tf_char true (snd k)) = false.
Proof. destruct k as [[|] [|]]; repeat split; reflexivity. Qed.

Lemma tf_tokens (ks : list (bool * bool)) :
  map (fun p => if str_eqb p str_T || str_eqb p str_TRUE then str_T else str_F)
      (filter (fun p => str_eqb p str_T || str_eqb p str_F
                        || str_eqb p str_TRUE || str_eqb p str_FALSE)
              (letters (map (fun k => tf_char true (snd k)) ks)))
  = map (fun k => tf_str (snd k)) ks.
Proof.
  induction ks as [| [up [|]] ks IH]; [reflexivity | |]; simpl; f_equal; exact IH.
Qed.

Lemma tf_compact (ks : list (bool * bool)) :
  map (fun c => [c])
      (filter (fun c : N => (c =? 84) || (c =? 70))%N
              (map (fun k => tf_char true (snd k)) ks))
  = map (fun k => tf_str (snd k)) ks.
Proof.
  induction ks as [| [up [|]] ks IH]; [reflexivity | |]; simpl; f_equal; exact IH.
Qed.

Lemma tf_normalised (sep : char) (ks : list (bool * bool)) :
  is_ascii sep = true ->
  map tf_subst (upper ucd (join [sep] (letters (map (fun k => tf_char (fst k) (snd k)) ks))))
  = join [tf_subst (ascii_upper sep)] (letters (map (fun k => tf_char true (snd k)) ks)).
Proof.
  intros Hsep. rewrite upper_ascii.
  - rewrite !map_join, !map_map. do 2 f_equal. apply map_ext.
    intros k. apply tf_char_normal.
  - apply forall_join; [exact Hsep |]. apply Forall_forall. intros c Hc.
    apply in_map_iff in Hc as (k & <- & _). apply tf_char_normal.
Qed.

Lemma parse_tf_joined (sep : char) (ks : list (bool * bool)) :
  is_ascii sep = true -> isspace (tf_subst (ascii_upper sep)) = true ->
  ks <> [] ->
  parse_tf_list_input ucd (join [sep] (letters (map (fun k => tf_char (fst k) (snd k)) ks)))
  = map (fun k => tf_str (snd k)) ks.
Proof.
  intros Hsep Hsp Hne.
  assert (Hns : Forall (fun c => isspace c = false)
                       (map (fun k => tf_char true (snd k)) ks)).
  { apply Forall_forall. intros c Hc. apply in_map_iff in Hc as (k & <- & _).
    apply tf_char_normal. }
  rewrite parse_tf_list_input_nonempty.
  - rewrite (tf_normalised sep ks Hsep), existsb_join, Hsp. cbn [andb].
    assert (He : existsb isspace (map (fun k => tf_char true (snd k)) ks) = false).
    { clear - Hns. induction Hns as [| c l Hc Hl IH]; [reflexivity |].
      simpl. now rewrite Hc. }
    rewrite He. cbn [orb]. rewrite length_map.
    destruct (2 <=? List.length ks)%nat eqn:El.
    + rewrite (split_ws_join _ _ Hsp Hns). apply tf_tokens.
    + destruct (short_list ks Hne El) as [k ->]. destruct k as [up [|]]; reflexivity.
  - destruct ks as [| k [| k' ks]]; [contradiction | |]; discriminate.
Qed.

Lemma parse_tf_contiguous (ks : list (bool * bool)) :
  ks <> [] ->
  parse_tf_list_input ucd (map (fun k => tf_char (fst k) (snd k)) ks)
  = map (fun k => tf_str (snd k)) ks.
Proof.
  intros Hne. rewrite parse_tf_list_input_nonempty.
  - assert (E : map tf_subst (upper ucd (map (fun k => tf_char (fst k) (snd k)) ks))
                = map (fun k => tf_char true (snd k)) ks).
    { rewrite upper_ascii.
      - rewrite !map_map. apply map_ext. intros k. apply tf_char_normal.
      - apply Forall_forall. intros c Hc. apply in_map_iff in Hc as (k & <- & _).
        apply tf_char_normal. }
    rewrite E.
    assert (He : existsb isspace (map (fun k => tf_char true (snd k)) ks) = false).
    { clear. induction ks as [| [up [|]] ks IH]; [reflexivity | |]; simpl; exact IH. }
    rewrite He. apply tf_compact.
  - destruct ks; [contradiction | discriminate].
Qed.

End TfRoundTrip.

(** X7.  A non-empty sequence of truth values, each typed as T or F in
    either case, is read back by [parse_tf_list_input] as that sequence
    whether the letters are typed contiguously or separated by single
    blanks, commas, full stops or semicolons. *)
Theorem X7_parse_tf_list_round_trip (ucd : UnicodeData) (ks : list (bool * bool))
    (sep : char) :
  ks <> [] -> In sep [32; 44; 46; 59]%N ->
  let typed := map (fun k => tf_char (fst k) (snd k)) ks in
  parse_tf_list_input ucd (join [] (letters typed)) = map (fun k => tf_str (snd k)) ks /\
  parse_tf_list_input ucd (join [sep] (letters typed)) = map (fun k => tf_str (snd k)) ks.
Proof.
  intros Hne Hsep typed. subst typed. rewrite join_letters_contiguous. split.
  - now apply parse_tf_contiguous.
  - simpl in Hsep.
    destruct Hsep as [<- | [<- | [<- | [<- | []]]]]; now apply parse_tf_joined.
Qed.

Lemma X7_parse_tf_list_round_trip_witness :
  parse_tf_list_input sample_ucd (u "tFT") = [u "T"; u "F"; u "T"] /\
  parse_tf_list_input sample_ucd (u "t;F;T") = [u "T"; u "F"; u "T"].
Proof.
  apply (X7_parse_tf_list_round_trip sample_ucd
           [(false, true); (true, false); (true, true)] 59%N).
  - discriminate.
  - simpl. tauto.
Defined.

(** ** Unanswered questions *)

Lemma count_pairs_no_answer (cm : list (str * Z)) : forall m, count_pairs [] cm m = m.
Proof.
  induction cm as [| [k v] cm IH]; intros m; [reflexivity |]. cbn. apply IH.
Qed.

Lemma zero_matches (pts : Q) (n : Z) : inject_Z 0 * (pts / inject_Z (Z.max 1 n)) == 0.
Proof. apply Qmult_0_l. Qed.

(** X8.  A question the answer map has no entry for is graded as
    answered with the empty string.  Unless it is a single-choice
    question it scores 0; a single-choice question scores 0 when its key
    is not blank, and its full maximum when the key is absent or
    blank. *)
Theorem X8_missing_answer (ucd : UnicodeData) (q : Question) (answers : dict str)
    (pts : Q) :
  dict_get answers (q_id q) = None -> answer_fits q = true ->
  exists raw d m,
    grade_question ucd q (answers_get answers (q_id q)) pts = Ok (raw, d, m) /\
    (str_eqb (q_type q) ty_single = false -> raw == 0) /\
    (str_eqb (q_type q) ty_single = true ->
     exists key, answer_choice ucd (q_answer q) = Ok key /\
                 (key <> [] -> raw = 0) /\ (key = [] -> raw = pts)).
Proof.
  intros Hget Hfit. unfold answers_get. rewrite Hget.
  unfold answer_fits in Hfit. unfold grade_question.
  destruct (str_eqb (q_type q) ty_single).
  { assert (Hk : exists key, answer_choice ucd (q_answer q) = Ok key).
    { destruct (q_answer q) as [| s | [| ? ?] | [| ? ?]]; try discriminate Hfit;
        simpl; eauto. }
    destruct Hk as [key Hk]. rewrite Hk. cbn [bind].
    change (normalize_choice ucd []) with (@nil char).
    do 3 eexists. split; [reflexivity |]. split; [discriminate |].
    intros _. exists key. split; [reflexivity |].
    destruct key; simpl; split; intros; congruence. }
  destruct (str_eqb (q_type q) ty_matching).
  { assert (Hk : exists items, answer_items (q_answer q) = Ok items).
    { destruct (q_answer q); try discriminate Hfit; simpl; eauto. }
    destruct Hk as [items Hk]. rewrite Hk. cbn [bind].
    change (parse_matching_input ucd []) with (@nil (str * Z)).
    rewrite count_pairs_no_answer, partial_score_ok. cbn [bind].
    do 3 eexists. split; [reflexivity |]. split; [intros _; apply zero_matches |].
    discriminate. }
  destruct (str_eqb (q_type q) ty_tf_list).
  { change (parse_tf_list_input ucd []) with (@nil str).
    rewrite count_positions_no_parts, partial_score_ok. cbn [bind].
    do 3 eexists. split; [reflexivity |]. split; [intros _; apply zero_matches |].
    discriminate. }
  destruct (str_eqb (q_type q) ty_ordering).
  { change (parse_ordering_input ucd []) with (@nil str).
    rewrite count_positions_no_parts, partial_score_ok. cbn [bind].
    do 3 eexists. split; [reflexivity |]. split; [intros _; apply zero_matches |].
    discriminate. }
  destruct (starts_with ty_free_text (q_type q)).
  - change (is_nonempty (strip [])) with false. cbn [andb].
    do 3 eexists. split; [reflexivity |]. split; [reflexivity | discriminate].
  - do 3 eexists. split; [reflexivity |]. split; [reflexivity | discriminate].
Qed.

Lemma X8_missing_answer_witness :
  exists raw d m,
    grade_question sample_ucd
      (mkq "q2" "matching" None (AnsMap [(u "a", 2%Z); (u "b", 1%Z)]) None None None)
      (answers_get [(u "q1", u "a")] (u "q2")) 2 = Ok (raw, d, m) /\
    raw == 0.
Proof.
  destruct (X8_missing_answer sample_ucd
              (mkq "q2" "matching" None (AnsMap [(u "a", 2%Z); (u "b", 1%Z)]) None None None)
              [(u "q1", u "a")] 2 eq_refl eq_refl) as (raw & d & m & Hg & Hz & _).
  exists raw, d, m. split; [exact Hg | exact (Hz eq_refl)].
Defined.

(** ** Full marks *)











(** ** Matching: what counts *)







(** * The result sheet *)

Lemma strs_eqb_eq (a b : list str) : strs_eqb a b = true <-> a = b.
Proof.
  revert b. induction a as [| x a IH]; intros [| y b]; simpl; split; intros H;
    try reflexivity; try discriminate.
  - apply andb_true_iff in H as [Hx Ha]. apply str_eqb_eq in Hx. apply IH in Ha.
    now subst.
  - injection H as -> ->. apply andb_true_iff. split; [apply str_eqb_refl | now apply IH].
Qed.

Lemma base_header_length : List.length BASE_HEADER = 18%nat.
Proof. reflexivity. Qed.

Lemma new_header_for_some (current new_header : list str) :
  new_header_for current = Some new_header ->
  new_header = BASE_HEADER ++ skipn 18 current /\ firstn 18 current <> BASE_HEADER.
Proof.
  unfold new_header_for. rewrite base_header_length.
  destruct (strs_eqb (firstn 18 current) BASE_HEADER) eqn:E; [discriminate |].
  cbn [negb]. intros H. inversion H; subst; clear H. split.
  - destruct (Nat.ltb_spec 18 (List.length current)); [reflexivity |].
    now rewrite skipn_all2 by lia.
  - intros F. apply strs_eqb_eq in F. congruence.
Qed.

Lemma new_header_for_none (current : list str) :
  new_header_for current = None <-> firstn 18 current = BASE_HEADER.
Proof.
  unfold new_header_for. rewrite base_header_length.
  destruct (strs_eqb (firstn 18 current) BASE_HEADER) eqn:E; cbn [negb].
  - apply strs_eqb_eq in E. tauto.
  - split; [discriminate |]. intros F. apply strs_eqb_eq in F. congruence.
Qed.

Lemma update_covers_row (sh : Sheet) :
  sheet_update_A1 sh (BASE_HEADER ++ skipn 18 (sh_row1 sh))
  = {| sh_row1 := BASE_HEADER ++ skipn 18 (sh_row1 sh); sh_appended := sh_appended sh |}.
Proof.
  unfold sheet_update_A1. f_equal.
  set (new_header := BASE_HEADER ++ skipn 18 (sh_row1 sh)).
  assert (Hlen : (List.length (sh_row1 sh) <= List.length new_header)%nat).
  { unfold new_header. rewrite length_app, base_header_length, length_skipn. lia. }
  rewrite (@skipn_all2 _ (List.length new_header) (sh_row1 sh) Hlen).
  apply app_nil_r.
Qed.

Lemma base_prefix (extra : list str) :
  firstn 18 (BASE_HEADER ++ extra) = BASE_HEADER /\
  skipn 18 (BASE_HEADER ++ extra) = extra.
Proof. split; reflexivity. Qed.

Lemma header_repaired (sh : Sheet) :
  let '(sh', (header, indices)) := ensure_header_and_get_indices sh in
  sh_row1 sh' = header /\
  firstn 18 header = BASE_HEADER /\
  skipn 18 header = skipn 18 (sh_row1 sh) /\
  sh_appended sh' = sh_appended sh /\
  ensure_header_and_get_indices sh' = (sh', (header, indices)) /\
  ensure_sheet_header (Some sh) = Some sh'.
Proof.
  unfold ensure_header_and_get_indices, ensure_sheet_header.
  destruct (new_header_for (sh_row1 sh)) as [new_header |] eqn:E.
  - apply new_header_for_some in E as [-> _]. rewrite update_covers_row.
    cbn [sh_row1 sh_appended].
    destruct (base_prefix (skipn 18 (sh_row1 sh))) as [Hf Hs].
    rewrite (proj2 (new_header_for_none _) Hf).
    repeat split; assumption.
  - pose proof (proj1 (new_header_for_none _) E) as Hf. rewrite E. repeat split. exact Hf.
Qed.

(** X12.  After [ensure_header_and_get_indices] the first row of the
    sheet is the header returned; it starts with the eighteen names of
    [BASE_HEADER], every column after the eighteenth and every appended
    row is as before, a second call changes nothing, and
    [ensure_sheet_header] leaves the sheet in the same state. *)
Theorem X12_header_is_repaired (sh : Sheet) :
  let '(sh', (header, indices)) := ensure_header_and_get_indices sh in
  sh_row1 sh' = header /\
  firstn 18 header = BASE_HEADER /\
  skipn 18 header = skipn 18 (sh_row1 sh) /\
  sh_appended sh' = sh_appended sh /\
  ensure_header_and_get_indices sh' = (sh', (header, indices)) /\
  ensure_sheet_header (Some sh) = Some sh'.
Proof. exact (header_repaired sh). Qed.

(** ** The index of a column *)

Lemma combine_seq_snoc (l : list str) (x : str) : forall start,
  combine (seq start (List.length (l ++ [x]))) (l ++ [x])
  = combine (seq start (List.length l)) l ++ [((start + List.length l)%nat, x)].
Proof.
  induction l as [| y l IH]; intros start; simpl.
  - now rewrite Nat.add_0_r.
  - rewrite IH. now rewrite Nat.add_succ_r.
Qed.

Lemma header_indices_snoc (l : list str) (x : str) :
  header_indices (l ++ [x]) = dict_set (header_indices l) x (List.length l + 1)%nat.
Proof.
  unfold header_indices. rewrite combine_seq_snoc, fold_left_app. reflexivity.
Qed.

(** X13.  The index map built from a header has an entry exactly for
    the names that occur in the header, and the entry of a name is the
    1-based position of its last occurrence. *)
Theorem X13_header_indices (header : list str) (h : str) :
  (In h header <-> exists i, dict_get (header_indices header) h = Some i) /\
  forall i, dict_get (header_indices header) h = Some i ->
    (1 <= i <= List.length header)%nat /\
    nth_error header (i - 1) = Some h /\
    forall j, (i <= j)%nat -> nth_error header j <> Some h.
Proof.
  induction header as [| x l IH] using rev_ind.
  - split; [split; [intros [] | intros [i H]; discriminate H] | intros i H; discriminate H].
  - destruct IH as [IH1 IH2]. rewrite header_indices_snoc.
    destruct (str_eqb x h) eqn:E.
    + apply str_eqb_eq in E. subst x. rewrite dict_get_set_same. split.
      * split; [eauto | intros _; apply in_or_app; right; now left].
      * intros i H. inversion H; subst; clear H. rewrite length_app. simpl.
        split; [lia |]. split.
        -- replace (List.length l + 1 - 1)%nat with (List.length l) by lia.
           rewrite nth_error_app2 by lia. now rewrite Nat.sub_diag.
        -- intros j Hj F.
           assert (Hlt : (j < List.length (l ++ [h]))%nat)
             by (apply nth_error_Some; congruence).
           rewrite length_app in Hlt. simpl in Hlt. lia.
    + assert (Hne : x <> h) by (intros ->; now rewrite str_eqb_refl in E).
      rewrite (dict_get_set_other _ _ _ _ Hne). split.
      * rewrite <- IH1. rewrite in_app_iff. simpl. intuition congruence.
      * intros i H. destruct (IH2 i H) as (Hr & Hn & Hl). rewrite length_app. simpl.
        split; [lia |]. split.
        -- rewrite nth_error_app1 by lia. exact Hn.
        -- intros j Hj F. destruct (Nat.lt_ge_cases j (List.length l)) as [Hlt | Hge].
           ++ rewrite nth_error_app1 in F by lia. exact (Hl j Hj F).
           ++ rewrite nth_error_app2 in F by lia.
              destruct (j - List.length l)%nat as [| k]; simpl in F.
              ** congruence.
              ** destruct k; discriminate F.
Qed.

Lemma X13_header_indices_witness :
  (1 <= 6 <= List.length BASE_HEADER)%nat /\
  nth_error BASE_HEADER (6 - 1) = Some (u "score").
Proof.
  destruct (proj2 (X13_header_indices BASE_HEADER (u "score")) 6%nat eq_refl)
    as (Hr & Hn & _).
  exact (conj Hr Hn).
Defined.

(** ** The row of a result *)

Lemma blank_row_map (header : list str) : forall d,
  (forall k v, dict_get d k = Some v -> v = CStr []) ->
  forall k v,
    dict_get (fold_left (fun d h => dict_set d h (CStr [])) header d) k = Some v ->
    v = CStr [].
Proof.
  induction header as [| h header IH]; intros d Hd k v; [apply Hd |].
  cbn [fold_left]. apply IH. intros k' v' H.
  destruct (str_eqb h k') eqn:E.
  - apply str_eqb_eq in E. subst. rewrite dict_get_set_same in H. congruence.
  - rewrite dict_get_set_other in H; [now apply (Hd k') |].
    intros ->. now rewrite str_eqb_refl in E.
Qed.

Ltac other_column :=
  rewrite dict_get_set_other by (intros F; vm_compute in F; discriminate F).

Ltac read_column :=
  unfold cell_get, result_row_map; repeat other_column;
  rewrite dict_get_set_same; reflexivity.

Ltac not_base H :=
  let F := fresh in
  intros F; apply H; rewrite <- F; unfold BASE_HEADER; cbn [map In];
  repeat (first [left; reflexivity | right]).

Section SaveResultFacts.

Variable json_dumps : dict str -> str.

Lemma base_cells (header : list str) (now : str) (test : Test) (state : UserState)
    (result : GradingResult) :
  map (cell_get (result_row_map json_dumps header now test state result)) BASE_HEADER
  = [ CStr now;
      CStr (opt_str (us_student_name state));
      CStr (opt_str (us_group state));
      CStr (us_test_id state);
      CStr (t_title test);
      CNum (score result);
      CNum (max_score result);
      CNum (auto_score result);
      CStr (if manual_needed result then u "YES" else u "NO");
      CStr [];
      CStr [];
      CStr (json_dumps (us_answers state));
      CStr (answers_get (us_answers state) (u "q12"));
      CStr (answers_get (us_answers state) (u "q13"));
      CStr [];
      CStr [];
      CStr (str_of_int (us_telegram_id state));
      CStr [] ].
Proof.
  unfold BASE_HEADER. cbn [map].
  repeat (f_equal; [read_column |]). f_equal. read_column.
Qed.

Lemma extra_cell (header : list str) (now : str) (test : Test) (state : UserState)
    (result : GradingResult) (h : str) :
  ~ In h BASE_HEADER ->
  cell_get (result_row_map json_dumps header now test state result) h = CStr [].
Proof.
  intros Hn. unfold cell_get, result_row_map.
  repeat (rewrite dict_get_set_other by not_base Hn).
  destruct (dict_get _ h) as [v |] eqn:E; [| reflexivity].
  apply (blank_row_map header [] (fun k v H => ltac:(discriminate H)) h v E).
Qed.

Lemma saved_row_facts (sh : Sheet) (now : str) (test : Test) (state : UserState)
    (result : GradingResult) :
  save_result_to_sheet json_dumps None now test state result = None /\
  exists header row,
    save_result_to_sheet json_dumps (Some sh) now test state result
      = Some {| sh_row1 := header; sh_appended := sh_appended sh ++ [row] |} /\
    firstn 18 header = BASE_HEADER /\
    skipn 18 header = skipn 18 (sh_row1 sh) /\
    List.length row = List.length header /\
    firstn 18 row
    = [ CStr now;
        CStr (opt_str (us_student_name state));
        CStr (opt_str (us_group state));
        CStr (us_test_id state);
        CStr (t_title test);
        CNum (score result);
        CNum (max_score result);
        CNum (auto_score result);
        CStr (if manual_needed result then u "YES" else u "NO");
        CStr [];
        CStr [];
        CStr (json_dumps (us_answers state));
        CStr (answers_get (us_answers state) (u "q12"));
        CStr (answers_get (us_answers state) (u "q13"));
        CStr [];
        CStr [];
        CStr (str_of_int (us_telegram_id state));
        CStr [] ] /\
    forall j h, nth_error header j = Some h -> ~ In h BASE_HEADER ->
                nth_error row j = Some (CStr []).
Proof.
  split; [reflexivity |].
  pose proof (header_repaired sh) as H12. unfold save_result_to_sheet.
  destruct (ensure_header_and_get_indices sh) as [sh1 [header indices]].
  destruct H12 as (Hrow & Hf & Hs & Happ & _).
  exists header, (map (cell_get (result_row_map json_dumps header now test state result))
                      header).
  split; [| split; [exact Hf | split; [exact Hs | split; [apply length_map | split]]]].
  - unfold sheet_append_row. now rewrite Hrow, Happ.
  - rewrite <- (firstn_skipn 18 header) at 2. rewrite map_app, Hf.
    rewrite firstn_app, firstn_all2 by (rewrite length_map; reflexivity).
    rewrite length_map, base_header_length. cbn [Nat.sub firstn]. rewrite app_nil_r.
    apply base_cells.
  - intros j h Hj Hn. rewrite nth_error_map, Hj. cbn [option_map].
    now rewrite extra_cell.
Qed.

(** X14.  Without a sheet [save_result_to_sheet] does nothing.  With
    one, it repairs the header and appends one row with a cell for every
    column of the header: the first eighteen cells are, in this order,
    the time, the student name, the group, the test id and title, the
    score, the maximum, the automatic score, YES or NO for the manual
    flag, two empty cells, the answers as JSON, the raw answers to q12
    and q13, two empty cells, the telegram id and an empty cell; a
    later column whose name is none of the base names gets an empty
    cell.  Earlier rows are kept. *)
Theorem X14_saved_row (sh : Sheet) (now : str) (test : Test) (state : UserState)
    (result : GradingResult) :
  save_result_to_sheet json_dumps None now test state result = None /\
  exists header row,
    save_result_to_sheet json_dumps (Some sh) now test state result
      = Some {| sh_row1 := header; sh_appended := sh_appended sh ++ [row] |} /\
    firstn 18 header = BASE_HEADER /\
    skipn 18 header = skipn 18 (sh_row1 sh) /\
    List.length row = List.length header /\
    firstn 18 row
    = [ CStr now;
        CStr (opt_str (us_student_name state));
        CStr (opt_str (us_group state));
        CStr (us_test_id state);
        CStr (t_title test);
        CNum (score result);
        CNum (max_score result);
        CNum (auto_score result);
        CStr (if manual_needed result then u "YES" else u "NO");
        CStr [];
        CStr [];
        CStr (json_dumps (us_answers state));
        CStr (answers_get (us_answers state) (u "q12"));
        CStr (answers_get (us_answers state) (u "q13"));
        CStr [];
        CStr [];
        CStr (str_of_int (us_telegram_id state));
        CStr [] ] /\
    forall j h, nth_error header j = Some h -> ~ In h BASE_HEADER ->
                nth_error row j = Some (CStr []).
Proof. exact (saved_row_facts sh now test state result). Qed.

End SaveResultFacts.

(** * The report *)

Lemma grade_question_detail_matches (ucd : UnicodeData) q ans pts raw d m :
  grade_question ucd q ans pts = Ok (raw, d, m) -> detail_matches (q_type q) d = true.
Proof.
  unfold grade_question, detail_matches. intros H.
  destruct (str_eqb (q_type q) ty_single).
  { case_result. now inversion H. }
  destruct (str_eqb (q_type q) ty_matching).
  { repeat case_result. now inversion H. }
  destruct (str_eqb (q_type q) ty_tf_list).
  { repeat case_result. now inversion H. }
  destruct (str_eqb (q_type q) ty_ordering).
  { repeat case_result. now inversion H. }
  destruct (starts_with ty_free_text (q_type q)).
  - destruct (_ && _); [case_result |]; now inversion H.
  - now inversion H.
Qed.

Lemma join_or_empty_strs (l : list str) : exists o, join_or_empty (VStrs l) = Done o.
Proof. unfold join_or_empty. destruct (truthy (VStrs l)); simpl; eauto. Qed.

Lemma question_lines_ok (answers : dict str) (r : GradingResult) (q : Question)
    (d : detail) :
  dict_get (details r) (q_id q) = Some d ->
  detail_matches (q_type q) d = true ->
  exists lines,
    question_lines answers r q = Done lines /\
    List.length lines = lines_for (q_type q).
Proof.
  unfold question_lines, detail_matches, lines_for, detail_of. intros Hd Hm. rewrite Hd.
  destruct (str_eqb (q_type q) ty_single).
  { destruct d; try discriminate Hm. cbn. eauto. }
  destruct (str_eqb (q_type q) ty_matching).
  { destruct d; try discriminate Hm. cbn. eauto. }
  destruct (str_eqb (q_type q) ty_tf_list).
  { destruct d; try discriminate Hm. cbn -[join_or_empty].
    destruct (join_or_empty_strs student) as [o ->]. cbn. eauto. }
  destruct (str_eqb (q_type q) ty_ordering).
  { destruct d; try discriminate Hm. cbn -[join_or_empty].
    destruct (join_or_empty_strs student) as [o ->]. cbn. eauto. }
  destruct (starts_with ty_free_text (q_type q)).
  - destruct d; try discriminate Hm. cbn.
    destruct (0 <? keywords_total)%Z; cbn; eauto.
  - eauto.
Qed.

Lemma report_lines_ok (answers : dict str) (r : GradingResult) (qs : list Question) :
  (forall q, In q qs ->
     exists d, dict_get (details r) (q_id q) = Some d /\
               detail_matches (q_type q) d = true) ->
  exists lines,
    report_lines answers r qs = Done lines /\
    List.length lines = list_sum (map (fun q => lines_for (q_type q)) qs).
Proof.
  induction qs as [| q qs IH]; intros H; [exists []; split; reflexivity |].
  destruct (H q (or_introl eq_refl)) as (d & Hd & Hm).
  destruct (question_lines_ok answers r q d Hd Hm) as (l1 & E1 & L1).
  destruct (IH (fun q' Hin => H q' (or_intror Hin))) as (l2 & E2 & L2).
  exists (l1 ++ l2). cbn [report_lines]. rewrite E1. cbn [obind]. rewrite E2. cbn [obind].
  split; [reflexivity |]. rewrite length_app, L1, L2. reflexivity.
Qed.

Lemma graded_details_match (ucd : UnicodeData) (test : Test) (answers : dict str)
    (r : GradingResult) :
  NoDup (map q_id (t_questions test)) ->
  grade_answers ucd test answers = Ok r ->
  forall q, In q (t_questions test) ->
    exists d, dict_get (details r) (q_id q) = Some d /\
              detail_matches (q_type q) d = true.
Proof.
  unfold grade_answers. intros Hnd H q Hin. case_result.
  inversion H; subst; clear H. simpl.
  destruct (grade_loop_lookup ucd _ _ _ _ q E Hnd Hin) as (raw & d & Hg & _ & Hd).
  exists d. split; [exact Hd |]. exact (grade_question_detail_matches ucd _ _ _ _ _ _ Hg).
Qed.

(** X15.  For a test with unique question ids, building the report
    from the result of grading never fails on a missing key or a value
    of the wrong kind, and the report has two lines for a single-choice
    question and for one of an unrecognised type, three for a matching,
    a tf_list and a free-text question, and four for an ordering
    question. *)
Theorem X15_report_is_built (ucd : UnicodeData) (test : Test) (answers : dict str)
    (r : GradingResult) :
  NoDup (map q_id (t_questions test)) ->
  grade_answers ucd test answers = Ok r ->
  exists lines,
    report_lines answers r (t_questions test) = Done lines /\
    List.length lines
    = list_sum (map (fun q => lines_for (q_type q)) (t_questions test)).
Proof.
  intros Hnd H. apply report_lines_ok. exact (graded_details_match ucd _ _ _ Hnd H).
Qed.

Lemma X15_report_is_built_witness :
  exists lines,
    report_lines sample_answers sample_result (t_questions sample_test) = Done lines /\
    List.length lines = 17%nat.
Proof.
  exact (X15_report_is_built sample_ucd sample_test sample_answers sample_result
           sample_test_ids_nodup sample_graded).
Defined.

(** The uniqueness of the ids matters: the detail entry of the second
    question replaces that of the first, and the report of the first
    looks for a key the entry has not. *)
Lemma report_fails_on_clashing_ids :
  exists r,
    grade_answers sample_ucd clashing_test [(u "q1", u "a")] = Ok r /\
    report_lines [(u "q1", u "a")] r (t_questions clashing_test) = Fail KeyError.
Proof. eexists. split; vm_compute; reflexivity. Qed.

(** * The end of a test *)

Lemma states_get_set_same (s : states) (c : Z) (st : UserState) :
  states_get (states_set s c st) c = Some st.
Proof.
  induction s as [| [c' st'] s IH]; simpl.
  - now rewrite Z.eqb_refl.
  - destruct (Z.eqb c' c) eqn:E; simpl; now rewrite E.
Qed.

Lemma states_get_set_other (s : states) (c c0 : Z) (st : UserState) :
  c <> c0 -> states_get (states_set s c st) c0 = states_get s c0.
Proof.
  intros Hne. induction s as [| [c' st'] s IH]; simpl.
  - destruct (Z.eqb_spec c c0); [contradiction | reflexivity].
  - destruct (Z.eqb_spec c' c) as [-> | Hc]; simpl.
    + destruct (Z.eqb_spec c c0); [contradiction | reflexivity].
    + now rewrite IH.
Qed.

Lemma states_set_set (s : states) (c : Z) (a b : UserState) :
  states_set (states_set s c a) c b = states_set s c b.
Proof.
  induction s as [| [c' st'] s IH]; simpl.
  - now rewrite Z.eqb_refl.
  - destruct (Z.eqb c' c) eqn:E; simpl; rewrite E; [reflexivity | now rewrite IH].
Qed.

Lemma states_keys_set (s : states) (c : Z) (st : UserState) (x : Z) :
  In x (map fst (states_set s c st)) <-> In x (map fst s) \/ x = c.
Proof.
  induction s as [| [c' st'] s IH]; simpl.
  - intuition.
  - destruct (Z.eqb_spec c' c) as [-> | Hc]; simpl; [intuition | rewrite IH; intuition].
Qed.

Lemma states_set_ok (s : states) (c : Z) (st : UserState) :
  states_ok s -> states_ok (states_set s c st).
Proof.
  unfold states_ok. induction s as [| [c' st'] s IH]; simpl; intros H.
  - constructor; [intros [] | constructor].
  - inversion H as [| ? ? Hk Hs]; subst.
    destruct (Z.eqb_spec c' c) as [-> | Hc]; simpl; [now constructor |].
    constructor; [| now apply IH].
    intros Hin. apply states_keys_set in Hin as [Hin | Heq]; [contradiction | congruence].
Qed.

Lemma states_get_none (s : states) (c : Z) :
  ~ In c (map fst s) -> states_get s c = None.
Proof.
  induction s as [| [c' st'] s IH]; simpl; intros H; [reflexivity |].
  destruct (Z.eqb_spec c' c) as [-> | Hc]; [exfalso; apply H; now left |].
  apply IH. intros Hin. apply H. now right.
Qed.

Lemma states_del_facts (s : states) (c : Z) :
  states_ok s ->
  states_ok (states_del s c) /\
  states_get (states_del s c) c = None /\
  forall c0, c0 <> c -> states_get (states_del s c) c0 = states_get s c0.
Proof.
  unfold states_ok. induction s as [| [c' st'] s IH]; simpl; intros H.
  - repeat split. constructor.
  - inversion H as [| ? ? Hk Hs]; subst. destruct (IH Hs) as (I1 & I2 & I3).
    destruct (Z.eqb_spec c' c) as [-> | Hc].
    + split; [exact Hs |]. split; [now apply states_get_none |].
      intros c0 Hne. destruct (Z.eqb_spec c c0); [congruence | reflexivity].
    + simpl. split.
      * constructor; [| exact I1]. intros Hin. apply Hk.
        clear - Hin. induction s as [| [a b] s IHs]; simpl in *; [exact Hin |].
        destruct (Z.eqb a c); simpl in *; tauto.
      * split.
        -- destruct (Z.eqb_spec c' c); [contradiction | exact I2].
        -- intros c0 Hne. destruct (Z.eqb c' c0); [reflexivity | now apply I3].
Qed.

Section FinishFacts.

Variable ucd : UnicodeData.
Variable json_dumps : dict str -> str.

Lemma finish_test_runs (env : Env) (w : World) (chat : Z) (state : UserState) :
  states_get (w_states w) chat = Some state ->
  NoDup (map q_id (t_questions (us_test state))) ->
  forallb answer_fits (t_questions (us_test state)) = true ->
  exists result lines,
    grade_answers ucd (us_test state) (us_answers state) = Ok result /\
    report_lines (us_answers state) result (t_questions (us_test state)) = Done lines /\
    finish_test ucd json_dumps env w chat
    = {| rp_world :=
           {| w_states := states_del (w_states w) chat;
              w_sheet :=
                fst (try_save_result json_dumps env (w_sheet w) (us_test state)
                       state result) |};
         rp_actions :=
           [SendMessage chat
              (MsgSummary lines (auto_score result) (max_score result)
                 (manual_needed result)
                 (snd (try_save_result json_dumps env (w_sheet w) (us_test state)
                         state result)))
              None];
         rp_error := None |}.
Proof.
  intros Hget Hnd Hfit.
  destruct (grade_answers_total ucd (us_test state) (us_answers state) Hfit) as [result Hg].
  destruct (report_lines_ok (us_answers state) result (t_questions (us_test state))
              (graded_details_match ucd _ _ _ Hnd Hg)) as (lines & Hl & _).
  exists result, lines. split; [exact Hg |]. split; [exact Hl |].
  unfold finish_test. rewrite Hget, Hg, Hl. reflexivity.
Qed.

(** What the attempt to save leaves behind. *)
Lemma try_save_result_facts (env : Env) (sh : Sheet) (test : Test)
    (state : UserState) (result : GradingResult) :
  let saving := try_save_result json_dumps env (Some sh) test state result in
  snd saving
  = env_row_values_ok env
    && match new_header_for (sh_row1 sh) with
       | Some _ => env_update_ok env
       | None => true
       end
    && env_append_row_ok env /\
  (snd saving = true ->
   exists header row,
     fst saving = Some {| sh_row1 := header; sh_appended := sh_appended sh ++ [row] |}) /\
  (snd saving = false ->
   exists sh',
     fst saving = Some sh' /\ sh_appended sh' = sh_appended sh /\
     (sh' = sh \/ sh' = fst (ensure_header_and_get_indices sh))).
Proof.
  cbn zeta. unfold try_save_result.
  destruct (proj2 (saved_row_facts json_dumps sh (env_now env) test state result))
    as (header & row & Hs & _).
  unfold ensure_header_and_get_indices.
  destruct (env_row_values_ok env); cbn [andb].
  - destruct (new_header_for (sh_row1 sh)) as [new_header |].
    + destruct (env_update_ok env); cbn [andb].
      * destruct (env_append_row_ok env); cbn [fst snd].
        -- split; [reflexivity |]. split; [eauto | discriminate].
        -- split; [reflexivity |]. split; [discriminate |].
           intros _. eexists. split; [reflexivity |]. split; [reflexivity | now right].
      * cbn [fst snd]. split; [reflexivity |]. split; [discriminate |].
        intros _. exists sh. split; [reflexivity |]. split; [reflexivity | now left].
    + destruct (env_append_row_ok env); cbn [fst snd].
      * split; [reflexivity |]. split; [eauto | discriminate].
      * split; [reflexivity |]. split; [discriminate |].
        intros _. exists sh. split; [reflexivity |]. split; [reflexivity | now left].
  - cbn [fst snd]. split; [reflexivity |]. split; [discriminate |].
    intros _. exists sh. split; [reflexivity |]. split; [reflexivity | now left].
Qed.

(** X16.  When a student has a state and the test is well typed with
    unique question ids, [finish_test] ends without an exception: it
    sends the student one message, the summary with the automatic score
    and the maximum of the grading result, and removes the state of
    this student and of nobody else.  Without a sheet the summary
    reports a saved result all the same.  With a sheet the result is
    reported as saved exactly when every call made to the sheet
    succeeds, and then one row is appended; when a call fails no row is
    appended and the sheet is as before, or has its header repaired
    when it is the appending that fails. *)
Theorem X16_finish_test (env : Env) (w : World) (chat : Z) (state : UserState) :
  states_ok (w_states w) ->
  states_get (w_states w) chat = Some state ->
  NoDup (map q_id (t_questions (us_test state))) ->
  forallb answer_fits (t_questions (us_test state)) = true ->
  exists result lines saved,
    grade_answers ucd (us_test state) (us_answers state) = Ok result /\
    let r := finish_test ucd json_dumps env w chat in
    rp_error r = None /\
    rp_actions r
    = [SendMessage chat
         (MsgSummary lines (auto_score result) (max_score result)
            (manual_needed result) saved) None] /\
    states_get (w_states (rp_world r)) chat = None /\
    (forall c, c <> chat ->
       states_get (w_states (rp_world r)) c = states_get (w_states w) c) /\
    (w_sheet w = None -> w_sheet (rp_world r) = None /\ saved = true) /\
    (forall sh, w_sheet w = Some sh ->
       saved
       = env_row_values_ok env
         && match new_header_for (sh_row1 sh) with
            | Some _ => env_update_ok env
            | None => true
            end
         && env_append_row_ok env /\
       (saved = true ->
        exists header row,
          w_sheet (rp_world r)
          = Some {| sh_row1 := header; sh_appended := sh_appended sh ++ [row] |}) /\
       (saved = false ->
        exists sh',
          w_sheet (rp_world r) = Some sh' /\ sh_appended sh' = sh_appended sh /\
          (sh' = sh \/ sh' = fst (ensure_header_and_get_indices sh)))).
Proof.
  intros Hok Hget Hnd Hfit.
  destruct (finish_test_runs env w chat state Hget Hnd Hfit)
    as (result & lines & Hg & _ & Hf).
  exists result, lines,
    (snd (try_save_result json_dumps env (w_sheet w) (us_test state) state result)).
  split; [exact Hg |]. rewrite Hf. cbn [rp_error rp_actions rp_world w_states w_sheet].
  destruct (states_del_facts (w_states w) chat Hok) as (_ & Hd1 & Hd2).
  split; [reflexivity |]. split; [reflexivity |]. split; [exact Hd1 |].
  split; [exact Hd2 |]. split.
  - intros ->. split; reflexivity.
  - intros sh ->.
    exact (try_save_result_facts env sh (us_test state) state result).
Qed.

End FinishFacts.

(** * The conversation *)

Lemma text_of_message (t : str) :
  match t with [] => [] | _ :: _ => strip t end = strip t.
Proof. destruct t; reflexivity. Qed.

Section ConversationFacts.

Variable ucd : UnicodeData.
Variable json_dumps : dict str -> str.

Lemma text_at_name (env : Env) (w : World) (chat : Z) (st : UserState) (t : str) :
  states_get (w_states w) chat = Some st ->
  us_stage st = GetName ->
  handle_text_message ucd json_dumps env w chat (Some t)
  = {| rp_world :=
         with_states w
           (states_set (w_states w) chat
              (state_with st GetGroup (us_index st) (us_answers st)
                 (Some (strip t)) (us_group st)));
       rp_actions := [SendMessage chat MsgAskGroup None];
       rp_error := None |}.
Proof.
  intros Hget Hst. unfold handle_text_message. rewrite Hget, Hst, text_of_message.
  reflexivity.
Qed.

Lemma text_at_group (env : Env) (w : World) (chat : Z) (st : UserState) (t : str)
    (q : Question) (sent : list action) :
  states_get (w_states w) chat = Some st ->
  us_stage st = GetGroup ->
  nth_error (t_questions (us_test st)) 0 = Some q ->
  send_question_to_user chat q = Done sent ->
  handle_text_message ucd json_dumps env w chat (Some t)
  = {| rp_world :=
         with_states w
           (states_set (w_states w) chat
              (state_with st Asking 0 (us_answers st)
                 (us_student_name st) (Some (strip t))));
       rp_actions := SendMessage chat (MsgBegin (t_title (us_test st))) None :: sent;
       rp_error := None |}.
Proof.
  intros Hget Hst Hq Hs. unfold handle_text_message.
  rewrite Hget, Hst, text_of_message, Hq, Hs. reflexivity.
Qed.

Lemma text_at_question (env : Env) (w : World) (chat : Z) (st : UserState) (t : str)
    (q : Question) :
  states_get (w_states w) chat = Some st ->
  us_stage st = Asking ->
  nth_error (t_questions (us_test st)) (us_index st) = Some q ->
  handle_text_message ucd json_dumps env w chat (Some t)
  = next_question ucd json_dumps env
      (with_states w
         (states_set (w_states w) chat
            (state_with st Asking (S (us_index st))
               (dict_set (us_answers st) (q_id q) (strip t))
               (us_student_name st) (us_group st))))
      chat
      (state_with st Asking (S (us_index st))
         (dict_set (us_answers st) (q_id q) (strip t))
         (us_student_name st) (us_group st))
      [].
Proof.
  intros Hget Hst Hq. unfold handle_text_message.
  rewrite Hget, Hst, text_of_message, Hq. reflexivity.
Qed.

Lemma with_states_again (w : World) (a b : states) :
  with_states (with_states w a) b = with_states w b.
Proof. reflexivity. Qed.

Lemma asking_run (env : Env) (w : World) (chat : Z) (st0 : UserState)
    (nm gr : option str) :
  forall (rest pre : list Question) (k : nat) (A : dict str) (texts : list str)
         (s : states),
    t_questions (us_test st0) = pre ++ rest ->
    k = List.length pre ->
    rest <> [] ->
    forallb (can_send chat) (tl rest) = true ->
    List.length texts = List.length rest ->
    feed_texts ucd json_dumps env
      (with_states w (states_set s chat (state_with st0 Asking k A nm gr))) chat texts
    = let fin :=
        finish_test ucd json_dumps env
          (with_states w
             (states_set s chat
                (state_with st0 Asking (k + List.length rest)
                   (record_answers rest texts A) nm gr))) chat in
      {| rp_world := rp_world fin;
         rp_actions := flat_map (sent_for chat) (tl rest) ++ rp_actions fin;
         rp_error := rp_error fin |}.
Proof.
  induction rest as [| q rest IH]; intros pre k A texts s Hqs Hk Hne Hsend Hlen;
    [contradiction |].
  destruct texts as [| t ts]; [discriminate |].
  assert (Hq : nth_error (t_questions (us_test st0)) k = Some q).
  { rewrite Hqs, Hk, nth_error_app2, Nat.sub_diag by lia. reflexivity. }
  cbn [feed_texts].
  rewrite (text_at_question env _ chat (state_with st0 Asking k A nm gr) t q);
    [ | apply states_get_set_same | reflexivity | exact Hq ].
  rewrite with_states_again.
  change (w_states (with_states w ?x)) with x.
  rewrite states_set_set.
  change (state_with (state_with st0 Asking k A nm gr) Asking
            (S (us_index (state_with st0 Asking k A nm gr)))
            (dict_set (us_answers (state_with st0 Asking k A nm gr)) (q_id q) (strip t))
            (us_student_name (state_with st0 Asking k A nm gr))
            (us_group (state_with st0 Asking k A nm gr)))
    with (state_with st0 Asking (S k) (dict_set A (q_id q) (strip t)) nm gr).
  unfold next_question.
  change (us_index (state_with st0 Asking (S k) (dict_set A (q_id q) (strip t)) nm gr))
    with (S k).
  change (us_test (state_with st0 Asking (S k) (dict_set A (q_id q) (strip t)) nm gr))
    with (us_test st0).
  rewrite Hqs, length_app.
  destruct rest as [| q' rest'].
  - destruct ts; [| discriminate].
    cbn [List.length].
    destruct (Nat.ltb_spec (S k) (List.length pre + 1)) as [Hlt | _]; [lia |].
    replace (k + 1)%nat with (S k) by lia.
    cbn [record_answers combine fold_left fst snd tl flat_map app rp_world rp_actions
         rp_error].
    destruct (rp_error (finish_test ucd json_dumps env _ chat)) eqn:E.
    + reflexivity.
    + cbn [feed_texts rp_world rp_actions rp_error]. rewrite app_nil_r. reflexivity.
  - cbn [List.length].
    destruct (Nat.ltb_spec (S k) (List.length pre + S (S (List.length rest'))))
      as [_ | Hge]; [| lia].
    assert (Hq' : nth_error (pre ++ q :: q' :: rest') (S k) = Some q').
    { rewrite Hk, nth_error_app2 by lia.
      replace (S (List.length pre) - List.length pre)%nat with 1%nat by lia.
      reflexivity. }
    rewrite Hq'.
    cbn [tl forallb] in Hsend. apply andb_prop in Hsend as [Hs1 Hs2].
    unfold can_send in Hs1.
    cbn [tl flat_map]. unfold sent_for at 1.
    destruct (send_question_to_user chat q') as [sent |] eqn:Es; [| discriminate].
    cbn [rp_world rp_actions rp_error app].
    rewrite (IH (pre ++ [q]) (S k) (dict_set A (q_id q) (strip t)) ts s).
    + cbn [rp_world rp_actions rp_error tl].
      replace (S k + List.length (q' :: rest'))%nat
        with (k + S (S (List.length rest')))%nat by (cbn [List.length]; lia).
      cbn [record_answers combine fold_left fst snd].
      rewrite <- app_assoc. reflexivity.
    + rewrite Hqs, <- app_assoc. reflexivity.
    + rewrite length_app. cbn [List.length]. lia.
    + discriminate.
    + exact Hs2.
    + cbn [List.length] in Hlen |- *. lia.
Qed.

(** X17.  A student whose state waits for the name sends the name, the
    group and one text for each question.  When every question can be
    sent, the bot asks for the group, announces the test, sends the
    questions in order, each once, and then runs [finish_test] on a state
    that holds the stripped name and group and, under the id of each
    question, the stripped text sent for it. *)
Theorem X17_conversation (env : Env) (w : World) (chat : Z) (st : UserState)
    (name group : str) (answers : list str) :
  states_get (w_states w) chat = Some st ->
  us_stage st = GetName ->
  t_questions (us_test st) <> [] ->
  forallb (can_send chat) (t_questions (us_test st)) = true ->
  List.length answers = List.length (t_questions (us_test st)) ->
  let final :=
    state_with st Asking (List.length (t_questions (us_test st)))
      (record_answers (t_questions (us_test st)) answers (us_answers st))
      (Some (strip name)) (Some (strip group)) in
  let fin :=
    finish_test ucd json_dumps env
      (with_states w (states_set (w_states w) chat final)) chat in
  let r := feed_texts ucd json_dumps env w chat (name :: group :: answers) in
  rp_world r = rp_world fin /\
  rp_error r = rp_error fin /\
  rp_actions r
  = SendMessage chat MsgAskGroup None
    :: SendMessage chat (MsgBegin (t_title (us_test st))) None
    :: flat_map (sent_for chat) (t_questions (us_test st)) ++ rp_actions fin.
Proof.
  intros Hget Hst Hne Hsend Hlen.
  destruct (t_questions (us_test st)) as [| q qs] eqn:Hqs; [contradiction |].
  cbn [forallb] in Hsend. apply andb_prop in Hsend as [Hs1 Hs2].
  unfold can_send in Hs1.
  destruct (send_question_to_user chat q) as [sent |] eqn:Es; [| discriminate].
  cbn zeta. cbn [feed_texts].
  rewrite (text_at_name env w chat st name Hget Hst).
  cbn [rp_world rp_actions rp_error].
  rewrite (text_at_group env _ chat
             (state_with st GetGroup (us_index st) (us_answers st)
                (Some (strip name)) (us_group st)) group q sent);
    [ | apply states_get_set_same | reflexivity
      | cbn [state_with us_test]; rewrite Hqs; reflexivity | exact Es ].
  cbn [rp_world rp_actions rp_error].
  rewrite with_states_again.
  change (w_states (with_states w ?x)) with x.
  rewrite states_set_set.
  change (state_with
            (state_with st GetGroup (us_index st) (us_answers st)
               (Some (strip name)) (us_group st)) Asking 0
            (us_answers
               (state_with st GetGroup (us_index st) (us_answers st)
                  (Some (strip name)) (us_group st)))
            (us_student_name
               (state_with st GetGroup (us_index st) (us_answers st)
                  (Some (strip name)) (us_group st)))
            (Some (strip group)))
    with (state_with st Asking 0 (us_answers st) (Some (strip name))
            (Some (strip group))).
  rewrite (asking_run env w chat st (Some (strip name)) (Some (strip group))
             (q :: qs) [] 0%nat (us_answers st) answers (w_states w));
    [ | exact Hqs | reflexivity | discriminate | exact Hs2 | exact Hlen ].
  cbn zeta. cbn [rp_world rp_actions rp_error tl Nat.add flat_map us_test state_with
                 t_title].
  unfold sent_for at 2. rewrite Es.
  repeat split. rewrite <- app_assoc. reflexivity.
Qed.


(** ** No [IndexError] *)

Lemma no_index_obind {A B} (r : outcome A) (k : A -> outcome B) :
  no_index r -> (forall a, no_index (k a)) -> no_index (obind r k).
Proof.
  unfold no_index. intros Hr Hk. destruct r as [a | e]; simpl; [apply Hk |].
  intros E. apply Hr. inversion E. reflexivity.
Qed.

Lemma no_index_done {A} (a : A) : no_index (Done a).
Proof. discriminate. Qed.

Lemma no_index_field (fs : list (string * pyval)) (k : string) : no_index (field fs k).
Proof. unfold field. destruct (field_get fs k); discriminate. Qed.

Lemma no_index_detail_of (d : dict detail) (qid : str) : no_index (detail_of d qid).
Proof. unfold detail_of. destruct (dict_get d qid); discriminate. Qed.

Lemma no_index_round_value (v : pyval) : no_index (round_value v).
Proof. destruct v; discriminate. Qed.

Lemma no_index_positive (v : pyval) : no_index (positive v).
Proof. destruct v; discriminate. Qed.

Lemma no_index_join_blank (v : pyval) : no_index (join_blank v).
Proof. destruct v; discriminate. Qed.

Lemma no_index_join_or_empty (v : pyval) : no_index (join_or_empty v).
Proof.
  unfold join_or_empty. destruct (truthy v); [| discriminate].
  apply no_index_obind; [apply no_index_join_blank | discriminate].
Qed.

Lemma no_index_py_chr (n : N) : no_index (py_chr n).
Proof. unfold py_chr. destruct (n <=? 1114111)%N; discriminate. Qed.

Ltac no_index_step :=
  first [ apply no_index_done | apply no_index_field | apply no_index_detail_of
        | apply no_index_round_value | apply no_index_positive
        | apply no_index_join_blank | apply no_index_join_or_empty
        | apply no_index_py_chr
        | apply no_index_obind; [| intros ?] ].

Lemma no_index_option_buttons (options : list str) :
  forall i, no_index (option_buttons i options).
Proof.
  induction options as [| opt r IH]; intros i; cbn [option_buttons].
  - apply no_index_done.
  - repeat no_index_step. apply IH.
Qed.

Lemma no_index_letter_labels (l : list str) :
  forall i, no_index (letter_labels i l).
Proof.
  induction l as [| x r IH]; intros i; cbn [letter_labels].
  - apply no_index_done.
  - repeat no_index_step. apply IH.
Qed.

Lemma no_index_question_text_fields (q : Question) : no_index (question_text_fields q).
Proof.
  unfold question_text_fields.
  repeat match goal with
         | |- no_index (if ?b then _ else _) => destruct b
         | |- no_index (match ?x with Some _ => _ | None => _ end) => destruct x
         | |- no_index (Fail KeyError) => discriminate
         | |- no_index (letter_labels _ _) => apply no_index_letter_labels
         | _ => no_index_step
         end.
Qed.

Lemma no_index_send_question (chat : Z) (q : Question) :
  no_index (send_question_to_user chat q).
Proof.
  unfold send_question_to_user, make_inline_keyboard_for_options.
  repeat match goal with
         | |- no_index (if ?b then _ else _) => destruct b
         | |- no_index (match ?x with Some _ => _ | None => _ end) => destruct x
         | |- no_index (Fail KeyError) => discriminate
         | |- no_index (option_buttons _ _) => apply no_index_option_buttons
         | |- no_index (question_text_fields _) => apply no_index_question_text_fields
         | _ => no_index_step
         end.
Qed.

Lemma no_index_question_lines (answers : dict str) (r : GradingResult) (q : Question) :
  no_index (question_lines answers r q).
Proof.
  unfold question_lines.
  repeat match goal with
         | |- no_index (if ?b then _ else _) => destruct b
         | _ => no_index_step
         end.
Qed.

Lemma no_index_report_lines (answers : dict str) (r : GradingResult)
    (qs : list Question) :
  no_index (report_lines answers r qs).
Proof.
  induction qs as [| q qs IH]; cbn [report_lines].
  - apply no_index_done.
  - apply no_index_obind; [apply no_index_question_lines | intros lines].
    apply no_index_obind; [exact IH | intros rest; apply no_index_done].
Qed.

(** ** The order of the states *)

Lemma indexes_ok_set (s : states) (c : Z) (st : UserState) :
  indexes_ok s ->
  (us_index st < List.length (t_questions (us_test st)))%nat ->
  indexes_ok (states_set s c st).
Proof.
  intros Hs Hst c0 st0 Hget.
  destruct (Z.eq_dec c c0) as [<- | Hne].
  - rewrite states_get_set_same in Hget. now inversion Hget; subst.
  - rewrite states_get_set_other in Hget by exact Hne. exact (Hs c0 st0 Hget).
Qed.

Lemma indexes_ok_but_one (s : states) (c : Z) (st : UserState) :
  indexes_ok s ->
  forall c0 st0, c0 <> c -> states_get (states_set s c st) c0 = Some st0 ->
    (us_index st0 < List.length (t_questions (us_test st0)))%nat.
Proof.
  intros Hs c0 st0 Hne Hget.
  rewrite states_get_set_other in Hget by congruence. exact (Hs c0 st0 Hget).
Qed.

Lemma finish_test_order (env : Env) (w : World) (chat : Z) :
  states_ok (w_states w) ->
  (forall c st, c <> chat -> states_get (w_states w) c = Some st ->
     (us_index st < List.length (t_questions (us_test st)))%nat) ->
  keeps_order (finish_test ucd json_dumps env w chat).
Proof.
  intros Hok Hothers. unfold finish_test, keeps_order.
  destruct (states_get (w_states w) chat) as [state |] eqn:Hget.
  - destruct (grade_answers ucd (us_test state) (us_answers state)) as [result | e].
    + pose proof (no_index_report_lines (us_answers state) result
                    (t_questions (us_test state))) as Hrep.
      destruct (report_lines (us_answers state) result (t_questions (us_test state)))
        as [lines | e].
      * cbn [rp_world rp_error w_states].
        destruct (states_del_facts (w_states w) chat Hok) as (Hd0 & Hd1 & Hd2).
        split; [discriminate |]. split; [exact Hd0 |].
        intros _ c st Hc. destruct (Z.eq_dec c chat) as [-> | Hne].
        -- rewrite Hd1 in Hc. discriminate.
        -- rewrite Hd2 in Hc by exact Hne. exact (Hothers c st Hne Hc).
      * cbn [rp_world rp_error]. split; [| split; [exact Hok | discriminate]].
        intros H. apply Hrep. congruence.
    + cbn [rp_world rp_error]. split; [discriminate |]. split; [exact Hok | discriminate].
  - cbn [rp_world rp_error]. split; [discriminate |]. split; [exact Hok |].
    intros _ c st Hc. destruct (Z.eq_dec c chat) as [-> | Hne].
    + rewrite Hget in Hc. discriminate.
    + exact (Hothers c st Hne Hc).
Qed.

Lemma next_question_order (env : Env) (w : World) (chat : Z) (state : UserState)
    (before : list action) :
  states_ok (w_states w) ->
  states_get (w_states w) chat = Some state ->
  (forall c st, c <> chat -> states_get (w_states w) c = Some st ->
     (us_index st < List.length (t_questions (us_test st)))%nat) ->
  keeps_order (next_question ucd json_dumps env w chat state before).
Proof.
  intros Hok Hget Hothers. unfold next_question.
  destruct (Nat.ltb_spec (us_index state) (List.length (t_questions (us_test state))))
    as [Hlt | Hge].
  - destruct (nth_error (t_questions (us_test state)) (us_index state)) as [q |] eqn:Hq.
    + pose proof (no_index_send_question chat q) as Hsend.
      destruct (send_question_to_user chat q) as [sent | e]; unfold keeps_order;
        cbn [rp_world rp_error].
      * split; [discriminate |]. split; [exact Hok |].
        intros _ c st Hc. destruct (Z.eq_dec c chat) as [-> | Hne].
        -- rewrite Hget in Hc. now inversion Hc; subst.
        -- exact (Hothers c st Hne Hc).
      * split; [| split; [exact Hok | discriminate]].
        intros H. apply Hsend. congruence.
    + apply nth_error_None in Hq. lia.
  - destruct (finish_test_order env w chat Hok Hothers) as (H1 & H2 & H3).
    unfold keeps_order. cbn [rp_world rp_error]. auto.
Qed.

Lemma starts_with_prefix (p : str) :
  forall s, starts_with p s = true -> s = p ++ skipn (List.length p) s.
Proof.
  induction p as [| x p IH]; intros s H; [reflexivity |].
  destruct s as [| y s]; [discriminate |].
  cbn [starts_with] in H. apply andb_prop in H as [Hxy H].
  apply N.eqb_eq in Hxy. subst y.
  cbn [List.length skipn app]. f_equal. now apply IH.
Qed.

Lemma take_has_test_id (data : str) :
  starts_with (u "take::") data = true ->
  after_double_colon data = Some (skipn 6 data).
Proof.
  intros H. apply starts_with_prefix in H.
  change (List.length (u "take::")) with 6%nat in H.
  rewrite H at 1. reflexivity.
Qed.

(** X18.  The handlers keep [user_states] in order.  When every student
    is at a question of the test and every loaded test has a question,
    neither a text message nor a pressed button ends with an
    [IndexError], and after a handler that returns every student is
    again at a question of the test. *)
Theorem X18_handlers_keep_order (env : Env) (w : World) (chat : Z) :
  states_ok (w_states w) ->
  indexes_ok (w_states w) ->
  tests_nonempty (env_tests env) ->
  (forall text, keeps_order (handle_text_message ucd json_dumps env w chat text)) /\
  (forall call_id data from_user message_id,
     keeps_order (callback_query_handler ucd json_dumps env w chat call_id data
                    from_user message_id)).
Proof.
  intros Hok Hidx Htests.
  assert (Hsame : keeps_order {| rp_world := w; rp_actions := []; rp_error := None |})
    by (unfold keeps_order; cbn; repeat split; [discriminate | exact Hok | auto]).
  split.
  - intros text. unfold handle_text_message.
    destruct (states_get (w_states w) chat) as [state |] eqn:Hget.
    + pose proof (Hidx chat state Hget) as Hlt.
      destruct (us_stage state).
      * unfold keeps_order. cbn [rp_world rp_error with_states w_states].
        split; [discriminate |]. split; [now apply states_set_ok |].
        intros _. apply indexes_ok_set; [exact Hidx | exact Hlt].
      * destruct (nth_error (t_questions (us_test state)) 0) as [q |] eqn:Hq.
        -- pose proof (no_index_send_question chat q) as Hsend.
           destruct (send_question_to_user chat q) as [sent | e]; unfold keeps_order;
             cbn [rp_world rp_error with_states w_states].
           ++ split; [discriminate |]. split; [now apply states_set_ok |].
              intros _. apply indexes_ok_set; [exact Hidx |]. cbn. lia.
           ++ split; [| split; [now apply states_set_ok | discriminate]].
              intros H. apply Hsend. congruence.
        -- apply nth_error_None in Hq. lia.
      * destruct (nth_error (t_questions (us_test state)) (us_index state))
          as [q |] eqn:Hq.
        -- apply next_question_order.
           ++ cbn [with_states w_states]. now apply states_set_ok.
           ++ cbn [with_states w_states]. apply states_get_set_same.
           ++ cbn [with_states w_states]. intros c st Hne.
              apply indexes_ok_but_one; assumption.
        -- apply nth_error_None in Hq. lia.
    + unfold keeps_order. cbn [rp_world rp_error].
      split; [discriminate |]. split; [exact Hok | auto].
  - intros call_id data from_user message_id. unfold callback_query_handler.
    destruct (starts_with (u "take::") data) eqn:Htake.
    + rewrite (take_has_test_id data Htake).
      unfold start_test_for_user.
      destruct (dict_get (env_tests env) (skipn 6 data)) as [test |] eqn:Ht.
      * unfold keeps_order. cbn [rp_world rp_error with_states w_states].
        split; [discriminate |]. split; [now apply states_set_ok |].
        intros _. apply indexes_ok_set; [exact Hidx |]. cbn [us_index us_test].
        pose proof (Htests _ _ Ht) as Hne.
        destruct (t_questions test); [contradiction | cbn; lia].
      * unfold keeps_order. cbn [rp_world rp_error].
        split; [discriminate |]. split; [exact Hok | auto].
    + assert (Hunknown :
        keeps_order {| rp_world := w;
                       rp_actions := [AnswerCallback call_id CbUnknownButton];
                       rp_error := None |})
        by (unfold keeps_order; cbn; repeat split; [discriminate | exact Hok | auto]).
      destruct (states_get (w_states w) chat) as [state |] eqn:Hget; [| exact Hunknown].
      destruct (nth_error (t_questions (us_test state)) (us_index state)) as [q |];
        [| exact Hunknown].
      destruct (str_eqb (q_type q) ty_single && existsb (str_eqb data) button_letters);
        [| exact Hunknown].
      apply next_question_order.
      * cbn [with_states w_states]. now apply states_set_ok.
      * cbn [with_states w_states]. apply states_get_set_same.
      * cbn [with_states w_states]. intros c st Hne.
        apply indexes_ok_but_one; assumption.
Qed.


(** ** Buttons *)



Lemma option_buttons_built (options : list str) :
  forall i0,
    (N.of_nat (i0 + List.length options) <= 1114015)%N ->
    exists kb,
      option_buttons i0 options = Done kb /\
      List.length kb = List.length options /\
      forall j opt, nth_error options j = Some opt ->
        nth_error kb j
        = Some {| b_text := [(97 + N.of_nat (i0 + j))%N] ++ u ". " ++ opt;
                  b_callback_data := [(97 + N.of_nat (i0 + j))%N] |}.
Proof.
  induction options as [| o r IH]; intros i0 Hle.
  - exists []. repeat split. intros [| j] opt H; discriminate.
  - cbn [List.length] in Hle.
    destruct (IH (S i0)) as (kb & Hkb & Hlen & Hnth); [lia |].
    cbn [option_buttons]. unfold py_chr.
    destruct (N.leb_spec (97 + N.of_nat i0) 1114111) as [_ | Hgt]; [| lia].
    cbn [obind]. rewrite Hkb. cbn [obind].
    eexists. split; [reflexivity |]. split; [cbn [List.length]; now rewrite Hlen |].
    intros [| j] opt H.
    + cbn in H. inversion H; subst. rewrite Nat.add_0_r. reflexivity.
    + cbn [nth_error] in H |- *. rewrite (Hnth j opt H).
      replace (S i0 + j)%nat with (i0 + S j)%nat by lia. reflexivity.
Qed.

Lemma letter_accepted (i : nat) :
  existsb (str_eqb [(97 + N.of_nat i)%N]) button_letters = (i <? 8)%nat.
Proof.
  do 8 (destruct i as [| i]; [reflexivity |]).
  change button_letters
    with [[97]; [98]; [99]; [100]; [101]; [102]; [103]; [104]]%N.
  cbn [existsb str_eqb]. unfold char_eqb.
  repeat match goal with
         | |- context [N.eqb ?a ?b] =>
             rewrite (proj2 (N.eqb_neq a b)) by lia
         end.
  reflexivity.
Qed.

Lemma one_letter_not_take (c : char) : starts_with (u "take::") [c] = false.
Proof.
  change (u "take::") with [116; 97; 107; 101; 58; 58]%N.
  cbn [starts_with]. apply andb_false_r.
Qed.

(** X20.  The keyboard of a question has one button for each option, in
    order; button [i] carries the letter [chr(97 + i)] as its text prefix
    and as its callback data.  When the student is at a question of type
    single, pressing one of the first eight buttons records its letter
    as the answer and moves on, in whatever stage the conversation is;
    pressing a later button is answered as an unknown button and changes
    nothing. *)
Theorem X20_option_buttons (env : Env) (w : World) (chat : Z) (call_id : str)
    (from_user : TgUser) (message_id : Z) (st : UserState) (q : Question)
    (options : list str) (i : nat) (opt : str) :
  (N.of_nat (List.length options) <= 1114015)%N ->
  nth_error options i = Some opt ->
  states_get (w_states w) chat = Some st ->
  nth_error (t_questions (us_test st)) (us_index st) = Some q ->
  q_type q = ty_single ->
  let data := [(97 + N.of_nat i)%N] in
  let st' := state_with st (us_stage st) (S (us_index st))
               (dict_set (us_answers st) (q_id q) data)
               (us_student_name st) (us_group st) in
  exists kb,
    make_inline_keyboard_for_options options = Done kb /\
    List.length kb = List.length options /\
    nth_error kb i = Some {| b_text := data ++ u ". " ++ opt;
                             b_callback_data := data |} /\
    callback_query_handler ucd json_dumps env w chat call_id data from_user message_id
    = if (i <? 8)%nat then
        next_question ucd json_dumps env
          (with_states w (states_set (w_states w) chat st')) chat st'
          [AnswerCallback call_id (CbChosen data); DeleteMessage chat message_id]
      else
        {| rp_world := w; rp_actions := [AnswerCallback call_id CbUnknownButton];
           rp_error := None |}.
Proof.
  intros Hle Hopt Hget Hq Hty. cbn zeta.
  destruct (option_buttons_built options 0 Hle) as (kb & Hkb & Hlen & Hnth).
  exists kb. split; [exact Hkb |]. split; [exact Hlen |].
  split; [exact (Hnth i opt Hopt) |].
  unfold callback_query_handler.
  rewrite one_letter_not_take, Hget, Hq, Hty, letter_accepted.
  change (str_eqb ty_single ty_single) with true. cbn [andb].
  destruct (i <? 8)%nat; reflexivity.
Qed.

(** ** A test that cannot be graded *)

(** X21.  When the text for the last question arrives and grading the
    answers raises, the handler ends with that exception before anything
    is sent or saved, and the state of the student stays, past the last
    question.  Every further text message of the student then ends with
    an [IndexError] and changes nothing. *)
Theorem X21_stuck_after_failed_grading (env : Env) (w : World) (chat : Z)
    (st : UserState) (q : Question) (text : str) (e : exn) :
  states_get (w_states w) chat = Some st ->
  us_stage st = Asking ->
  nth_error (t_questions (us_test st)) (us_index st) = Some q ->
  S (us_index st) = List.length (t_questions (us_test st)) ->
  grade_answers ucd (us_test st) (dict_set (us_answers st) (q_id q) (strip text))
  = Raise e ->
  let r := handle_text_message ucd json_dumps env w chat (Some text) in
  rp_error r = Some (GradingError e) /\
  rp_actions r = [] /\
  w_sheet (rp_world r) = w_sheet w /\
  states_get (w_states (rp_world r)) chat
  = Some (state_with st Asking (List.length (t_questions (us_test st)))
            (dict_set (us_answers st) (q_id q) (strip text))
            (us_student_name st) (us_group st)) /\
  forall text',
    handle_text_message ucd json_dumps env (rp_world r) chat text'
    = {| rp_world := rp_world r; rp_actions := []; rp_error := Some IndexError |}.
Proof.
  intros Hget Hst Hq Hlast Hgrade. cbn zeta.
  rewrite (text_at_question env w chat st text q Hget Hst Hq).
  set (st' := state_with st Asking (S (us_index st))
                (dict_set (us_answers st) (q_id q) (strip text))
                (us_student_name st) (us_group st)).
  set (w' := with_states w (states_set (w_states w) chat st')).
  assert (Hget' : states_get (w_states w') chat = Some st')
    by apply states_get_set_same.
  assert (Hr : next_question ucd json_dumps env w' chat st' []
               = {| rp_world := w'; rp_actions := [];
                    rp_error := Some (GradingError e) |}).
  { unfold next_question.
    change (us_index st') with (S (us_index st)).
    change (us_test st') with (us_test st).
    rewrite Hlast, Nat.ltb_irrefl.
    unfold finish_test. rewrite Hget'.
    change (us_test st') with (us_test st).
    change (us_answers st')
      with (dict_set (us_answers st) (q_id q) (strip text)).
    rewrite Hgrade. reflexivity. }
  rewrite Hr. cbn [rp_world rp_actions rp_error].
  split; [reflexivity |]. split; [reflexivity |]. split; [reflexivity |].
  split; [rewrite Hget'; unfold st'; now rewrite Hlast |].
  intros text'. unfold handle_text_message. rewrite Hget'.
  change (us_stage st') with Asking.
  change (us_index st') with (S (us_index st)).
  change (us_test st') with (us_test st).
  rewrite (proj2 (nth_error_None (t_questions (us_test st)) (S (us_index st))))
    by lia.
  reflexivity.
Qed.


(** ** Sending a question *)

Lemma letter_labels_built (l : list str) :
  forall i0,
    (N.of_nat (i0 + List.length l) <= 1114015)%N ->
    exists cs, letter_labels i0 l = Done cs.
Proof.
  induction l as [| x r IH]; intros i0 Hle; [now exists [] |].
  cbn [List.length] in Hle.
  destruct (IH (S i0)) as (cs & Hcs); [lia |].
  cbn [letter_labels]. unfold py_chr.
  destruct (N.leb_spec (97 + N.of_nat i0) 1114111) as [_ | Hgt]; [| lia].
  cbn [obind]. rewrite Hcs. cbn [obind]. eauto.
Qed.

Lemma letter_labels_bound (l : list str) :
  forall i0 cs,
    letter_labels i0 l = Done cs ->
    l = [] \/ (N.of_nat (i0 + List.length l) <= 1114015)%N.
Proof.
  induction l as [| x r IH]; intros i0 cs H; [now left |]. right.
  cbn [letter_labels] in H. unfold py_chr in H.
  destruct (N.leb_spec (97 + N.of_nat i0) 1114111) as [Hle | _]; [| discriminate H].
  cbn [obind] in H.
  destruct (letter_labels (S i0) r) as [rest |] eqn:Er; [| discriminate H].
  destruct (IH (S i0) rest Er) as [-> | Hb]; cbn [List.length]; lia.
Qed.

Lemma option_buttons_labels (l : list str) :
  forall i0 kb, option_buttons i0 l = Done kb ->
    exists cs, letter_labels i0 l = Done cs.
Proof.
  induction l as [| x r IH]; intros i0 kb H; [now exists [] |].
  cbn [option_buttons letter_labels] in *. unfold py_chr in *.
  destruct (97 + N.of_nat i0 <=? 1114111)%N; [| discriminate H].
  cbn [obind] in *.
  destruct (option_buttons (S i0) r) as [rest |] eqn:Er; [| discriminate H].
  destruct (IH (S i0) rest Er) as (cs & ->). cbn [obind]. eauto.
Qed.

Lemma same_tag (a b : str) : a = b -> str_eqb a b = true.
Proof. intros ->. apply str_eqb_refl. Qed.

(** X22.  A question is sent exactly when the fields of its type are
    there and its enumerations are not longer than [chr] allows: the
    options of a single or ordering question, the left and right lists of
    a matching question, the items of a tf_list question.  It is then
    sent as one message, with a keyboard exactly when the type is
    single. *)
Theorem X22_question_is_sent (chat : Z) (q : Question) :
  (text_fields_present q ->
   exists kb,
     send_question_to_user chat q = Done [SendMessage chat (MsgQuestion q) kb] /\
     (kb <> None <-> q_type q = ty_single)) /\
  (forall sent, send_question_to_user chat q = Done sent -> text_fields_present q).
Proof.
  unfold text_fields_present, send_question_to_user, question_text_fields. split.
  - intros (Hopts & Hsides & Hitems).
    destruct (str_eqb (q_type q) ty_single) eqn:E1.
    + apply str_eqb_eq in E1.
      destruct (Hopts (or_introl E1)) as (options & Ho & Hle). rewrite Ho.
      destruct (option_buttons_built options 0 Hle) as (kb & Hkb & _).
      destruct (letter_labels_built options 0 Hle) as (cs & Hcs).
      unfold make_inline_keyboard_for_options. rewrite Hkb, Hcs. cbn [obind].
      exists (Some kb). split; [reflexivity |].
      split; [intros _; exact E1 | discriminate].
    + assert (Hns : q_type q <> ty_single)
        by (intros E; apply str_eqb_eq in E; congruence).
      exists None.
      assert (Hiff : (@None (list button)) <> None <-> q_type q = ty_single)
        by (split; [intros H; now contradiction H | intros E; contradiction]).
      split; [| exact Hiff].
      destruct (str_eqb (q_type q) ty_matching) eqn:E2.
      { apply str_eqb_eq in E2.
        destruct (Hsides E2) as (items & Hl & Hle & Hr). rewrite Hl.
        destruct (letter_labels_built items 0 Hle) as (cs & ->). cbn [obind].
        destruct (q_right q); [reflexivity | contradiction]. }
      destruct (str_eqb (q_type q) ty_tf_list) eqn:E3.
      { apply str_eqb_eq in E3. specialize (Hitems E3).
        destruct (q_items q); [reflexivity | contradiction]. }
      destruct (str_eqb (q_type q) ty_ordering) eqn:E4; [| reflexivity].
      apply str_eqb_eq in E4.
      destruct (Hopts (or_intror E4)) as (options & Ho & Hle). rewrite Ho.
      destruct (letter_labels_built options 0 Hle) as (cs & ->). reflexivity.
  - intros sent H.
    assert (Hlen : forall l cs, letter_labels 0 l = Done cs ->
                     (N.of_nat (List.length l) <= 1114015)%N).
    { intros l cs Hl. destruct (letter_labels_bound l 0 cs Hl) as [-> | Hb];
        [cbn; lia | exact Hb]. }
    destruct (str_eqb (q_type q) ty_single) eqn:E1.
    + destruct (q_options q) as [options |] eqn:Ho; [| discriminate H].
      unfold make_inline_keyboard_for_options in H.
      destruct (option_buttons 0 options) as [kb |] eqn:Ek; [| discriminate H].
      destruct (option_buttons_labels options 0 kb Ek) as (cs & Hcs).
      apply str_eqb_eq in E1.
      repeat split.
      * intros _. exists options. split; [reflexivity | exact (Hlen _ _ Hcs)].
      * intros E. rewrite E1 in E. discriminate E.
      * intros E. rewrite E1 in E. discriminate E.
    + destruct (str_eqb (q_type q) ty_matching) eqn:E2.
      { destruct (q_left q) as [items |] eqn:Hl; [| discriminate H].
        destruct (letter_labels 0 items) as [cs |] eqn:Hcs; [| discriminate H].
        cbn [obind] in H.
        destruct (q_right q) as [rs |] eqn:Hr; [| discriminate H].
        apply str_eqb_eq in E2.
        repeat split.
        - intros [E | E]; rewrite E2 in E; discriminate E.
        - intros _. exists items.
          split; [reflexivity |]. split; [exact (Hlen _ _ Hcs) | discriminate].
        - intros E. rewrite E2 in E. discriminate E. }
      destruct (str_eqb (q_type q) ty_tf_list) eqn:E3.
      { destruct (q_items q) as [items |] eqn:Hi; [| discriminate H].
        apply str_eqb_eq in E3.
        repeat split.
        - intros [E | E]; rewrite E3 in E; discriminate E.
        - intros E. rewrite E3 in E. discriminate E.
        - intros _. discriminate. }
      destruct (str_eqb (q_type q) ty_ordering) eqn:E4.
      { destruct (q_options q) as [options |] eqn:Ho; [| discriminate H].
        destruct (letter_labels 0 options) as [cs |] eqn:Hcs; [| discriminate H].
        apply str_eqb_eq in E4.
        repeat split.
        - intros _. exists options. split; [reflexivity | exact (Hlen _ _ Hcs)].
        - intros E. rewrite E4 in E. discriminate E.
        - intros E. rewrite E4 in E. discriminate E. }
      repeat split.
      * intros [E | E]; apply same_tag in E; congruence.
      * intros E. apply same_tag in E. congruence.
      * intros E. apply same_tag in E. congruence.
Qed.

End ConversationFacts.

Lemma X22_question_is_sent_witness :
  exists kb,
    send_question_to_user 7
      (mkq "q1" "single" None (AnsStr (u "a")) None (Some [u "Paris"; u "London"]) None)
    = Done [SendMessage 7
              (MsgQuestion
                 (mkq "q1" "single" None (AnsStr (u "a")) None
                      (Some [u "Paris"; u "London"]) None)) kb] /\
    (kb <> None <->
     q_type (mkq "q1" "single" None (AnsStr (u "a")) None
                 (Some [u "Paris"; u "London"]) None) = ty_single).
Proof.
  apply (proj1 (X22_question_is_sent 7
           (mkq "q1" "single" None (AnsStr (u "a")) None
                (Some [u "Paris"; u "London"]) None))).
  repeat split.
  - intros _. exists [u "Paris"; u "London"]. split; [reflexivity |].
    vm_compute. discriminate.
  - intros H. vm_compute in H. discriminate.
  - intros H. vm_compute in H. discriminate.
Defined.

(** ** The properties on the sample *)

Lemma one_chat_ok (chat : Z) (st : UserState) : states_ok [(chat, st)].
Proof. constructor; [intros [] | constructor]. Qed.

Lemma X16_finish_test_witness :
  rp_error (finish_test sample_ucd sample_json_dumps sample_env answered_world 7) = None.
Proof.
  destruct (X16_finish_test sample_ucd sample_json_dumps sample_env answered_world 7
              answered_state)
    as (result & lines & saved & _ & Herr & _).
  - apply one_chat_ok.
  - reflexivity.
  - exact sample_test_ids_nodup.
  - vm_compute. reflexivity.
  - exact Herr.
Defined.

Lemma X17_conversation_witness :
  rp_error (feed_texts sample_ucd sample_json_dumps sample_env shown_world 7
              (u "Ann Lee" :: u "B-1" :: map snd sample_answers))
  = rp_error
      (finish_test sample_ucd sample_json_dumps sample_env
         (with_states shown_world
            (states_set (w_states shown_world) 7
               (state_with shown_state Asking 6
                  (record_answers (t_questions shown_test) (map snd sample_answers) [])
                  (Some (strip (u "Ann Lee"))) (Some (strip (u "B-1")))))) 7).
Proof.
  apply (X17_conversation sample_ucd sample_json_dumps sample_env shown_world 7
           shown_state (u "Ann Lee") (u "B-1") (map snd sample_answers)).
  - reflexivity.
  - reflexivity.
  - discriminate.
  - vm_compute. reflexivity.
  - reflexivity.
Defined.

Lemma X18_handlers_keep_order_witness :
  (forall text,
     keeps_order (handle_text_message sample_ucd sample_json_dumps sample_env
                    sample_world 7 text)) /\
  (forall call_id data from_user message_id,
     keeps_order (callback_query_handler sample_ucd sample_json_dumps sample_env
                    sample_world 7 call_id data from_user message_id)).
Proof.
  apply (X18_handlers_keep_order sample_ucd sample_json_dumps sample_env sample_world 7).
  - apply one_chat_ok.
  - intros chat st H. cbn [sample_world w_states states_get] in H.
    destruct (7 =? chat)%Z; [| discriminate].
    inversion H; subst. cbn. lia.
  - intros tid t H. cbn [sample_env env_tests dict_get] in H.
    destruct (str_eqb (u "t1") tid); [inversion H; subst; cbn; discriminate |].
    destruct (str_eqb (u "t8") tid); [inversion H; subst; cbn; discriminate | discriminate].
Defined.


Lemma X20_option_buttons_witness :
  exists kb,
    make_inline_keyboard_for_options [u "Paris"; u "London"] = Done kb /\
    List.length kb = 2%nat /\
    nth_error kb 1 = Some {| b_text := u "b. London"; b_callback_data := u "b" |} /\
    callback_query_handler sample_ucd sample_json_dumps sample_env sample_world 7
      (u "c1") (u "b") {| tg_id := 42; tg_username := None |} 5
    = next_question sample_ucd sample_json_dumps sample_env
        (with_states sample_world
           (states_set (w_states sample_world) 7
              (state_with sample_state GetName 1 [(u "q1", u "b")] None None)))
        7 (state_with sample_state GetName 1 [(u "q1", u "b")] None None)
        [AnswerCallback (u "c1") (CbChosen (u "b")); DeleteMessage 7 5].
Proof.
  apply (X20_option_buttons sample_ucd sample_json_dumps sample_env sample_world 7
           (u "c1") {| tg_id := 42; tg_username := None |} 5 sample_state
           (mkq "q1" "single" None (AnsStr (u "a")) None
                (Some [u "Paris"; u "London"]) None)
           [u "Paris"; u "London"] 1 (u "London")).
  - vm_compute. discriminate.
  - reflexivity.
  - reflexivity.
  - reflexivity.
  - reflexivity.
Defined.

Lemma X21_stuck_after_failed_grading_witness :
  rp_error (handle_text_message sample_ucd sample_json_dumps sample_env misfit_world 7
              (Some (u "a")))
  = Some (GradingError AttributeError).
Proof.
  apply (X21_stuck_after_failed_grading sample_ucd sample_json_dumps sample_env
           misfit_world 7 misfit_state
           (mkq "q1" "single" None (AnsList [u "a"]) None (Some [u "x"; u "y"]) None)
           (u "a") AttributeError).
  - reflexivity.
  - reflexivity.
  - reflexivity.
  - reflexivity.
  - vm_compute. reflexivity.
Defined.
